(** * shov-mcp: the manifest-driven request dispatcher and its stream normalizer

    A shallow embedding of [ShovMCPServer] (index.js): [fetchManifest],
    [start], the [tools/call] handler, [callTool] and [handleSSEStream],
    together with the parts of the JavaScript platform they call (string
    methods, [TextDecoder], [JSON.parse], [encodeURIComponent],
    [URLSearchParams], [JSON.stringify]).

    JavaScript strings are sequences of UTF-16 code units, bytes are
    [Byte.byte], JSON values are a tagged union, objects are association
    lists kept in property order, and the asynchronous methods run in a
    small state-and-exception monad over the server object and the log of
    HTTP requests issued.  The three objects that the argument loop of
    [callTool] fills go with their prototype, which an argument named
    [__proto__] changes.  What [console.error] and [process.stderr] print
    is left out; a line that is logged matters only when building its text
    throws.  A response body is a finite sequence of chunks. *)

From Stdlib Require Import String Ascii ZArith List Bool Lia Permutation.
From Stdlib.Strings Require Import Byte.
Import ListNotations.
Open Scope Z_scope.

(* ================================================================== *)
(** ** JavaScript strings *)

(** A string is the list of its UTF-16 code units. *)
Definition jsstring := list Z.

(** The string denoted by an ASCII literal. *)
Definition js (s : string) : jsstring :=
  map (fun b => Z.of_N (Byte.to_N b)) (list_byte_of_string s).

Fixpoint str_eqb (a b : jsstring) : bool :=
  match a, b with
  | [], [] => true
  | c :: a', d :: b' => (c =? d) && str_eqb a' b'
  | _, _ => false
  end.

(** [s.startsWith(p)] *)
Fixpoint startsWith (s p : jsstring) {struct p} : bool :=
  match p, s with
  | [], _ => true
  | c :: p', d :: s' => (d =? c) && startsWith s' p'
  | _ :: _, [] => false
  end.

(** [s.includes(p)] *)
Fixpoint includes (s p : jsstring) : bool :=
  startsWith s p ||
  match s with
  | [] => false
  | _ :: s' => includes s' p
  end.

(** The text before and after the first occurrence of [p] in [s]. *)
Fixpoint split_at_first (s p : jsstring) : option (jsstring * jsstring) :=
  if startsWith s p then Some ([], skipn (length p) s)
  else match s with
       | [] => None
       | c :: s' =>
           match split_at_first s' p with
           | Some (before, after) => Some (c :: before, after)
           | None => None
           end
       end.

(** GetSubstitution for a string pattern (no captures): [$$], [$&], [$`]
    and [$'] are expanded, every other [$] stands for itself. *)
Fixpoint GetSubstitution (matched before after template : jsstring) : jsstring :=
  match template with
  | [] => []
  | c :: t =>
      if c =? 36 then
        match t with
        | d :: t' =>
            if d =? 36 then 36 :: GetSubstitution matched before after t'
            else if d =? 38 then matched ++ GetSubstitution matched before after t'
            else if d =? 96 then before ++ GetSubstitution matched before after t'
            else if d =? 39 then after ++ GetSubstitution matched before after t'
            else c :: GetSubstitution matched before after t
        | [] => [c]
        end
      else c :: GetSubstitution matched before after t
  end.

(** [s.replace(p, r)] with a string pattern: only the first occurrence of
    [p] is replaced. *)
Definition replace (s p r : jsstring) : jsstring :=
  match split_at_first s p with
  | None => s
  | Some (before, after) => before ++ GetSubstitution p before after r ++ after
  end.

(** [s.split(sep)] for a separator of one code unit; the result is never
    empty. *)
Fixpoint split (sep : Z) (s : jsstring) : list jsstring :=
  match s with
  | [] => [[]]
  | c :: s' =>
      match split sep s' with
      | [] => [[c]]
      | l :: ls => if c =? sep then [] :: l :: ls else (c :: l) :: ls
      end
  end.

(** [a.pop()]: the last element (if any) and the array without it. *)
Definition pop {A} (a : list A) : option A * list A :=
  match a with
  | [] => (None, [])
  | x :: a' => (Some (last a' x), removelast a)
  end.

(** [s.slice(n)] for [0 <= n]. *)
Definition slice (n : nat) (s : jsstring) : jsstring := skipn n s.

(** [[a, b, c].join(sep)] *)
Fixpoint join (sep : jsstring) (parts : list jsstring) : jsstring :=
  match parts with
  | [] => []
  | [p] => p
  | p :: rest => p ++ sep ++ join sep rest
  end.

(** Decimal digits of a non-negative integer, most significant first. *)
Fixpoint decimal_digits (fuel : nat) (n : Z) (acc : jsstring) : jsstring :=
  match fuel with
  | O => acc
  | S f =>
      let acc' := (48 + n mod 10) :: acc in
      if n <? 10 then acc' else decimal_digits f (n / 10) acc'
  end.

(** Number::toString for an integer (what a template literal gives for an
    HTTP status or an array length). *)
Definition integer_to_string (n : Z) : jsstring :=
  if n <? 0 then 45 :: decimal_digits (S (Z.to_nat (Z.log2 (- n)))) (- n) []
  else decimal_digits (S (Z.to_nat (Z.log2 n))) n [].

(** The number a string of decimal digits denotes. *)
Definition decimal_value (s : jsstring) : Z :=
  fold_left (fun acc c => acc * 10 + (c - 48)) s 0.

Definition hex_digit (upper : bool) (d : Z) : Z :=
  if d <? 10 then 48 + d else (if upper then 55 else 87) + d.

(* ================================================================== *)
(** ** UTF-8 and UTF-16 *)

Definition is_lead_surrogate (c : Z) : bool := (0xD800 <=? c) && (c <=? 0xDBFF).
Definition is_trail_surrogate (c : Z) : bool := (0xDC00 <=? c) && (c <=? 0xDFFF).

Definition surrogate_pair (hi lo : Z) : Z :=
  0x10000 + Z.shiftl (hi - 0xD800) 10 + (lo - 0xDC00).

(** The UTF-16 code units of a code point. *)
Definition utf16_units (cp : Z) : jsstring :=
  if cp <? 0x10000 then [cp]
  else [0xD800 + Z.shiftr (cp - 0x10000) 10; 0xDC00 + Z.land (cp - 0x10000) 0x3FF].

(** [s.isWellFormed()]: no surrogate stands alone. *)
Fixpoint isWellFormed (s : jsstring) : bool :=
  match s with
  | [] => true
  | c :: t =>
      if is_lead_surrogate c then
        match t with
        | d :: t' => is_trail_surrogate d && isWellFormed t'
        | [] => false
        end
      else negb (is_trail_surrogate c) && isWellFormed t
  end.

(** The conversion of a string to a string of scalar values: a surrogate
    that stands alone becomes U+FFFD. *)
Fixpoint to_usv (s : jsstring) : jsstring :=
  match s with
  | [] => []
  | c :: t =>
      if is_lead_surrogate c then
        match t with
        | d :: t' =>
            if is_trail_surrogate d then c :: d :: to_usv t'
            else 0xFFFD :: to_usv t
        | [] => [0xFFFD]
        end
      else if is_trail_surrogate c then 0xFFFD :: to_usv t
      else c :: to_usv t
  end.

(** The UTF-8 octets of a scalar value. *)
Definition utf8_octets (cp : Z) : list Z :=
  if cp <? 0x80 then [cp]
  else if cp <? 0x800 then
    [Z.lor 0xC0 (Z.shiftr cp 6); Z.lor 0x80 (Z.land cp 0x3F)]
  else if cp <? 0x10000 then
    [Z.lor 0xE0 (Z.shiftr cp 12); Z.lor 0x80 (Z.land (Z.shiftr cp 6) 0x3F);
     Z.lor 0x80 (Z.land cp 0x3F)]
  else
    [Z.lor 0xF0 (Z.shiftr cp 18); Z.lor 0x80 (Z.land (Z.shiftr cp 12) 0x3F);
     Z.lor 0x80 (Z.land (Z.shiftr cp 6) 0x3F); Z.lor 0x80 (Z.land cp 0x3F)].

(** The state of the UTF-8 decoder between two bytes. *)
Record utf8_state := {
  code_point : Z;
  bytes_seen : Z;
  bytes_needed : Z;
  lower_boundary : Z;
  upper_boundary : Z
}.

Definition utf8_start : utf8_state :=
  {| code_point := 0; bytes_seen := 0; bytes_needed := 0;
     lower_boundary := 0x80; upper_boundary := 0xBF |}.

(** A byte read while no sequence is pending. *)
Definition utf8_lead (b : Z) : utf8_state * list Z :=
  if b <=? 0x7F then (utf8_start, [b])
  else if (0xC2 <=? b) && (b <=? 0xDF) then
    ({| code_point := Z.land b 0x1F; bytes_seen := 0; bytes_needed := 1;
        lower_boundary := 0x80; upper_boundary := 0xBF |}, [])
  else if (0xE0 <=? b) && (b <=? 0xEF) then
    ({| code_point := Z.land b 0xF; bytes_seen := 0; bytes_needed := 2;
        lower_boundary := if b =? 0xE0 then 0xA0 else 0x80;
        upper_boundary := if b =? 0xED then 0x9F else 0xBF |}, [])
  else if (0xF0 <=? b) && (b <=? 0xF4) then
    ({| code_point := Z.land b 0x7; bytes_seen := 0; bytes_needed := 3;
        lower_boundary := if b =? 0xF0 then 0x90 else 0x80;
        upper_boundary := if b =? 0xF4 then 0x8F else 0xBF |}, [])
  else (utf8_start, [0xFFFD]).

(** One byte through the decoder, in replacement mode: the new state and
    the code points that byte completes.  A byte that breaks a pending
    sequence yields U+FFFD and is then read afresh. *)
Definition utf8_step (st : utf8_state) (b : Z) : utf8_state * list Z :=
  if bytes_needed st =? 0 then utf8_lead b
  else if negb ((lower_boundary st <=? b) && (b <=? upper_boundary st)) then
    let (st', out) := utf8_lead b in (st', 0xFFFD :: out)
  else
    let cp := Z.lor (Z.shiftl (code_point st) 6) (Z.land b 0x3F) in
    if bytes_seen st + 1 =? bytes_needed st then (utf8_start, [cp])
    else ({| code_point := cp; bytes_seen := bytes_seen st + 1;
             bytes_needed := bytes_needed st;
             lower_boundary := 0x80; upper_boundary := 0xBF |}, []).

(** [new TextDecoder()]: UTF-8, not fatal, the byte order mark not kept. *)
Record TextDecoder := {
  decoder : utf8_state;
  BOM_seen : bool
}.

Definition TextDecoder_new : TextDecoder :=
  {| decoder := utf8_start; BOM_seen := false |}.

(** Serializing decoded code points: the first one is dropped when it is
    the byte order mark. *)
Fixpoint serialize (seen : bool) (cps : list Z) : bool * jsstring :=
  match cps with
  | [] => (seen, [])
  | cp :: rest =>
      let (seen', out) := serialize true rest in
      (seen', if negb seen && (cp =? 0xFEFF) then out else utf16_units cp ++ out)
  end.

Definition byte_value (b : Byte.byte) : Z := Z.of_N (Byte.to_N b).

(** One byte through a [TextDecoder]. *)
Definition decode_byte (d : TextDecoder) (b : Byte.byte) : TextDecoder * jsstring :=
  let (st, cps) := utf8_step (decoder d) (byte_value b) in
  let (seen, out) := serialize (BOM_seen d) cps in
  ({| decoder := st; BOM_seen := seen |}, out).

(** [decoder.decode(value, { stream: true })]: the bytes of [value] go
    through the decoder one by one; a sequence left unfinished stays
    pending in the decoder. *)
Fixpoint decode_stream (d : TextDecoder) (value : list Byte.byte) : TextDecoder * jsstring :=
  match value with
  | [] => (d, [])
  | b :: rest =>
      let (d1, out1) := decode_byte d b in
      let (d2, out2) := decode_stream d1 rest in
      (d2, out1 ++ out2)
  end.

(** UTF-8 decode of a whole body (what [response.text()] and
    [response.json()] read): as above, and a sequence still pending at the
    end yields U+FFFD. *)
Definition utf8_decode (bytes : list Byte.byte) : jsstring :=
  let (d, out) := decode_stream TextDecoder_new bytes in
  if bytes_needed (decoder d) =? 0 then out
  else out ++ snd (serialize (BOM_seen d) [0xFFFD]).


(* ================================================================== *)
(** ** JSON values and objects *)

#[local] Set Warnings "-register-all".

(** A value that came out of [JSON.parse].  A number is carried as the
    literal that denoted it; what JavaScript computes from its double
    value is left to the [Platform] below. *)
Inductive json :=
| JNull
| JBool (b : bool)
| JNum (literal : jsstring)
| JStr (s : jsstring)
| JArr (items : list json)
| JObj (props : list (jsstring * json)).

(** An object: its own properties in property order. *)
Definition object := list (jsstring * json).

(** [Object.keys(o)] *)
Definition Object_keys (o : object) : list jsstring := map fst o.

(** [o[k]] on an own property; [None] is [undefined]. *)
Fixpoint lookup (k : jsstring) (o : object) : option json :=
  match o with
  | [] => None
  | (k', v) :: o' => if str_eqb k' k then Some v else lookup k o'
  end.

Definition has_own (k : jsstring) (o : object) : bool :=
  match lookup k o with Some _ => true | None => false end.

Definition is_digit (c : Z) : bool := (48 <=? c) && (c <=? 57).

(** The array index a property key denotes, if it is a canonical numeric
    string below 2^32 - 1. *)
Definition array_index (k : jsstring) : option Z :=
  match k with
  | [] => None
  | d :: ds =>
      if forallb is_digit k && (negb (d =? 48) || match ds with [] => true | _ => false end)
      then
        let n := decimal_value k in
        if n <? 4294967295 then Some n else None
      else None
  end.

(** Property order: array indices ascending, then the other keys in the
    order of their creation. *)
Definition comes_before (k k' : jsstring) : bool :=
  match array_index k, array_index k' with
  | Some n, Some n' => n <? n'
  | Some _, None => true
  | None, _ => false
  end.

Fixpoint obj_insert (k : jsstring) (v : json) (o : object) : object :=
  match o with
  | [] => [(k, v)]
  | (k', v') :: o' =>
      if comes_before k k' then (k, v) :: o else (k', v') :: obj_insert k v o'
  end.

Fixpoint obj_update (k : jsstring) (v : json) (o : object) : object :=
  match o with
  | [] => []
  | (k', v') :: o' =>
      if str_eqb k' k then (k', v) :: o' else (k', v') :: obj_update k v o'
  end.

(** [o[k] = v] where no setter is in the way: the own property is defined. *)
Definition obj_set (k : jsstring) (v : json) (o : object) : object :=
  if has_own k o then obj_update k v o else obj_insert k v o.

(** What an object created by [{}] inherits from: [Object.prototype] as
    long as nothing changes it, [null], or the array or object that an
    assignment to [__proto__] has put in its place. *)
Inductive prototype :=
| ObjectPrototype
| NullPrototype
| ValuePrototype (v : json).

(** Whether a lookup of [__proto__] that starts at the prototype ends at
    the accessor of [Object.prototype]: not when the chain ends before it,
    and not when an object on the way has a property of that name. *)
Definition reaches_setter (proto : prototype) : bool :=
  match proto with
  | ObjectPrototype => true
  | NullPrototype => false
  | ValuePrototype (JObj props) => negb (has_own (js "__proto__") props)
  | ValuePrototype _ => true
  end.

(** The setter of [Object.prototype.__proto__]: an object or [null] becomes
    the prototype, any other value is ignored. *)
Definition set_prototype (v : json) (proto : prototype) : prototype :=
  match v with
  | JNull => NullPrototype
  | JArr _ | JObj _ => ValuePrototype v
  | _ => proto
  end.

(** [m[k] = v] on an object created by [{}], given as its own properties
    and its prototype.  An own property is updated; a new key becomes an
    own property, except [__proto__] when the accessor is reached: then
    the setter runs and no property is created.  (What else the object
    inherits is writable data, over which the own property is defined.) *)
Definition assign (k : jsstring) (v : json) (m : object * prototype) : object * prototype :=
  let (own, proto) := m in
  if negb (has_own k own) && str_eqb k (js "__proto__") && reaches_setter proto
  then (own, set_prototype v proto)
  else (obj_set k v own, proto).

(* ================================================================== *)
(** ** Exceptions and the platform *)

Inductive exn :=
| Error (message : jsstring)
| TypeError (message : jsstring)
| SyntaxError (message : jsstring)
| URIError (message : jsstring).

(** [error.message] *)
Definition message (e : exn) : jsstring :=
  match e with
  | Error m | TypeError m | SyntaxError m | URIError m => m
  end.

(** The result of an evaluation that may throw. *)
Inductive outcome (A : Type) :=
| Return (a : A)
| Throw (e : exn).
Arguments Return {A} a.
Arguments Throw {A} e.

(** The errors the engine raises by itself. *)
Inductive fault :=
| NullProperty (key : jsstring)   (* a property of null or undefined is read *)
| NotAFunction (name : jsstring)  (* a missing method is called *)
| NotPrimitive                    (* an object has no primitive value *)
| MalformedURI                    (* a lone surrogate reaches encodeURIComponent *)
| InvalidJSON (text : jsstring)   (* JSON.parse rejects its input *)
| InvalidURL                      (* fetch is given something that is no URL *)
| NotIterable                     (* an element of a sequence of pairs cannot be iterated *)
| NotAPair.                       (* an element of a sequence of pairs has not two items *)

(** What the embedding takes from the JavaScript engine as it finds it:
    the double value of a number literal seen through ToBoolean, ToString
    and isFinite, and the wording of the engine's own error messages. *)
Class Platform := {
  NumberToBoolean : jsstring -> bool;
  NumberToString : jsstring -> jsstring;
  NumberIsFinite : jsstring -> bool;
  NumberToLength : jsstring -> Z;   (* ToLength of the number a literal denotes *)
  StringToLength : jsstring -> Z;   (* ToLength of the number a string converts to *)
  fault_message : fault -> jsstring
}.

Section Engine.
Context {platform : Platform}.

(** ToBoolean; [None] is [undefined]. *)
Definition ToBoolean (v : option json) : bool :=
  match v with
  | None | Some JNull => false
  | Some (JBool b) => b
  | Some (JNum n) => NumberToBoolean n
  | Some (JStr s) => match s with [] => false | _ => true end
  | Some (JArr _) | Some (JObj _) => true
  end.

(** ToString of a value.  An array is joined with commas, [null] elements
    giving the empty string; an object is ["[object Object]"] unless an own
    property hides [toString], in which case no primitive value is found. *)
Fixpoint ToString (v : json) : outcome jsstring :=
  match v with
  | JNull => Return (js "null")
  | JBool b => Return (if b then js "true" else js "false")
  | JNum n => Return (NumberToString n)
  | JStr s => Return s
  | JArr items =>
      (fix elements (l : list json) : outcome jsstring :=
         match l with
         | [] => Return []
         | x :: rest =>
             match (match x with JNull => Return [] | _ => ToString x end) with
             | Throw e => Throw e
             | Return a =>
                 match elements rest with
                 | Throw e => Throw e
                 | Return b =>
                     Return (a ++ match rest with [] => [] | _ => 44 :: b end)
                 end
             end
         end) items
  | JObj props =>
      if has_own (js "toString") props
      then Throw (TypeError (fault_message NotPrimitive))
      else Return (js "[object Object]")
  end.

(** [v.k] for a key that no built-in prototype defines ([tools], [name],
    [handler], [url], [method], [type], [content], [text], ...): an own
    property of an object, [undefined] on any other value, a TypeError on
    [null] and [undefined]. *)
Definition get (v : option json) (k : jsstring) : outcome (option json) :=
  match v with
  | None | Some JNull => Throw (TypeError (fault_message (NullProperty k)))
  | Some (JObj props) => Return (lookup k props)
  | Some _ => Return None
  end.

(** [v.length === 0] for a value [v] that is not [null] or [undefined]. *)
Definition length_is_zero (v : json) : bool :=
  match v with
  | JArr items => match items with [] => true | _ => false end
  | JStr s => match s with [] => true | _ => false end
  | JObj props =>
      match lookup (js "length") props with
      | Some (JNum n) => negb (NumberToBoolean n)
      | _ => false
      end
  | _ => false
  end.

(** [v === s] for a string [s]. *)
Definition is_string (v : option json) (s : jsstring) : bool :=
  match v with
  | Some (JStr s') => str_eqb s' s
  | _ => false
  end.

(** ToLength of a value: an array or an object is converted through its
    string. *)
Definition ToLength (v : json) : outcome Z :=
  match v with
  | JNull => Return 0
  | JBool b => Return (if b then 1 else 0)
  | JNum n => Return (NumberToLength n)
  | JStr s => Return (StringToLength s)
  | JArr _ | JObj _ =>
      match ToString v with
      | Throw e => Throw e
      | Return s => Return (StringToLength s)
      end
  end.

(* ------------------------------------------------------------------ *)
(** *** JSON.parse *)

Inductive parsed (A : Type) :=
| Parsed (a : A) (rest : jsstring)
| Malformed
| OutOfFuel.
Arguments Parsed {A} a rest.
Arguments Malformed {A}.
Arguments OutOfFuel {A}.

Definition is_ws (c : Z) : bool :=
  (c =? 32) || (c =? 9) || (c =? 10) || (c =? 13).

Fixpoint skip_ws (s : jsstring) : jsstring :=
  match s with
  | c :: t => if is_ws c then skip_ws t else s
  | [] => []
  end.

Definition hex_value (c : Z) : option Z :=
  if is_digit c then Some (c - 48)
  else if (97 <=? c) && (c <=? 102) then Some (c - 87)
  else if (65 <=? c) && (c <=? 70) then Some (c - 55)
  else None.

Definition hex4 (a b c d : Z) : option Z :=
  match hex_value a, hex_value b, hex_value c, hex_value d with
  | Some x, Some y, Some z, Some w => Some (((x * 16 + y) * 16 + z) * 16 + w)
  | _, _, _, _ => None
  end.

(** The character a one-letter escape stands for. *)
Definition simple_escape (c : Z) : option Z :=
  if (c =? 34) || (c =? 92) || (c =? 47) then Some c
  else if c =? 98 then Some 8
  else if c =? 102 then Some 12
  else if c =? 110 then Some 10
  else if c =? 114 then Some 13
  else if c =? 116 then Some 9
  else None.

(** The characters of a string literal after its opening quote, and what
    follows the closing quote. *)
Fixpoint string_body (s : jsstring) : option (jsstring * jsstring) :=
  match s with
  | [] => None
  | c :: t =>
      if c =? 34 then Some ([], t)
      else if c =? 92 then
        match t with
        | [] => None
        | e :: t' =>
            if e =? 117 then
              match t' with
              | h1 :: h2 :: h3 :: h4 :: t'' =>
                  match hex4 h1 h2 h3 h4, string_body t'' with
                  | Some u, Some (body, rest) => Some (u :: body, rest)
                  | _, _ => None
                  end
              | _ => None
              end
            else
              match simple_escape e, string_body t' with
              | Some x, Some (body, rest) => Some (x :: body, rest)
              | _, _ => None
              end
        end
      else if c <? 32 then None
      else
        match string_body t with
        | Some (body, rest) => Some (c :: body, rest)
        | None => None
        end
  end.

(** The leading digits of [s] and what follows them. *)
Fixpoint digits (s : jsstring) : jsstring * jsstring :=
  match s with
  | c :: t => if is_digit c then let (ds, r) := digits t in (c :: ds, r) else ([], s)
  | [] => ([], [])
  end.

(** An optional minus sign. *)
Definition minus_sign (s : jsstring) : jsstring * jsstring :=
  match s with
  | c :: t => if c =? 45 then ([c], t) else ([], s)
  | [] => ([], s)
  end.

(** The integer part of a number: [0], or a digit other than [0] and the
    digits after it. *)
Definition integer_part (s : jsstring) : option (jsstring * jsstring) :=
  match s with
  | d :: t =>
      if negb (is_digit d) then None
      else if d =? 48 then Some ([d], t)
      else let (ds, r) := digits t in Some (d :: ds, r)
  | [] => None
  end.

(** The optional fraction: a point and at least one digit. *)
Definition fraction_part (s : jsstring) : option (jsstring * jsstring) :=
  match s with
  | c :: t =>
      if c =? 46 then
        match digits t with
        | ([], _) => None
        | (ds, r) => Some (c :: ds, r)
        end
      else Some ([], s)
  | [] => Some ([], s)
  end.

(** The optional exponent: [e] or [E], an optional sign, and at least one
    digit. *)
Definition exponent_part (s : jsstring) : option (jsstring * jsstring) :=
  match s with
  | c :: t =>
      if (c =? 101) || (c =? 69) then
        let (sign, t') :=
          match t with
          | g :: t' => if (g =? 43) || (g =? 45) then ([g], t') else ([], t)
          | [] => ([], t)
          end in
        match digits t' with
        | ([], _) => None
        | (ds, r) => Some (c :: sign ++ ds, r)
        end
      else Some ([], s)
  | [] => Some ([], s)
  end.

(** A number literal at the head of [s]: its text and what follows. *)
Definition number_literal (s : jsstring) : option (jsstring * jsstring) :=
  let (sign, s1) := minus_sign s in
  match integer_part s1 with
  | None => None
  | Some (int, s2) =>
      match fraction_part s2 with
      | None => None
      | Some (frac, s3) =>
          match exponent_part s3 with
          | None => None
          | Some (exp, s4) => Some (sign ++ int ++ frac ++ exp, s4)
          end
      end
  end.

(** Recursive descent over the JSON grammar.  [parse_value] reads one
    value; [parse_elements] and [parse_members] read what is left of an
    array and of an object after its opening bracket or a comma.  An
    object is built by defining its properties in turn, so that a repeated
    key keeps its place and takes the last value. *)
Fixpoint parse_value (fuel : nat) (s : jsstring) : parsed json :=
  match fuel with
  | O => OutOfFuel
  | S f =>
      match skip_ws s with
      | [] => Malformed
      | c :: t =>
          if c =? 123 then
            match skip_ws t with
            | c' :: t' => if c' =? 125 then Parsed (JObj []) t' else parse_members f (skip_ws t) []
            | [] => Malformed
            end
          else if c =? 91 then
            match skip_ws t with
            | c' :: t' => if c' =? 93 then Parsed (JArr []) t' else parse_elements f t []
            | [] => Malformed
            end
          else if c =? 34 then
            match string_body t with
            | Some (str, rest) => Parsed (JStr str) rest
            | None => Malformed
            end
          else if startsWith (c :: t) (js "true") then Parsed (JBool true) (skipn 4 (c :: t))
          else if startsWith (c :: t) (js "false") then Parsed (JBool false) (skipn 5 (c :: t))
          else if startsWith (c :: t) (js "null") then Parsed JNull (skipn 4 (c :: t))
          else
            match number_literal (c :: t) with
            | Some (lit, rest) => Parsed (JNum lit) rest
            | None => Malformed
            end
      end
  end

with parse_elements (fuel : nat) (s : jsstring) (acc : list json) : parsed json :=
  match fuel with
  | O => OutOfFuel
  | S f =>
      match parse_value f s with
      | Parsed v rest =>
          match skip_ws rest with
          | c :: t =>
              if c =? 44 then parse_elements f t (v :: acc)
              else if c =? 93 then Parsed (JArr (rev (v :: acc))) t
              else Malformed
          | [] => Malformed
          end
      | Malformed => Malformed
      | OutOfFuel => OutOfFuel
      end
  end

with parse_members (fuel : nat) (s : jsstring) (acc : object) : parsed json :=
  match fuel with
  | O => OutOfFuel
  | S f =>
      match s with
      | q :: t =>
          if q =? 34 then
            match string_body t with
            | Some (key, rest) =>
                match skip_ws rest with
                | c :: t1 =>
                    if c =? 58 then
                      match parse_value f t1 with
                      | Parsed v rest' =>
                          match skip_ws rest' with
                          | c' :: t2 =>
                              if c' =? 44 then parse_members f (skip_ws t2) (obj_set key v acc)
                              else if c' =? 125 then Parsed (JObj (obj_set key v acc)) t2
                              else Malformed
                          | [] => Malformed
                          end
                      | Malformed => Malformed
                      | OutOfFuel => OutOfFuel
                      end
                    else Malformed
                | [] => Malformed
                end
            | None => Malformed
            end
          else Malformed
      | [] => Malformed
      end
  end.

(** [JSON.parse(text)]: one value, with nothing but white space around it. *)
Definition JSON_parse (text : jsstring) : outcome json :=
  match parse_value (2 * List.length text + 2) text with
  | Parsed v rest =>
      match skip_ws rest with
      | [] => Return v
      | _ :: _ => Throw (SyntaxError (fault_message (InvalidJSON text)))
      end
  | _ => Throw (SyntaxError (fault_message (InvalidJSON text)))
  end.

End Engine.

Arguments Parsed {A} a rest.
Arguments Malformed {A}.
Arguments OutOfFuel {A}.

(* ================================================================== *)
(** ** Percent-encoding and serializers *)

Section Serializers.
Context {platform : Platform}.

(** [%XX] for each octet. *)
Definition percent_octets (octets : list Z) : jsstring :=
  flat_map (fun o => [37; hex_digit true (Z.shiftr o 4); hex_digit true (Z.land o 15)]) octets.

Definition is_alnum (c : Z) : bool :=
  ((65 <=? c) && (c <=? 90)) || ((97 <=? c) && (c <=? 122)) || is_digit c.

(** The characters [encodeURIComponent] leaves alone:
    letters, digits and [- _ . ! ~ * ' ( )]. *)
Definition uri_unreserved (c : Z) : bool :=
  is_alnum c ||
  existsb (Z.eqb c) [45; 95; 46; 33; 126; 42; 39; 40; 41].

(** Encode: every other code point becomes the percent-escapes of its
    UTF-8 octets; a lone surrogate has none. *)
Fixpoint Encode (s : jsstring) : option jsstring :=
  match s with
  | [] => Some []
  | c :: t =>
      if uri_unreserved c then option_map (cons c) (Encode t)
      else if is_trail_surrogate c then None
      else if is_lead_surrogate c then
        match t with
        | d :: t' =>
            if is_trail_surrogate d
            then option_map (app (percent_octets (utf8_octets (surrogate_pair c d)))) (Encode t')
            else None
        | [] => None
        end
      else option_map (app (percent_octets (utf8_octets c))) (Encode t)
  end.

(** [encodeURIComponent(value)] *)
Definition encodeURIComponent (value : json) : outcome jsstring :=
  match ToString value with
  | Throw e => Throw e
  | Return s =>
      match Encode s with
      | Some r => Return r
      | None => Throw (URIError (fault_message MalformedURI))
      end
  end.

(** The scalar values of a string, a lone surrogate read as U+FFFD. *)
Fixpoint scalar_values (s : jsstring) : list Z :=
  match s with
  | [] => []
  | c :: t =>
      if is_lead_surrogate c then
        match t with
        | d :: t' =>
            if is_trail_surrogate d then surrogate_pair c d :: scalar_values t'
            else 0xFFFD :: scalar_values t
        | [] => [0xFFFD]
        end
      else if is_trail_surrogate c then 0xFFFD :: scalar_values t
      else c :: scalar_values t
  end.

(** The application/x-www-form-urlencoded serializing of one string. *)
Definition form_urlencode (s : jsstring) : jsstring :=
  flat_map
    (fun o =>
       if is_alnum o || existsb (Z.eqb o) [42; 45; 46; 95] then [o]
       else if o =? 32 then [43]
       else percent_octets [o])
    (flat_map utf8_octets (scalar_values s)).

(** [entries.set(name, value)] on an ordered map: a name that is there
    keeps its place and takes the value. *)
Fixpoint entries_set (name value : jsstring) (entries : list (jsstring * jsstring))
  : list (jsstring * jsstring) :=
  match entries with
  | [] => [(name, value)]
  | (name', value') :: rest =>
      if str_eqb name' name then (name', value) :: rest
      else (name', value') :: entries_set name value rest
  end.

(** The conversion of an object to a record of strings of scalar values:
    its own properties in order, each value converted to a string; two
    keys that are one string of scalar values are one entry, which takes
    the later value. *)
Fixpoint record_entries (own : object) (entries : list (jsstring * jsstring))
  : outcome (list (jsstring * jsstring)) :=
  match own with
  | [] => Return entries
  | (k, v) :: own' =>
      match ToString v with
      | Throw e => Throw e
      | Return s => record_entries own' (entries_set (to_usv k) (to_usv s) entries)
      end
  end.

(** The conversion of the items of an array to strings of scalar values. *)
Fixpoint strings_of (items : list json) : outcome (list jsstring) :=
  match items with
  | [] => Return []
  | x :: rest =>
      match ToString x with
      | Throw e => Throw e
      | Return s =>
          match strings_of rest with
          | Throw e => Throw e
          | Return l => Return (to_usv s :: l)
          end
      end
  end.

(** The conversion of one element of a sequence of pairs: only an array
    can be iterated. *)
Definition sequence_item (element : option json) : outcome (list jsstring) :=
  match element with
  | Some (JArr items) => strings_of items
  | _ => Throw (TypeError (fault_message NotIterable))
  end.

(** What the array iterator yields, from [index] on and for [count]
    elements, on an object with the own properties [own] that inherits
    from the array [items]: an own property hides the element of the
    array at its index. *)
Fixpoint sequence_items (own : object) (items : list json) (index count : nat)
  : outcome (list (list jsstring)) :=
  match count with
  | O => Return []
  | S count' =>
      let element :=
        match lookup (integer_to_string (Z.of_nat index)) own with
        | Some v => Some v
        | None => nth_error items index
        end in
      match sequence_item element with
      | Throw e => Throw e
      | Return item =>
          match sequence_items own items (S index) count' with
          | Throw e => Throw e
          | Return rest => Return (item :: rest)
          end
      end
  end.

(** Every element of the sequence has to be a pair. *)
Fixpoint pairs_of (l : list (list jsstring)) : outcome (list (jsstring * jsstring)) :=
  match l with
  | [] => Return []
  | [name; value] :: rest =>
      match pairs_of rest with
      | Throw e => Throw e
      | Return ps => Return ((name, value) :: ps)
      end
  | _ :: _ => Throw (TypeError (fault_message NotAPair))
  end.

(** [new URLSearchParams(o)] for an object [o] created by [{}], given as
    its own properties and its prototype.  The object is read as a record
    unless it can be iterated, which it can when it inherits from an
    array: then it is read as a sequence of pairs, of the length and with
    the elements that the object has or inherits. *)
Definition URLSearchParams_new (proto : prototype) (own : object)
  : outcome (list (jsstring * jsstring)) :=
  match proto with
  | ValuePrototype (JArr items) =>
      match
        (match lookup (js "length") own with
         | Some v => ToLength v
         | None => Return (Z.of_nat (length items))
         end)
      with
      | Throw e => Throw e
      | Return len =>
          match sequence_items own items 0 (Z.to_nat len) with
          | Throw e => Throw e
          | Return l => pairs_of l
          end
      end
  | _ => record_entries own []
  end.

(** The application/x-www-form-urlencoded serializer: the pairs written
    [name=value] with [&] between them. *)
Definition URLSearchParams_serialize (entries : list (jsstring * jsstring)) : jsstring :=
  join [38] (map (fun nv => form_urlencode (fst nv) ++ 61 :: form_urlencode (snd nv)) entries).

(** [new URLSearchParams(o).toString()] *)
Definition URLSearchParams_toString (proto : prototype) (own : object) : outcome jsstring :=
  match URLSearchParams_new proto own with
  | Throw e => Throw e
  | Return entries => Return (URLSearchParams_serialize entries)
  end.

(** QuoteJSONString, without the enclosing quotes. *)
Fixpoint quote_chars (s : jsstring) : jsstring :=
  let escape c := [92; 117] ++ map (fun k => hex_digit false (Z.land (Z.shiftr c k) 15)) [12; 8; 4; 0] in
  match s with
  | [] => []
  | c :: t =>
      if (c =? 34) || (c =? 92) then 92 :: c :: quote_chars t
      else if c =? 8 then js "\b" ++ quote_chars t
      else if c =? 12 then js "\f" ++ quote_chars t
      else if c =? 10 then js "\n" ++ quote_chars t
      else if c =? 13 then js "\r" ++ quote_chars t
      else if c =? 9 then js "\t" ++ quote_chars t
      else if c <? 32 then escape c ++ quote_chars t
      else if is_lead_surrogate c then
        match t with
        | d :: t' =>
            if is_trail_surrogate d then c :: d :: quote_chars t'
            else escape c ++ quote_chars t
        | [] => escape c
        end
      else if is_trail_surrogate c then escape c ++ quote_chars t
      else c :: quote_chars t
  end.

Definition QuoteJSONString (s : jsstring) : jsstring := 34 :: quote_chars s ++ [34].

(** [JSON.stringify(v)] without indentation. *)
Fixpoint JSON_stringify (v : json) : jsstring :=
  match v with
  | JNull => js "null"
  | JBool b => if b then js "true" else js "false"
  | JNum n => if NumberIsFinite n then NumberToString n else js "null"
  | JStr s => QuoteJSONString s
  | JArr items => 91 :: join [44] (map JSON_stringify items) ++ [93]
  | JObj props =>
      123 :: join [44] (map (fun kv => QuoteJSONString (fst kv) ++ 58 :: JSON_stringify (snd kv)) props) ++ [125]
  end.

End Serializers.

(* ================================================================== *)
(** ** HTTP, the server object and the monad of its methods *)

(** What [fetch] is called with. *)
Record Request := {
  request_url : jsstring;
  request_method : option json;               (* [options.method]; [None] when no options are given *)
  request_headers : list (jsstring * jsstring);
  request_body : option jsstring              (* [options.body], when set *)
}.

(** What [fetch] resolves to.  The body, when the response has one, is the
    sequence of chunks its stream delivers; [body_error] is the error that
    ends the stream after them, when it does not end normally. *)
Record Response := {
  ok : bool;
  status : Z;
  statusText : jsstring;
  content_type : option jsstring;             (* [headers.get('content-type')]; [None] is [null] *)
  body : option (list (list Byte.byte));      (* [None] is a [null] body *)
  body_error : option exn
}.

(** The [ShovMCPServer] object. *)
Record ShovMCPServer := {
  domain : jsstring;
  apiKey : jsstring;
  baseUrl : jsstring;
  manifest : option json                      (* [None] is the initial [null] *)
}.

(** [new ShovMCPServer(domain, apiKey)] *)
Definition constructor (domain apiKey : jsstring) : ShovMCPServer :=
  {| domain := domain;
     apiKey := apiKey;
     baseUrl := if startsWith domain (js "http") then domain else js "https://" ++ domain;
     manifest := None |}.

(** The state the methods run in: the server object and the requests
    issued so far, oldest first. *)
Record state := {
  this : ShovMCPServer;
  sent : list Request
}.

(** A method: from a state to what it returns or throws, and the state it
    leaves. *)
Definition M (A : Type) : Type := state -> outcome A * state.

Definition ret {A} (a : A) : M A := fun st => (Return a, st).

Definition throw {A} (e : exn) : M A := fun st => (Throw e, st).

Definition bind {A B} (m : M A) (k : A -> M B) : M B :=
  fun st =>
    match m st with
    | (Return a, st') => k a st'
    | (Throw e, st') => (Throw e, st')
    end.

(** [try { m } catch (error) { handler }] *)
Definition try_catch {A} (m : M A) (handler : exn -> M A) : M A :=
  fun st =>
    match m st with
    | (Return a, st') => (Return a, st')
    | (Throw e, st') => handler e st'
    end.

(** A computation without effects, run as a method. *)
Definition lift {A} (o : outcome A) : M A := fun st => (o, st).

Definition get_this : M ShovMCPServer := fun st => (Return (this st), st).

(** [this.manifest = m] *)
Definition set_manifest (m : json) : M unit :=
  fun st =>
    (Return tt,
     {| this := {| domain := domain (this st); apiKey := apiKey (this st);
                   baseUrl := baseUrl (this st); manifest := Some m |};
        sent := sent st |}).

Declare Scope method_scope.
Delimit Scope method_scope with method.
Notation "x <- m ;; k" := (bind m (fun x => k))
  (at level 61, m at next level, right associativity) : method_scope.
Notation "m ;;; k" := (bind m (fun _ => k))
  (at level 61, right associativity) : method_scope.

(** The object [handleSSEStream] returns: [type] is always ['stream'];
    [content], [message] and [eventCount] are present in some of its three
    shapes only. *)
Record StreamResult := {
  result_type : jsstring;
  result_content : option jsstring;
  result_message : option jsstring;
  result_events : list json;
  result_eventCount : option nat
}.

(** What [callTool] returns. *)
Inductive ToolResponse :=
| Stream (result : StreamResult)    (* from [handleSSEStream] *)
| Json (data : json)                (* from [response.json()] *)
| Text (data : jsstring).           (* from [response.text()] *)

(** The loop variables of [callTool]. *)
Record parameters := {
  requestUrl : jsstring;
  pathParams : object;
  queryParams : object;
  bodyParams : object;
  pathProto : prototype;     (* what [pathParams] inherits from *)
  queryProto : prototype;    (* what [queryParams] inherits from *)
  bodyProto : prototype      (* what [bodyParams] inherits from *)
}.

(** The loop variables of [handleSSEStream]. *)
Record stream := {
  text_decoder : TextDecoder;
  buffer : jsstring;
  events : list json;
  streamedText : jsstring
}.

Section Server.
Context {platform : Platform}.

(** The remote side: what [fetch] settles to for each request. *)
Variable network : Request -> outcome Response.

Open Scope method_scope.

(** [await fetch(url, options)] *)
Definition fetch (r : Request) : M Response :=
  fun st => (network r, {| this := this st; sent := sent st ++ [r] |}).

(** The chunks of the body; a [null] body has none. *)
Definition chunks (r : Response) : list (list Byte.byte) :=
  match body r with
  | Some cs => cs
  | None => []
  end.

(** [await response.text()] *)
Definition response_text (r : Response) : outcome jsstring :=
  match body_error r with
  | Some e => Throw e
  | None => Return (utf8_decode (concat (chunks r)))
  end.

(** [await response.json()] *)
Definition response_json (r : Response) : outcome json :=
  match response_text r with
  | Throw e => Throw e
  | Return text => JSON_parse text
  end.

(** [fetchManifest()] *)
Definition fetchManifest : M json :=
  self <- get_this ;;
  try_catch
    (response <- fetch {| request_url := baseUrl self ++ js "/mcp.json";
                          request_method := None;
                          request_headers := [];
                          request_body := None |} ;;
     if negb (ok response) then
       throw (Error (js "Failed to fetch manifest: " ++ integer_to_string (status response)
                       ++ js " " ++ statusText response))
     else
       m <- lift (response_json response) ;;
       set_manifest m ;;;
       ret m)
    (fun error =>
       throw (Error (js "Could not connect to " ++ baseUrl self ++ js "/mcp.json - "
                       ++ message error))).

(** A template literal converting [v] to a string;
    [undefined] never fails to convert. *)
Definition converts (v : option json) : bool :=
  match v with
  | None => true
  | Some j => match ToString j with Return _ => true | Throw _ => false end
  end.

(** A line logged with [console.error]: it has no effect here, unless one
    of the values in its template literal has no primitive value. *)
Definition log (values : list (option json)) : M unit :=
  lift (if forallb converts values then Return tt
        else Throw (TypeError (fault_message NotPrimitive))).

(** [!this.manifest || !this.manifest.tools || this.manifest.tools.length === 0] *)
Definition no_tools (m : option json) : bool :=
  negb (ToBoolean m) ||
  match get m (js "tools") with
  | Return tools =>
      negb (ToBoolean tools) ||
      match tools with
      | Some t => length_is_zero t
      | None => false
      end
  | Throw _ => false
  end.

(** The values of the two lines [start] logs: [this.manifest.name] and
    [this.manifest.tools.length].  The length of an array or of a string
    is a number, which always converts and is left as [None] here; only an
    object may hold a [length] of its own. *)
Definition connected (m : option json) : list (option json) :=
  let field k := match get m k with Return v => v | Throw _ => None end in
  [field (js "name");
   match field (js "tools") with
   | Some (JObj props) => lookup (js "length") props
   | _ => None
   end].

(** [start()], up to the point where the handlers are registered and the
    transport is connected. *)
Definition start : M unit :=
  fetchManifest ;;;
  self <- get_this ;;
  if no_tools (manifest self) then throw (Error (js "No tools found in MCP manifest"))
  else log (connected (manifest self)).

(** The search of [find] through the items of an array, with the
    predicate [t => t.name === toolName]. *)
Fixpoint find_tool (items : list json) (toolName : jsstring) : outcome (option json) :=
  match items with
  | [] => Return None
  | t :: rest =>
      match get (Some t) (js "name") with
      | Throw e => Throw e
      | Return name =>
          if is_string name toolName then Return (Some t) else find_tool rest toolName
      end
  end.

(** [tools.find(t => t.name === toolName)]: only an array has [find]. *)
Definition find (tools : option json) (toolName : jsstring) : outcome (option json) :=
  match tools with
  | Some (JArr items) => find_tool items toolName
  | None | Some JNull => Throw (TypeError (fault_message (NullProperty (js "find"))))
  | Some _ => Throw (TypeError (fault_message (NotAFunction (js "find"))))
  end.

(** [`{${key}}`] *)
Definition placeholder (key : jsstring) : jsstring := js "{" ++ key ++ js "}".

(** One turn of the loop that separates the parameters by type. *)
Definition separate (method : option json) (p : parameters) (entry : jsstring * json)
  : outcome parameters :=
  let (key, value) := entry in
  if includes (requestUrl p) (placeholder key) then
    let (own, proto) := assign key value (pathParams p, pathProto p) in
    match encodeURIComponent value with
    | Throw e => Throw e
    | Return encoded =>
        Return {| requestUrl := replace (requestUrl p) (placeholder key) encoded;
                  pathParams := own;
                  queryParams := queryParams p;
                  bodyParams := bodyParams p;
                  pathProto := proto;
                  queryProto := queryProto p;
                  bodyProto := bodyProto p |}
    end
  else if is_string method (js "GET") || is_string method (js "DELETE") then
    let (own, proto) := assign key value (queryParams p, queryProto p) in
    Return {| requestUrl := requestUrl p;
              pathParams := pathParams p;
              queryParams := own;
              bodyParams := bodyParams p;
              pathProto := pathProto p;
              queryProto := proto;
              bodyProto := bodyProto p |}
  else
    let (own, proto) := assign key value (bodyParams p, bodyProto p) in
    Return {| requestUrl := requestUrl p;
              pathParams := pathParams p;
              queryParams := queryParams p;
              bodyParams := own;
              pathProto := pathProto p;
              queryProto := queryProto p;
              bodyProto := proto |}.

(** [for (const [key, value] of Object.entries(args)) ...] *)
Fixpoint separate_all (method : option json) (p : parameters) (entries : object)
  : outcome parameters :=
  match entries with
  | [] => Return p
  | entry :: rest =>
      match separate method p entry with
      | Throw e => Throw e
      | Return p' => separate_all method p' rest
      end
  end.

(** The loop variables before the loop: the handler's URL and three
    empty objects. *)
Definition unclassified (url : jsstring) : parameters :=
  {| requestUrl := url; pathParams := []; queryParams := []; bodyParams := [];
     pathProto := ObjectPrototype; queryProto := ObjectPrototype;
     bodyProto := ObjectPrototype |}.

(** The first part of [callTool]: the loop from the handler's URL and
    three empty objects. *)
Definition classify (url : jsstring) (method : option json) (args : object)
  : outcome parameters :=
  separate_all method (unclassified url) args.

(** The arguments held by the three objects: path, then query, then body. *)
Definition classified (p : parameters) : object :=
  pathParams p ++ queryParams p ++ bodyParams p.

(** The request [callTool] builds from the separated parameters. *)
Definition build_request (self : ShovMCPServer) (method : option json) (p : parameters)
  : outcome Request :=
  match
    (match Object_keys (queryParams p) with
     | [] => Return (requestUrl p)
     | _ :: _ =>
         match URLSearchParams_toString (queryProto p) (queryParams p) with
         | Throw e => Throw e
         | Return query => Return (requestUrl p ++ js "?" ++ query)
         end
     end)
  with
  | Throw e => Throw e
  | Return url =>
      Return
        {| request_url := url;
           request_method := method;
           request_headers :=
             [(js "Authorization", js "Bearer " ++ apiKey self);
              (js "Content-Type", js "application/json");
              (js "User-Agent", js "shov-mcp/1.0.0");
              (js "Accept", js "application/json, text/event-stream")];
           request_body :=
             if (is_string method (js "POST") || is_string method (js "PUT")
                 || is_string method (js "PATCH"))
                && match Object_keys (bodyParams p) with [] => false | _ :: _ => true end
             then Some (JSON_stringify (JObj (bodyParams p)))
             else None |}
  end.

(** [{ type: 'text', content: data }] *)
Definition text_event (data : jsstring) : json :=
  JObj [(js "type", JStr (js "text")); (js "content", JStr data)].

(** [a || b] *)
Definition or_else (a b : option json) : option json :=
  if ToBoolean a then a else b.

(** [a || d] where [d] is a value. *)
Definition or_default (a : option json) (d : json) : json :=
  match a with
  | Some v => if ToBoolean a then v else d
  | None => d
  end.

(** The body of the loop over the complete lines of [handleSSEStream],
    on the pair of [events] and [streamedText]. *)
Definition sse_line (acc : list json * jsstring) (line : jsstring) : list json * jsstring :=
  let (evs, txt) := acc in
  if startsWith line (js "data: ") then
    let data := slice 6 line in
    if str_eqb data (js "[DONE]") then acc
    else
      let caught (evs' : list json) := (evs' ++ [text_event data], txt ++ data) in
      match JSON_parse data with
      | Throw _ => caught evs
      | Return parsed =>
          let evs1 := evs ++ [parsed] in
          let field k := match get (Some parsed) k with Return v => v | Throw _ => None end in
          match get (Some parsed) (js "type") with
          | Throw _ => caught evs1
          | Return type =>
              if is_string type (js "chunk") || is_string type (js "delta") then
                match ToString (or_default (or_else (field (js "content")) (field (js "text"))) (JStr [])) with
                | Return s => (evs1, txt ++ s)
                | Throw _ => caught evs1
                end
              else if is_string type (js "progress") then
                if converts (or_else (field (js "message")) (field (js "status"))) then (evs1, txt)
                else caught evs1
              else if is_string type (js "error") then
                if converts (or_else (field (js "error")) (field (js "message"))) then (evs1, txt)
                else caught evs1
              else (evs1, txt)
          end
      end
  else acc.

(** One turn of the reading loop, for a chunk [value] that [reader.read()]
    delivered. *)
Definition sse_read (s : stream) (value : list Byte.byte) : stream :=
  let (d, decoded) := decode_stream (text_decoder s) value in
  let (last_line, lines) := pop (split 10 (buffer s ++ decoded)) in
  let (evs, txt) := fold_left sse_line lines (events s, streamedText s) in
  {| text_decoder := d;
     buffer := match last_line with Some l => l | None => [] end;
     events := evs;
     streamedText := txt |}.

Definition sse_start : stream :=
  {| text_decoder := TextDecoder_new; buffer := []; events := []; streamedText := [] |}.

(** The object returned once the stream is done. *)
Definition sse_result (s : stream) : StreamResult :=
  match streamedText s with
  | _ :: _ =>
      {| result_type := js "stream";
         result_content := Some (streamedText s);
         result_message := None;
         result_events := events s;
         result_eventCount := Some (List.length (events s)) |}
  | [] =>
      match events s with
      | _ :: _ =>
          {| result_type := js "stream";
             result_content := None;
             result_message := None;
             result_events := events s;
             result_eventCount := Some (List.length (events s)) |}
      | [] =>
          {| result_type := js "stream";
             result_content := None;
             result_message := Some (js "Stream completed with no data");
             result_events := [];
             result_eventCount := None |}
      end
  end.

(** [handleSSEStream(response)] *)
Definition handleSSEStream (response : Response) : outcome StreamResult :=
  match body response with
  | None => Throw (TypeError (fault_message (NullProperty (js "getReader"))))
  | Some reads =>
      let s := fold_left sse_read reads sse_start in
      match body_error response with
      | Some error => Throw (Error (js "SSE stream error: " ++ message error))
      | None => Return (sse_result s)
      end
  end.

(** [contentType && contentType.includes(what)] *)
Definition declares (contentType : option jsstring) (what : jsstring) : bool :=
  match contentType with
  | Some ct => includes ct what
  | None => false
  end.

(** [callTool(tool, args)] up to its [fetch]: the handler's URL and
    method, the separated parameters, and the request made of them.  A
    handler whose [url] is not a string is outside the manifest's data
    model; [includes], [replace] or [fetch] then fail in the engine, which
    is rendered here as one TypeError. *)
Definition callTool_request (self : ShovMCPServer) (tool : json) (args : object)
  : outcome Request :=
  match get (Some tool) (js "handler") with
  | Throw e => Throw e
  | Return handler =>
      match get handler (js "url"), get handler (js "method") with
      | Return (Some (JStr url)), Return method =>
          match classify url method args with
          | Throw e => Throw e
          | Return p => build_request self method p
          end
      | Throw e, _ | _, Throw e => Throw e
      | Return _, Return _ => Throw (TypeError (fault_message InvalidURL))
      end
  end.

(** [callTool(tool, args)] after its [fetch]: what is made of the
    response. *)
Definition callTool_result (response : Response) : outcome ToolResponse :=
  if negb (ok response) then
    match response_text response with
    | Throw e => Throw e
    | Return errorText =>
        Throw (Error (js "API error (" ++ integer_to_string (status response) ++ js "): "
                        ++ errorText))
    end
  else if declares (content_type response) (js "text/event-stream") then
    match handleSSEStream response with
    | Throw e => Throw e
    | Return result => Return (Stream result)
    end
  else if declares (content_type response) (js "application/json") then
    match response_json response with
    | Throw e => Throw e
    | Return data => Return (Json data)
    end
  else
    match response_text response with
    | Throw e => Throw e
    | Return data => Return (Text data)
    end.

(** [callTool(tool, args)] *)
Definition callTool (tool : json) (args : object) : M ToolResponse :=
  self <- get_this ;;
  request <- lift (callTool_request self tool args) ;;
  response <- fetch request ;;
  lift (callTool_result response).

(** The [tools/call] handler, for [request.params.name] and
    [request.params.arguments]; it returns the response that the handler
    wraps, as indented JSON text, in its [content]. *)
Definition tools_call (toolName : jsstring) (arguments : option object) : M ToolResponse :=
  let args := match arguments with Some a => a | None => [] end in
  self <- get_this ;;
  tools <- lift (get (manifest self) (js "tools")) ;;
  tool <- lift (find tools toolName) ;;
  match tool with
  | None => throw (Error (js "Tool '" ++ toolName ++ js "' not found"))
  | Some tool =>
      handler <- lift (get (Some tool) (js "handler")) ;;
      method <- lift (get handler (js "method")) ;;
      url <- lift (get handler (js "url")) ;;
      log [method; url] ;;;
      try_catch (callTool tool args) (fun error => throw error)
  end.

End Server.

(* ================================================================== *)
(** ** The tool list and the command line *)

(** What the [tools/list] handler returns for one tool; a field the tool
    does not have is [undefined]. *)
Record ToolDescriptor := {
  descriptor_name : option json;
  descriptor_description : option json;
  descriptor_inputSchema : option json
}.

(** How [main] leaves the process: [process.exit(code)], or a server that
    has started. *)
Inductive ending :=
| Exited (code : Z)
| Serving (st : state).

(** The text [printUsage] prints. *)
Definition usage : jsstring := js "
Usage: shov-mcp <domain> [options]

Arguments:
  domain              Your Shov project domain (e.g., myapp_acme.shov.dev)

Options:
  --api-key <key>     API key for authentication (or set SHOV_API_KEY env var)
  --help              Show this help message

Examples:
  shov-mcp myapp_acme.shov.dev --api-key pk_abc123
  shov-mcp api.yourdomain.com --api-key pk_abc123
  SHOV_API_KEY=pk_abc123 shov-mcp myapp_acme.shov.dev
".

(** [args.indexOf(x)]; [None] is [-1]. *)
Fixpoint indexOf (args : list jsstring) (x : jsstring) : option nat :=
  match args with
  | [] => None
  | a :: rest =>
      if str_eqb a x then Some O
      else match indexOf rest x with
           | Some i => Some (S i)
           | None => None
           end
  end.

(** [!s] for a string that may be [undefined]. *)
Definition missing (s : option jsstring) : bool :=
  match s with
  | None | Some [] => true
  | Some (_ :: _) => false
  end.

Section FrontEnd.
Context {platform : Platform}.
Variable network : Request -> outcome Response.

(** [tools.map(tool => ({ name: tool.name, description: tool.description,
    inputSchema: tool.inputSchema }))] on the items of an array. *)
Fixpoint describe (items : list json) : outcome (list ToolDescriptor) :=
  match items with
  | [] => Return []
  | tool :: rest =>
      match get (Some tool) (js "name"),
            get (Some tool) (js "description"),
            get (Some tool) (js "inputSchema") with
      | Return name, Return description, Return inputSchema =>
          match describe rest with
          | Throw e => Throw e
          | Return ds =>
              Return ({| descriptor_name := name;
                         descriptor_description := description;
                         descriptor_inputSchema := inputSchema |} :: ds)
          end
      | Throw e, _, _ | _, Throw e, _ | _, _, Throw e => Throw e
      end
  end.

(** The [tools/list] handler. *)
Definition tools_list : M (list ToolDescriptor) :=
  bind get_this (fun self =>
  bind (lift (get (manifest self) (js "tools"))) (fun tools =>
  lift (match tools with
        | Some (JArr items) => describe items
        | None | Some JNull => Throw (TypeError (fault_message (NullProperty (js "map"))))
        | Some _ => Throw (TypeError (fault_message (NotAFunction (js "map"))))
        end))).

(** [main()] of the command line, for the arguments after the script
    name and the value of [SHOV_API_KEY]: what it prints itself with
    [console.error], in order, and how it ends.  The server is started as
    far as [start] goes. *)
Definition main (args : list jsstring) (SHOV_API_KEY : option jsstring)
  : list jsstring * ending :=
  if existsb (fun a => str_eqb a (js "--help")) args
     || existsb (fun a => str_eqb a (js "-h")) args
  then ([usage], Exited 0)
  else
    let domain := nth_error args 0 in
    let apiKey :=
      match indexOf args (js "--api-key") with
      | Some apiKeyIndex => nth_error args (apiKeyIndex + 1)
      | None => SHOV_API_KEY
      end in
    match domain, apiKey with
    | Some (d :: domain'), Some (k :: apiKey') =>
        let warning :=
          if startsWith (k :: apiKey') (js "pk_") then []
          else [js "Warning: API key should start with " ++ [34] ++ js "pk_" ++ [34]
                  ++ js " (project key)"] in
        match start network {| this := constructor (d :: domain') (k :: apiKey'); sent := [] |} with
        | (Return _, st) => (warning, Serving st)
        | (Throw error, _) =>
            (warning ++ [[10] ++ js "Error: " ++ message error ++ [10]], Exited 1)
        end
    | Some (_ :: _), _ =>
        ([js "Error: API key is required (use --api-key or set SHOV_API_KEY env var)" ++ [10];
          usage], Exited 1)
    | _, _ => ([js "Error: Domain is required" ++ [10]; usage], Exited 1)
    end.

End FrontEnd.

(* ================================================================== *)
(** ** The text of a tool result *)

Section ToolResult.
Context {platform : Platform}.

(** The indentation unit of [JSON.stringify(value, null, 2)]. *)
Definition gap : jsstring := [32; 32].

(** [JSON.stringify(v, null, 2)], for a value that stands at the
    indentation [indent]. *)
Fixpoint JSON_stringify_indented (indent : jsstring) (v : json) : jsstring :=
  match v with
  | JNull => js "null"
  | JBool b => if b then js "true" else js "false"
  | JNum n => if NumberIsFinite n then NumberToString n else js "null"
  | JStr s => QuoteJSONString s
  | JArr items =>
      match items with
      | [] => js "[]"
      | _ :: _ =>
          [91; 10] ++ (indent ++ gap)
            ++ join ([44; 10] ++ indent ++ gap)
                    (map (JSON_stringify_indented (indent ++ gap)) items)
            ++ [10] ++ indent ++ [93]
      end
  | JObj props =>
      match props with
      | [] => js "{}"
      | _ :: _ =>
          [123; 10] ++ (indent ++ gap)
            ++ join ([44; 10] ++ indent ++ gap)
                    (map (fun kv => QuoteJSONString (fst kv) ++ [58; 32]
                                      ++ JSON_stringify_indented (indent ++ gap) (snd kv))
                         props)
            ++ [10] ++ indent ++ [125]
      end
  end.

(** A property that is left out when it has no value. *)
Definition optional (key : jsstring) (value : option json) : object :=
  match value with
  | Some v => [(key, v)]
  | None => []
  end.

(** What [callTool] returns, as the value it is. *)
Definition response_value (response : ToolResponse) : json :=
  match response with
  | Stream result =>
      JObj ([(js "type", JStr (result_type result))]
              ++ optional (js "content") (option_map JStr (result_content result))
              ++ optional (js "message") (option_map JStr (result_message result))
              ++ [(js "events", JArr (result_events result))]
              ++ optional (js "eventCount")
                   (option_map (fun n => JNum (integer_to_string (Z.of_nat n)))
                               (result_eventCount result)))
  | Json data => data
  | Text data => JStr data
  end.

(** What the [tools/call] handler returns for a response:
    [{ content: [{ type: 'text', text: JSON.stringify(response, null, 2) }] }]. *)
Definition tool_result (response : ToolResponse) : json :=
  JObj [(js "content",
         JArr [JObj [(js "type", JStr (js "text"));
                     (js "text", JStr (JSON_stringify_indented [] (response_value response)))]])].

End ToolResult.

(* ================================================================== *)
(** ** Notions used in the statements *)

(** [v.k] read as a value: the own property of an object, [undefined] on
    anything else. *)
Definition own (v : json) (k : jsstring) : option json :=
  match v with
  | JObj props => lookup k props
  | _ => None
  end.

(** A decoder state from which no sequence can end in a code point below
    64: nothing is pending, or the bits read so far are not all zero, or
    the next byte is bound to bring a non-zero bit and is not the last. *)
Definition pending_ok (st : utf8_state) : Prop :=
  bytes_needed st = 0
  \/ code_point st <> 0
  \/ (0x90 <= lower_boundary st /\ upper_boundary st <= 0xBF
      /\ bytes_seen st + 1 <> bytes_needed st).

(** The characters that [encodeURIComponent] writes: the unreserved ones
    and [%]. *)
Definition uri_safe (c : Z) : bool := uri_unreserved c || (c =? 37).

(** The characters the form-urlencoded serializer writes for a name or a
    value: letters, digits, [* - . _], [+] for a space, and [%]. *)
Definition form_safe (c : Z) : bool :=
  is_alnum c || existsb (Z.eqb c) [42; 45; 46; 95; 43; 37].







(** What the reading loop keeps true of its variables. *)
Definition stream_ok (s : stream) : Prop :=
  pending_ok (decoder (text_decoder s)) /\ ~ In 10 (buffer s).

(** What may follow a value inside a text: nothing, a comma, a closing
    bracket or brace, or a line feed. *)
Definition delimited (rest : jsstring) : Prop :=
  match rest with
  | [] => True
  | c :: _ => c = 44 \/ c = 93 \/ c = 125 \/ c = 10
  end.

Section PlainValues.
Context {platform : Platform}.

(** A number literal that the engine writes as it reads it: a finite
    number in the form [JSON.stringify] gives it. *)
Definition plain_number (n : jsstring) : Prop :=
  number_literal n = Some (n, []) /\ NumberIsFinite n = true /\ NumberToString n = n.

(** An object whose properties stand in property order, each key once:
    defining them in turn gives the object itself. *)
Definition in_order (props : object) : Prop :=
  fold_left (fun acc kv => obj_set (fst kv) (snd kv) acc) props [] = props.

(** The values [JSON.parse] returns, as far as [JSON.stringify] writes
    them back unchanged: strings of UTF-16 code units, plain numbers, and
    objects in property order, at every depth. *)
Inductive plain : json -> Prop :=
| plain_null : plain JNull
| plain_bool (b : bool) : plain (JBool b)
| plain_num (n : jsstring) : plain_number n -> plain (JNum n)
| plain_str (s : jsstring) : Forall (fun c => 0 <= c < 65536) s -> plain (JStr s)
| plain_arr (items : list json) : Forall plain items -> plain (JArr items)
| plain_obj (props : object) :
    in_order props ->
    Forall (fun kv => Forall (fun c => 0 <= c < 65536) (fst kv) /\ plain (snd kv)) props ->
    plain (JObj props).

(** With enough fuel, the text of [v] is read as [v], up to what follows
    it. *)
Definition reads (v : json) : Prop :=
  forall rest, delimited rest ->
  exists f0, forall f, (f0 <= f)%nat ->
    parse_value f (JSON_stringify v ++ rest) = Parsed v rest.

End PlainValues.

(** Keys in property order: no key comes before one that stands before
    it. *)
Fixpoint ordered (keys : list jsstring) : Prop :=
  match keys with
  | [] => True
  | k :: rest => Forall (fun k' => comes_before k' k = false) rest /\ ordered rest
  end.

(* ================================================================== *)
(** ** Data of the examples *)

Module Sample.

(** An engine to evaluate closed examples with: a number prints as it was
    written and is falsy when all its digits before the exponent are
    zeros, a length is read from the digits of an array index only, and
    the error messages are worded after V8's.  No statement below depends
    on these choices. *)
#[export] Instance engine : Platform := {|
  NumberToBoolean literal :=
    existsb (fun c => (49 <=? c) && (c <=? 57))
            (fst (fold_left (fun acc c => if snd acc || (c =? 101) || (c =? 69)
                                          then (fst acc, true) else (c :: fst acc, false))
                            literal ([], false)));
  NumberToString literal := literal;
  NumberIsFinite _ := true;
  NumberToLength literal := match array_index literal with Some n => n | None => 0 end;
  StringToLength s := match array_index s with Some n => n | None => 0 end;
  fault_message f :=
    match f with
    | NullProperty key => js "Cannot read properties of null (reading '" ++ key ++ js "')"
    | NotAFunction name => name ++ js " is not a function"
    | NotPrimitive => js "Cannot convert object to primitive value"
    | MalformedURI => js "URI malformed"
    | InvalidJSON _ => js "Unexpected token in JSON"
    | InvalidURL => js "Invalid URL"
    | NotIterable => js "The object must have a callable @@iterator property"
    | NotAPair => js "Sequence initializer must only contain pair elements"
    end
|}.

(** The bytes of an ASCII text in which each apostrophe stands for a
    double quote (the JSON texts below are written that way). *)
Definition bytes (s : string) : list Byte.byte :=
  map (fun b => if Byte.eqb b Byte.x27 then Byte.x22 else b) (list_byte_of_string s).

(** The same text as a string. *)
Definition text (s : string) : jsstring := map byte_value (bytes s).

Definition line (s : string) : list Byte.byte := bytes s ++ [Byte.x0a].

(** The three lines of the streaming scenario. *)
Definition hi_there : list Byte.byte :=
  line "data: {'type':'delta','content':'Hi'}" ++
  line "data: {'type':'delta','content':' there'}" ++
  line "data: [DONE]".

Definition delta (content : jsstring) : json :=
  JObj [(js "type", JStr (js "delta")); (js "content", JStr content)].

(** A response with the given status and body, read in one chunk. *)
Definition reply (status : Z) (contentType : option jsstring) (text : string) : Response :=
  {| ok := (200 <=? status) && (status <=? 299);
     status := status;
     statusText := [];
     content_type := contentType;
     body := Some [bytes text];
     body_error := None |}.

(** The manifest of the [get_user] scenario. *)
Definition demo_manifest : string :=
  "{'name':'demo','tools':[{'name':'get_user','inputSchema':{},'handler':{'method':'GET','url':'https://x/users/{id}'}}]}".

(** A remote side that serves [demo_manifest] and refuses every tool call
    with a 403. *)
Definition demo_network (r : Request) : outcome Response :=
  if str_eqb (request_url r) (js "https://x/mcp.json")
  then Return (reply 200 (Some (js "application/json")) demo_manifest)
  else Return (reply 403 (Some (js "text/plain")) "not allowed").

(** A remote side that serves [demo_manifest] and answers every tool call
    with a JSON body. *)
Definition json_network (r : Request) : outcome Response :=
  if str_eqb (request_url r) (js "https://x/mcp.json")
  then Return (reply 200 (Some (js "application/json")) demo_manifest)
  else Return (reply 200 (Some (js "application/json; charset=utf-8")) "{'id':42}").

(** A remote side that cannot be reached. *)
Definition offline_network (r : Request) : outcome Response :=
  Throw (TypeError (js "fetch failed")).

(** A remote side whose manifest lists no tool. *)
Definition empty_network (r : Request) : outcome Response :=
  Return (reply 200 (Some (js "application/json")) "{'name':'demo','tools':[]}").

Definition fresh : state :=
  {| this := constructor (js "x") (js "pk_demo"); sent := [] |}.

(** The server once [start] has fetched [demo_manifest]. *)
Definition started : state := snd (start demo_network fresh).

(** The request of [get_user] for the user [42]. *)
Definition get_user_42 : Request :=
  {| request_url := js "https://x/users/42";
     request_method := Some (JStr (js "GET"));
     request_headers :=
       [(js "Authorization", js "Bearer pk_demo");
        (js "Content-Type", js "application/json");
        (js "User-Agent", js "shov-mcp/1.0.0");
        (js "Accept", js "application/json, text/event-stream")];
     request_body := None |}.

(** A response whose body arrives in the given reads as an event stream. *)
Definition streamed (reads : list (list Byte.byte)) : Response :=
  {| ok := true; status := 200; statusText := js "OK";
     content_type := Some (js "text/event-stream");
     body := Some reads;
     body_error := None |}.

End Sample.

(* ================================================================== *)
(** ** Strings and lists *)

Lemma str_eqb_eq (a b : jsstring) : str_eqb a b = true <-> a = b.
Proof.
  revert b; induction a as [|c a IH]; intros [|d b]; simpl; split;
    try congruence; try reflexivity.
  - intros H. apply andb_true_iff in H as [H1 H2].
    apply Z.eqb_eq in H1. apply IH in H2. congruence.
  - intros H. injection H as -> ->. rewrite Z.eqb_refl. simpl. now apply IH.
Qed.

Lemma str_eqb_refl (a : jsstring) : str_eqb a a = true.
Proof. now apply str_eqb_eq. Qed.

Lemma str_eqb_neq (a b : jsstring) : str_eqb a b = false <-> a <> b.
Proof.
  destruct (str_eqb a b) eqn:E; split; try congruence.
  - apply str_eqb_eq in E. intros H. contradiction.
  - intros _ H. apply str_eqb_eq in H. congruence.
Qed.

Lemma decimal_digits_value (fuel : nat) :
  forall n acc, 0 <= n < 10 ^ Z.of_nat fuel ->
  fold_left (fun a c => a * 10 + (c - 48)) (decimal_digits fuel n acc) 0
  = fold_left (fun a c => a * 10 + (c - 48)) acc n.
Proof.
  induction fuel as [|f IH]; intros n acc Hn.
  - cbn in Hn. assert (n = 0) by lia. subst. reflexivity.
  - cbn [decimal_digits]. destruct (n <? 10) eqn:E.
    + apply Z.ltb_lt in E. cbn [fold_left]. f_equal.
      rewrite (Z.mod_small n 10) by lia. lia.
    + apply Z.ltb_ge in E. rewrite IH.
      * cbn [fold_left]. f_equal. pose proof (Z.div_mod n 10). lia.
      * rewrite Nat2Z.inj_succ, Z.pow_succ_r in Hn by lia.
        split; [apply Z.div_pos; lia|]. apply Z.div_lt_upper_bound; lia.
Qed.

(** The decimal text of a status code or a count denotes that number. *)
Lemma integer_to_string_value (n : Z) :
  0 <= n -> decimal_value (integer_to_string n) = n.
Proof.
  intros Hn. unfold integer_to_string, decimal_value.
  destruct (n <? 0) eqn:E; [apply Z.ltb_lt in E; lia|].
  rewrite decimal_digits_value; [reflexivity|].
  split; [exact Hn|]. rewrite Nat2Z.inj_succ, Z2Nat.id by apply Z.log2_nonneg.
  destruct (Z.eq_dec n 0) as [->|Hz]; [reflexivity|].
  apply Z.lt_le_trans with (2 ^ Z.succ (Z.log2 n)).
  - apply Z.log2_spec. lia.
  - apply Z.pow_le_mono_l. pose proof (Z.log2_nonneg n). lia.
Qed.

Lemma split_not_nil (sep : Z) (s : jsstring) : split sep s <> [].
Proof.
  destruct s as [|c s]; simpl; [discriminate|].
  destruct (split sep s); [discriminate|]. destruct (c =? sep); discriminate.
Qed.

Lemma removelast_cons2 {A} (a b : A) (r : list A) :
  removelast (a :: b :: r) = a :: removelast (b :: r).
Proof. reflexivity. Qed.

Lemma last_cons2 {A} (a b : A) (r : list A) (d : A) :
  last (a :: b :: r) d = last (b :: r) d.
Proof. reflexivity. Qed.

(** Splitting a text given in two pieces: the complete lines of the first
    piece, then the lines of its last fragment followed by the second. *)
Lemma split_app (sep : Z) (x y : jsstring) :
  split sep (x ++ y)
  = removelast (split sep x) ++ split sep (last (split sep x) [] ++ y).
Proof.
  induction x as [|c x IH]; [reflexivity|].
  cbn [app split]. rewrite IH.
  pose proof (split_not_nil sep x) as Hx.
  pose proof (split_not_nil sep (last (split sep x) [] ++ y)) as Hy.
  destruct (split sep x) as [|l [|m ls]]; [contradiction| |].
  - cbn [removelast last app] in *.
    destruct (split sep (l ++ y)) as [|l2 ls2] eqn:E; [contradiction|].
    destruct (c =? sep) eqn:Ec; cbn [removelast last app split];
      rewrite ?E, ?Ec; reflexivity.
  - destruct (c =? sep); repeat rewrite removelast_cons2;
      repeat rewrite last_cons2; reflexivity.
Qed.

Lemma last_cons_default {A} (x : A) (a : list A) (d : A) :
  last (x :: a) d = last a x.
Proof.
  revert x d; induction a as [|y a IH]; intros x d; [reflexivity|].
  rewrite last_cons2. now rewrite !IH.
Qed.

Lemma pop_not_nil {A} (a : list A) (d : A) :
  a <> [] -> pop a = (Some (last a d), removelast a).
Proof.
  destruct a as [|x a]; [contradiction|]. intros _. unfold pop.
  now rewrite last_cons_default.
Qed.

Lemma decode_stream_app (d : TextDecoder) (a b : list Byte.byte) :
  decode_stream d (a ++ b)
  = (fst (decode_stream (fst (decode_stream d a)) b),
     snd (decode_stream d a) ++ snd (decode_stream (fst (decode_stream d a)) b)).
Proof.
  revert d; induction a as [|x a IH]; intros d.
  - cbn [app decode_stream fst snd]. now destruct (decode_stream d b).
  - cbn [app decode_stream]. destruct (decode_byte d x) as [d1 out1].
    rewrite IH. destruct (decode_stream d1 a) as [d2 out2]. cbn [fst snd].
    destruct (decode_stream d2 b) as [d3 out3]. cbn [fst snd].
    now rewrite app_assoc.
Qed.

Lemma last_app_not_nil {A} (l l' : list A) (d : A) :
  l' <> [] -> last (l ++ l') d = last l' d.
Proof.
  intros H. induction l as [|x l IH]; [reflexivity|].
  cbn [app]. destruct (l ++ l') as [|y r] eqn:E.
  - apply app_eq_nil in E as [_ E]. contradiction.
  - rewrite last_cons2. exact IH.
Qed.

(* ================================================================== *)
(** ** JSON.parse reads every text *)

Section ParserTermination.
Context {platform : Platform}.
Open Scope nat_scope.

Lemma skip_ws_length (s : jsstring) : length (skip_ws s) <= length s.
Proof.
  induction s as [|c s IH]; cbn [skip_ws]; [reflexivity|].
  destruct (is_ws c); cbn [length]; lia.
Qed.

Lemma string_body_shorter (n : nat) :
  forall s b rest, length s <= n -> string_body s = Some (b, rest) -> length rest < length s.
Proof.
  induction n as [|n IH]; intros s b rest Hn H.
  - destruct s; [discriminate|cbn in Hn; lia].
  - destruct s as [|c t]; [discriminate|]. cbn [string_body] in H. cbn [length] in *.
    destruct (Z.eqb c 34); [injection H as <- <-; lia|].
    destruct (Z.eqb c 92).
    + destruct t as [|e t']; [discriminate|]. cbn [length] in *.
      destruct (Z.eqb e 117).
      * destruct t' as [|h1 [|h2 [|h3 [|h4 t'']]]]; try discriminate. cbn [length] in *.
        destruct (hex4 h1 h2 h3 h4); [|discriminate].
        destruct (string_body t'') as [[body r]|] eqn:E; [|discriminate].
        injection H as <- <-. apply IH in E; lia.
      * destruct (simple_escape e); [|discriminate].
        destruct (string_body t') as [[body r]|] eqn:E; [|discriminate].
        injection H as <- <-. apply IH in E; lia.
    + destruct (Z.ltb c 32); [discriminate|].
      destruct (string_body t) as [[body r]|] eqn:E; [|discriminate].
      injection H as <- <-. apply IH in E; lia.
Qed.

Lemma digits_length (s : jsstring) : length (snd (digits s)) <= length s.
Proof.
  induction s as [|c s IH]; cbn [digits]; [reflexivity|].
  destruct (is_digit c); [|reflexivity].
  destruct (digits s) as [ds r]. cbn [snd length] in *. lia.
Qed.

Lemma integer_part_shorter (s int rest : jsstring) :
  integer_part s = Some (int, rest) -> length rest < length s.
Proof.
  destruct s as [|d t]; [discriminate|]. cbn [integer_part length].
  destruct (negb (is_digit d)); [discriminate|].
  destruct (Z.eqb d 48); [intros H; injection H as <- <-; lia|].
  pose proof (digits_length t) as E. destruct (digits t) as [ds r].
  intros H; injection H as <- <-. cbn [snd] in E. lia.
Qed.

Lemma fraction_part_length (s frac rest : jsstring) :
  fraction_part s = Some (frac, rest) -> length rest <= length s.
Proof.
  destruct s as [|c t]; cbn [fraction_part length].
  - intros H; injection H as <- <-. reflexivity.
  - destruct (Z.eqb c 46).
    + pose proof (digits_length t) as E. destruct (digits t) as [[|d ds] r];
        [discriminate|]. intros H; injection H as <- <-. cbn [snd] in E. lia.
    + intros H; injection H as <- <-. reflexivity.
Qed.

Lemma exponent_part_length (s exp rest : jsstring) :
  exponent_part s = Some (exp, rest) -> length rest <= length s.
Proof.
  destruct s as [|c t]; cbn [exponent_part length].
  - intros H; injection H as <- <-. reflexivity.
  - destruct (_ || _).
    + destruct t as [|g t'].
      * cbn. discriminate.
      * destruct (_ || _).
        -- pose proof (digits_length t') as E. destruct (digits t') as [[|d ds] r];
             [discriminate|]. intros H; injection H as <- <-. cbn [snd length] in *. lia.
        -- pose proof (digits_length (g :: t')) as E.
           destruct (digits (g :: t')) as [[|d ds] r];
             [discriminate|]. intros H; injection H as <- <-. cbn [snd length] in *. lia.
    + intros H; injection H as <- <-. reflexivity.
Qed.

Lemma number_literal_shorter (s lit rest : jsstring) :
  number_literal s = Some (lit, rest) -> length rest < length s.
Proof.
  unfold number_literal.
  assert (Hs : length (snd (minus_sign s)) <= length s).
  { destruct s as [|c t]; [reflexivity|]. cbn [minus_sign].
    destruct (Z.eqb c 45); cbn [snd length]; lia. }
  destruct (minus_sign s) as [sign s1]. cbn [snd] in Hs.
  destruct (integer_part s1) as [[int s2]|] eqn:E1; [|discriminate].
  destruct (fraction_part s2) as [[frac s3]|] eqn:E2; [|discriminate].
  destruct (exponent_part s3) as [[exp s4]|] eqn:E3; [|discriminate].
  intros H; injection H as <- <-.
  apply integer_part_shorter in E1. apply fraction_part_length in E2.
  apply exponent_part_length in E3. lia.
Qed.

(** A value that is read takes at least one character. *)
Lemma parse_consumes (fuel : nat) :
  (forall s v rest, parse_value fuel s = Parsed v rest -> length rest < length s)
  /\ (forall s acc v rest, parse_elements fuel s acc = Parsed v rest -> length rest < length s)
  /\ (forall s acc v rest, parse_members fuel s acc = Parsed v rest -> length rest < length s).
Proof.
  induction fuel as [|f (IHv & IHe & IHm)]; [repeat split; intros; discriminate|].
  repeat split.
  - intros s v rest H. cbn [parse_value] in H.
    pose proof (skip_ws_length s) as Hs.
    destruct (skip_ws s) as [|c t]; [discriminate|]. cbn [length] in Hs.
    repeat match type of H with
    | (if ?b then _ else _) = _ => destruct b
    end.
    + pose proof (skip_ws_length t) as Ht.
      destruct (skip_ws t) as [|c' t'] eqn:Et; [discriminate|]. cbn [length] in Ht.
      destruct (Z.eqb c' 125); [injection H as <- <-; lia|].
      apply IHm in H. cbn [length] in H. lia.
    + pose proof (skip_ws_length t) as Ht.
      destruct (skip_ws t) as [|c' t'] eqn:Et; [discriminate|]. cbn [length] in Ht.
      destruct (Z.eqb c' 93); [injection H as <- <-; lia|].
      apply IHe in H. lia.
    + destruct (string_body t) as [[str r]|] eqn:E; [|discriminate].
      injection H as <- <-. apply (string_body_shorter _ _ _ _ (le_n _)) in E. lia.
    + injection H as <- <-. pose proof (length_skipn 4 (c :: t)) as L. cbn [length] in L.
      change (length (skipn 4 (c :: t)) < length s). lia.
    + injection H as <- <-. pose proof (length_skipn 5 (c :: t)) as L. cbn [length] in L.
      change (length (skipn 5 (c :: t)) < length s). lia.
    + injection H as <- <-. pose proof (length_skipn 4 (c :: t)) as L. cbn [length] in L.
      change (length (skipn 4 (c :: t)) < length s). lia.
    + destruct (number_literal (c :: t)) as [[lit r]|] eqn:E; [|discriminate].
      injection H as <- <-. apply number_literal_shorter in E. cbn [length] in E. lia.
  - intros s acc v rest H. cbn [parse_elements] in H.
    destruct (parse_value f s) as [v1 r1| |] eqn:E; try discriminate.
    apply IHv in E. pose proof (skip_ws_length r1) as Hr.
    destruct (skip_ws r1) as [|c t]; [discriminate|]. cbn [length] in Hr.
    destruct (Z.eqb c 44); [apply IHe in H; lia|].
    destruct (Z.eqb c 93); [|discriminate]. injection H as <- <-. lia.
  - intros s acc v rest H. cbn [parse_members] in H.
    destruct s as [|q t]; [discriminate|]. cbn [length].
    destruct (Z.eqb q 34); [|discriminate].
    destruct (string_body t) as [[key r]|] eqn:Ek; [|discriminate].
    apply (string_body_shorter _ _ _ _ (le_n _)) in Ek.
    pose proof (skip_ws_length r) as Hr.
    destruct (skip_ws r) as [|c t1]; [discriminate|]. cbn [length] in Hr.
    destruct (Z.eqb c 58); [|discriminate].
    destruct (parse_value f t1) as [v1 r1| |] eqn:E; try discriminate.
    apply IHv in E. pose proof (skip_ws_length r1) as Hr1.
    destruct (skip_ws r1) as [|c' t2]; [discriminate|]. cbn [length] in Hr1.
    destruct (Z.eqb c' 44).
    + apply IHm in H. pose proof (skip_ws_length t2). lia.
    + destruct (Z.eqb c' 125); [|discriminate]. injection H as <- <-. lia.
Qed.

(** With more fuel than twice the length of the text, the parser does not
    run out of it. *)
Lemma parse_fuel (fuel : nat) :
  (forall s, 2 * length s < fuel -> parse_value fuel s <> OutOfFuel)
  /\ (forall s acc, 2 * length s + 1 < fuel -> parse_elements fuel s acc <> OutOfFuel)
  /\ (forall s acc, 2 * length s + 1 < fuel -> parse_members fuel s acc <> OutOfFuel).
Proof.
  induction fuel as [|f (IHv & IHe & IHm)]; [repeat split; intros; lia|].
  repeat split.
  - intros s Hf. cbn [parse_value].
    pose proof (skip_ws_length s) as Hs.
    destruct (skip_ws s) as [|c t]; [discriminate|]. cbn [length] in Hs.
    repeat match goal with
    | |- (if ?b then _ else _) <> _ => destruct b
    end; try discriminate.
    + pose proof (skip_ws_length t) as Ht.
      destruct (skip_ws t) as [|c' t'] eqn:Et; [discriminate|]. cbn [length] in Ht.
      destruct (Z.eqb c' 125); [discriminate|]. apply IHm. cbn [length]. lia.
    + pose proof (skip_ws_length t) as Ht.
      destruct (skip_ws t) as [|c' t'] eqn:Et; [discriminate|].
      destruct (Z.eqb c' 93); [discriminate|]. apply IHe. lia.
    + destruct (string_body t) as [[str r]|]; discriminate.
    + destruct (number_literal (c :: t)) as [[lit r]|]; discriminate.
  - intros s acc Hf. cbn [parse_elements].
    pose proof (IHv s ltac:(lia)) as Hv.
    destruct (parse_value f s) as [v1 r1| |] eqn:E; try discriminate; [|contradiction].
    apply (proj1 (parse_consumes f)) in E. pose proof (skip_ws_length r1) as Hr.
    destruct (skip_ws r1) as [|c t]; [discriminate|]. cbn [length] in Hr.
    destruct (Z.eqb c 44); [apply IHe; lia|].
    destruct (Z.eqb c 93); discriminate.
  - intros s acc Hf. cbn [parse_members].
    destruct s as [|q t]; [discriminate|]. cbn [length] in Hf.
    destruct (Z.eqb q 34); [|discriminate].
    destruct (string_body t) as [[key r]|] eqn:Ek; [|discriminate].
    apply (string_body_shorter _ _ _ _ (le_n _)) in Ek.
    pose proof (skip_ws_length r) as Hr.
    destruct (skip_ws r) as [|c t1]; [discriminate|]. cbn [length] in Hr.
    destruct (Z.eqb c 58); [|discriminate].
    pose proof (IHv t1 ltac:(lia)) as Hv.
    destruct (parse_value f t1) as [v1 r1| |] eqn:E; try discriminate; [|contradiction].
    apply (proj1 (parse_consumes f)) in E. pose proof (skip_ws_length r1) as Hr1.
    destruct (skip_ws r1) as [|c' t2]; [discriminate|]. cbn [length] in Hr1.
    destruct (Z.eqb c' 44).
    + apply IHm. pose proof (skip_ws_length t2). lia.
    + destruct (Z.eqb c' 125); discriminate.
Qed.

(** [JSON.parse] gives its verdict on every text: a value, or a syntax
    error that the text itself has. *)
Lemma JSON_parse_total (text : jsstring) :
  parse_value (2 * length text + 2) text <> OutOfFuel.
Proof. apply parse_fuel. lia. Qed.

End ParserTermination.

(* ================================================================== *)
(** ** The stream normalizer *)

Section StreamNormalizer.
Context {platform : Platform}.

(** Two reads in a row do what one read of both chunks does. *)
Lemma sse_read_app (s : stream) (a b : list Byte.byte) :
  sse_read (sse_read s a) b = sse_read s (a ++ b).
Proof.
  unfold sse_read at 2 3. rewrite decode_stream_app.
  destruct (decode_stream (text_decoder s) a) as [d1 o1] eqn:Ea. cbn [fst snd].
  rewrite app_assoc, (split_app 10 (buffer s ++ o1)).
  rewrite (pop_not_nil (split 10 (buffer s ++ o1)) []) by apply split_not_nil.
  rewrite (pop_not_nil (removelast (split 10 (buffer s ++ o1)) ++ _) []).
  2:{ intros H. apply app_eq_nil in H as [_ H]. now apply split_not_nil in H. }
  rewrite removelast_app by apply split_not_nil.
  rewrite last_app_not_nil by apply split_not_nil.
  rewrite fold_left_app.
  destruct (fold_left sse_line (removelast (split 10 (buffer s ++ o1)))
              (events s, streamedText s)) as [evs1 txt1] eqn:E1.
  unfold sse_read. cbn [text_decoder buffer events streamedText].
  destruct (decode_stream d1 b) as [d2 o2]. cbn [fst snd].
  rewrite (pop_not_nil (split 10 (_ ++ o2)) []) by apply split_not_nil.
  reflexivity.
Qed.

(** Any sequence of reads amounts to one read of all the bytes. *)
Lemma reads_concat (reads : list (list Byte.byte)) :
  fold_left sse_read reads sse_start = sse_read sse_start (concat reads).
Proof.
  destruct reads as [|c reads]; [reflexivity|].
  cbn [fold_left]. generalize sse_start as s. revert c.
  induction reads as [|c' reads IH]; intros c s.
  - cbn [fold_left concat]. now rewrite app_nil_r.
  - cbn [fold_left]. rewrite IH, sse_read_app. reflexivity.
Qed.

(** C2. Feeding the byte stream to the stream normalizer in one single
    read or split in any way across several reads (in the middle of a
    line, of a token or of a UTF-8 sequence) leaves the same events, the
    same accumulated text, and so the same result. *)
Theorem C2_chunking_is_irrelevant (reads : list (list Byte.byte)) :
  let in_parts := fold_left sse_read reads sse_start in
  let at_once := sse_read sse_start (concat reads) in
  events in_parts = events at_once
  /\ streamedText in_parts = streamedText at_once
  /\ sse_result in_parts = sse_result at_once
  /\ forall r r' : Response,
       body r = Some reads -> body r' = Some [concat reads] ->
       body_error r = body_error r' ->
       handleSSEStream r = handleSSEStream r'.
Proof.
  cbv zeta. rewrite reads_concat. repeat split.
  intros r r' Hr Hr' He. unfold handleSSEStream.
  rewrite Hr, Hr', He, reads_concat. reflexivity.
Qed.

(** A line carrying the [[DONE]] marker leaves events and text as they are. *)
Lemma sse_line_done (acc : list json * jsstring) :
  sse_line acc (js "data: [DONE]") = acc.
Proof. destruct acc. reflexivity. Qed.

(** C1. The stream made of the lines
    [data: {"type":"delta","content":"Hi"}],
    [data: {"type":"delta","content":" there"}] and [data: [DONE]],
    however it is cut into reads, gives a result of type ['stream'] whose
    text is ["Hi there"] and whose [eventCount] is 2: the two deltas are
    the events, and the [[DONE]] line records none. *)
Theorem C1_hi_there (response : Response) (reads : list (list Byte.byte)) :
  body response = Some reads ->
  concat reads = Sample.hi_there ->
  body_error response = None ->
  handleSSEStream response
  = Return {| result_type := js "stream";
              result_content := Some (js "Hi there");
              result_message := None;
              result_events := [Sample.delta (js "Hi"); Sample.delta (js " there")];
              result_eventCount := Some 2%nat |}
  /\ forall acc, sse_line acc (js "data: [DONE]") = acc.
Proof.
  intros Hreads Hbody Herr. split; [|apply sse_line_done].
  unfold handleSSEStream. rewrite Hreads, Herr, reads_concat, Hbody.
  vm_compute. reflexivity.
Qed.

End StreamNormalizer.

Section StreamEvents.
Context {platform : Platform}.

Lemma done_is_not_json (data : jsstring) (v : json) :
  JSON_parse data = Return v -> str_eqb data (js "[DONE]") = false.
Proof.
  intros H. destruct (str_eqb data (js "[DONE]")) eqn:E; [|reflexivity].
  apply str_eqb_eq in E. subst data. vm_compute in H. discriminate.
Qed.

Lemma is_string_eq (v : option json) (s : jsstring) :
  is_string v s = true <-> v = Some (JStr s).
Proof.
  destruct v as [[| | | s' | |]|]; simpl; split; try congruence.
  - intros H. apply str_eqb_eq in H. congruence.
  - intros H. injection H as ->. apply str_eqb_refl.
Qed.



End StreamEvents.

(* ================================================================== *)
(** ** Objects *)

Lemma lookup_none (k : jsstring) (o : object) :
  lookup k o = None <-> ~ In k (Object_keys o).
Proof.
  induction o as [|[k' v] o IH]; simpl; [tauto|].
  destruct (str_eqb k' k) eqn:E.
  - apply str_eqb_eq in E. split; [discriminate|]. intros H. exfalso. apply H. now left.
  - apply str_eqb_neq in E. rewrite IH. tauto.
Qed.

Lemma has_own_false (k : jsstring) (o : object) :
  has_own k o = false <-> ~ In k (Object_keys o).
Proof.
  unfold has_own. rewrite <- lookup_none. destruct (lookup k o); split; congruence.
Qed.


Lemma obj_insert_perm (k : jsstring) (v : json) (o : object) :
  Permutation (obj_insert k v o) ((k, v) :: o).
Proof.
  induction o as [|[k' v'] o IH]; simpl; [reflexivity|].
  destruct (comes_before k k'); [reflexivity|].
  rewrite IH. apply perm_swap.
Qed.

Lemma obj_update_keys (k : jsstring) (v : json) (o : object) :
  Object_keys (obj_update k v o) = Object_keys o.
Proof.
  induction o as [|[k' v'] o IH]; simpl; [reflexivity|].
  destruct (str_eqb k' k); simpl; [reflexivity|]. now rewrite IH.
Qed.

(** Setting a property the object does not have adds it. *)
Lemma obj_set_fresh (k : jsstring) (v : json) (o : object) :
  ~ In k (Object_keys o) -> Permutation (obj_set k v o) ((k, v) :: o).
Proof.
  intros H. unfold obj_set. apply has_own_false in H. rewrite H. apply obj_insert_perm.
Qed.


(* ================================================================== *)
(** ** Occurrences and percent-encoding *)

Lemma startsWith_app (s p : jsstring) :
  startsWith s p = true <-> exists t, s = p ++ t.
Proof.
  revert s; induction p as [|c p IH]; intros s; cbn [startsWith app].
  - split; eauto.
  - destruct s as [|d s].
    + split; [discriminate|]. intros [t H]. discriminate.
    + rewrite andb_true_iff, Z.eqb_eq, IH. split.
      * intros [-> [t ->]]. eauto.
      * intros [t H]. injection H as -> ->. eauto.
Qed.

Lemma includes_length (s p : jsstring) :
  includes s p = true -> (List.length p <= List.length s)%nat.
Proof.
  induction s as [|c s IH]; cbn [includes]; rewrite orb_true_iff.
  - intros [H | H]; [|discriminate]. apply startsWith_app in H as [t H].
    destruct p; [cbn; lia|discriminate].
  - intros [H | H].
    + apply startsWith_app in H as [t ->]. rewrite length_app. lia.
    + apply IH in H. cbn [List.length]. lia.
Qed.

(** [split_at_first] finds the first occurrence. *)
Lemma split_at_first_spec (s p before after : jsstring) :
  split_at_first s p = Some (before, after) ->
  s = before ++ p ++ after
  /\ (p <> [] -> includes (before ++ removelast p) p = false).
Proof.
  revert before after; induction s as [|c s IH]; intros before after; cbn [split_at_first].
  - destruct (startsWith [] p) eqn:E; [|discriminate].
    intros H; injection H as <- <-. apply startsWith_app in E as [t E].
    destruct p; [|discriminate]. split; [reflexivity|]. intros H; contradiction.
  - destruct (startsWith (c :: s) p) eqn:E.
    + intros H; injection H as <- <-. apply startsWith_app in E as [t E].
      split.
      * rewrite E at 1. cbn [app]. f_equal. rewrite E, skipn_app, skipn_all, Nat.sub_diag.
        reflexivity.
      * intros Hp. cbn [app]. destruct (includes (removelast p) p) eqn:Ei; [|reflexivity].
        apply includes_length in Ei.
        rewrite (app_removelast_last 0 Hp) in Ei at 1. rewrite length_app in Ei.
        cbn in Ei. lia.
    + destruct (split_at_first s p) as [[b a]|] eqn:Es; [|discriminate].
      intros H; injection H as <- <-. destruct (IH b a eq_refl) as [Hs Hfirst].
      split; [cbn [app]; now f_equal|].
      intros Hp. cbn [app includes]. rewrite (Hfirst Hp), orb_false_r.
      destruct (startsWith (c :: b ++ removelast p) p) eqn:E'; [|reflexivity].
      apply startsWith_app in E' as [t E'].
      assert (startsWith (c :: s) p = true); [|congruence].
      apply startsWith_app. exists (t ++ [last p 0] ++ a).
      rewrite Hs.
      transitivity ((c :: b ++ removelast p) ++ [last p 0] ++ a).
      * rewrite (app_removelast_last 0 Hp) at 1. cbn [app]. now rewrite <- !app_assoc.
      * rewrite E'. now rewrite <- app_assoc.
Qed.

Lemma includes_split_at_first (s p : jsstring) :
  includes s p = true -> exists before after, split_at_first s p = Some (before, after).
Proof.
  induction s as [|c s IH]; cbn [includes split_at_first]; rewrite orb_true_iff.
  - intros [H | H]; [|discriminate]. rewrite H. eauto.
  - intros [H | H]; [rewrite H; eauto|].
    destruct (startsWith (c :: s) p); [eauto|].
    destruct (IH H) as (b & a & ->). eauto.
Qed.

(** A replacement text without [$] is inserted as it is. *)
Lemma GetSubstitution_plain (matched before after template : jsstring) :
  ~ In 36 template -> GetSubstitution matched before after template = template.
Proof.
  induction template as [|c t IH]; intros H; [reflexivity|].
  cbn [GetSubstitution]. destruct (c =? 36) eqn:E.
  - apply Z.eqb_eq in E. exfalso. apply H. now left.
  - f_equal. apply IH. intros H'. apply H. now right.
Qed.

(* ------------------------------------------------------------------ *)
(** *** What a percent-encoded value is made of *)

Lemma lor_byte (a b : Z) : 0 <= a < 256 -> 0 <= b < 256 -> 0 <= Z.lor a b < 256.
Proof.
  intros Ha Hb. assert (H0 : 0 <= Z.lor a b) by (apply Z.lor_nonneg; lia).
  split; [exact H0|].
  destruct (Z.eq_dec (Z.lor a b) 0) as [->|Hnz]; [lia|].
  change 256 with (2 ^ 8). apply Z.log2_lt_pow2; [lia|].
  rewrite Z.log2_lor by lia.
  assert (Hlog : forall x, 0 <= x < 256 -> Z.log2 x < 8).
  { intros x Hx. destruct (Z.eq_dec x 0) as [->|Hx0]; [reflexivity|].
    apply Z.log2_lt_pow2; [lia|]. change (2 ^ 8) with 256. lia. }
  apply Z.max_lub_lt; apply Hlog; assumption.
Qed.

Lemma shiftr_bound (x n k : Z) : 0 <= n -> 0 <= x < 2 ^ n * k -> 0 <= Z.shiftr x n < k.
Proof.
  intros Hn Hx. rewrite Z.shiftr_div_pow2 by exact Hn.
  pose proof (Z.pow_pos_nonneg 2 n ltac:(lia) Hn).
  split; [apply Z.div_pos; lia|apply Z.div_lt_upper_bound; lia].
Qed.

Lemma land_bound (x n : Z) : 0 <= n -> 0 <= Z.land x (Z.ones n) < 2 ^ n.
Proof.
  intros Hn. rewrite Z.land_ones by exact Hn. apply Z.mod_pos_bound.
  now apply Z.pow_pos_nonneg.
Qed.

Lemma utf8_octets_range (cp : Z) :
  0 <= cp < 0x110000 -> Forall (fun o => 0 <= o < 256) (utf8_octets cp).
Proof.
  intros Hcp. unfold utf8_octets.
  pose proof (land_bound cp 6 ltac:(lia)) as L0.
  pose proof (land_bound (Z.shiftr cp 6) 6 ltac:(lia)) as L6.
  pose proof (land_bound (Z.shiftr cp 12) 6 ltac:(lia)) as L12.
  change (Z.ones 6) with 0x3F in *. change (2 ^ 6) with 64 in *.
  assert (S6 : cp < 0x800 -> 0 <= Z.shiftr cp 6 < 32)
    by (intros; apply shiftr_bound; [lia|change (2 ^ 6) with 64; lia]).
  assert (S12 : cp < 0x10000 -> 0 <= Z.shiftr cp 12 < 16)
    by (intros; apply shiftr_bound; [lia|change (2 ^ 12) with 4096; lia]).
  assert (S18 : 0 <= Z.shiftr cp 18 < 5)
    by (apply shiftr_bound; [lia|change (2 ^ 18) with 262144; lia]).
  repeat match goal with
  | |- context [if ?c then _ else _] =>
      let E := fresh "E" in destruct c eqn:E;
      [apply Z.ltb_lt in E | apply Z.ltb_ge in E]
  end; repeat constructor; try lia; apply lor_byte; lia.
Qed.

Lemma hex_digit_safe (d : Z) : 0 <= d < 16 -> uri_safe (hex_digit true d) = true.
Proof.
  intros H.
  assert (Hd : d = 0 \/ d = 1 \/ d = 2 \/ d = 3 \/ d = 4 \/ d = 5 \/ d = 6 \/ d = 7 \/ d = 8
               \/ d = 9 \/ d = 10 \/ d = 11 \/ d = 12 \/ d = 13 \/ d = 14 \/ d = 15) by lia.
  repeat destruct Hd as [-> | Hd]; try reflexivity. subst; reflexivity.
Qed.

Lemma percent_octets_safe (octets : list Z) :
  Forall (fun o => 0 <= o < 256) octets ->
  Forall (fun c => uri_safe c = true) (percent_octets octets).
Proof.
  induction 1 as [|o octets Ho _ IH]; [constructor|].
  cbn [percent_octets flat_map app]. constructor; [reflexivity|].
  constructor; [apply hex_digit_safe, (shiftr_bound o 4 16); lia|].
  constructor; [|exact IH].
  apply hex_digit_safe. change 15 with (Z.ones 4). apply (land_bound o 4). lia.
Qed.

Lemma surrogate_pair_range (hi lo : Z) :
  is_lead_surrogate hi = true -> is_trail_surrogate lo = true ->
  0 <= surrogate_pair hi lo < 0x110000.
Proof.
  unfold is_lead_surrogate, is_trail_surrogate, surrogate_pair.
  rewrite !andb_true_iff, !Z.leb_le. intros [? ?] [? ?].
  rewrite Z.shiftl_mul_pow2 by lia. change (2 ^ 10) with 1024. lia.
Qed.

(** The encoding of a string holds unreserved characters and [%] only. *)
Lemma Encode_safe (n : nat) :
  forall s r, (List.length s <= n)%nat ->
  Forall (fun c => 0 <= c < 65536) s ->
  Encode s = Some r -> Forall (fun c => uri_safe c = true) r.
Proof.
  induction n as [|n IH]; intros s r Hn Hs H.
  - destruct s; [|cbn in Hn; lia]. injection H as <-. constructor.
  - destruct s as [|c t]; [injection H as <-; constructor|].
    cbn [List.length] in Hn. inversion Hs as [|? ? Hc Ht]; subst.
    cbn [Encode] in H. destruct (uri_unreserved c) eqn:Eu.
    + destruct (Encode t) as [r'|] eqn:Et; [|discriminate]. injection H as <-.
      constructor; [unfold uri_safe; now rewrite Eu|].
      apply (IH t); [lia|exact Ht|exact Et].
    + destruct (is_trail_surrogate c); [discriminate|].
      destruct (is_lead_surrogate c) eqn:El.
      * destruct t as [|d t']; [discriminate|].
        destruct (is_trail_surrogate d) eqn:Ed; [|discriminate].
        destruct (Encode t') as [r'|] eqn:Et; [|discriminate]. injection H as <-.
        inversion Ht; subst. cbn [List.length] in Hn.
        apply Forall_app. split.
        -- apply percent_octets_safe, utf8_octets_range. now apply surrogate_pair_range.
        -- apply (IH t'); [lia|assumption|exact Et].
      * destruct (Encode t) as [r'|] eqn:Et; [|discriminate]. injection H as <-.
        apply Forall_app. split.
        -- apply percent_octets_safe, utf8_octets_range. lia.
        -- apply (IH t); [lia|exact Ht|exact Et].
Qed.

Lemma uri_safe_no_dollar (r : jsstring) :
  Forall (fun c => uri_safe c = true) r -> ~ In 36 r.
Proof.
  intros H Hin. rewrite Forall_forall in H. specialize (H 36 Hin). discriminate.
Qed.

(* ================================================================== *)
(** ** Placeholders *)















(* ================================================================== *)
(** ** Assignments *)

(** An assignment runs the setter of [__proto__], or defines the own
    property. *)
Lemma assign_cases (k : jsstring) (v : json) (own : object) (proto : prototype) :
  (k = js "__proto__" /\ ~ In k (Object_keys own)
   /\ assign k v (own, proto) = (own, set_prototype v proto))
  \/ assign k v (own, proto) = (obj_set k v own, proto).
Proof.
  unfold assign. destruct (has_own k own) eqn:Eown; cbn [negb andb]; [now right|].
  destruct (str_eqb k (js "__proto__")) eqn:Ek; cbn [andb]; [|now right].
  destruct (reaches_setter proto); [left|now right].
  apply str_eqb_eq in Ek. apply has_own_false in Eown. now repeat split.
Qed.

Lemma assign_other (k : jsstring) (v : json) (own : object) (proto : prototype) :
  k <> js "__proto__" -> assign k v (own, proto) = (obj_set k v own, proto).
Proof. intros Hk. destruct (assign_cases k v own proto) as [(E & _) | E]; congruence. Qed.


(* ================================================================== *)
(** ** The argument router *)

Section ArgumentRouter.
Context {platform : Platform}.

(** The three ways a turn of the loop can go. *)
Lemma separate_cases (method : option json) (p p' : parameters) (key : jsstring) (value : json) :
  separate method p (key, value) = Return p' ->
  (includes (requestUrl p) (placeholder key) = true
   /\ (exists encoded, encodeURIComponent value = Return encoded
         /\ requestUrl p' = replace (requestUrl p) (placeholder key) encoded)
   /\ (pathParams p', pathProto p') = assign key value (pathParams p, pathProto p)
   /\ queryParams p' = queryParams p /\ bodyParams p' = bodyParams p
   /\ queryProto p' = queryProto p /\ bodyProto p' = bodyProto p)
  \/ (includes (requestUrl p) (placeholder key) = false
      /\ is_string method (js "GET") || is_string method (js "DELETE") = true
      /\ requestUrl p' = requestUrl p /\ pathParams p' = pathParams p
      /\ (queryParams p', queryProto p') = assign key value (queryParams p, queryProto p)
      /\ bodyParams p' = bodyParams p
      /\ pathProto p' = pathProto p /\ bodyProto p' = bodyProto p)
  \/ (includes (requestUrl p) (placeholder key) = false
      /\ is_string method (js "GET") || is_string method (js "DELETE") = false
      /\ requestUrl p' = requestUrl p /\ pathParams p' = pathParams p
      /\ queryParams p' = queryParams p
      /\ (bodyParams p', bodyProto p') = assign key value (bodyParams p, bodyProto p)
      /\ pathProto p' = pathProto p /\ queryProto p' = queryProto p).
Proof.
  unfold separate.
  destruct (includes (requestUrl p) (placeholder key)).
  - destruct (assign key value (pathParams p, pathProto p)) as [own proto].
    destruct (encodeURIComponent value) as [encoded|]; [|discriminate].
    intros H. injection H as <-. left. cbn. eauto 12.
  - destruct (is_string method (js "GET") || is_string method (js "DELETE")).
    + destruct (assign key value (queryParams p, queryProto p)) as [own proto].
      intros H; injection H as <-. right; left. cbn. auto 12.
    + destruct (assign key value (bodyParams p, bodyProto p)) as [own proto].
      intros H; injection H as <-. right; right. cbn. auto 12.
Qed.

(** A turn of the loop files a new key in one object, or runs the setter
    of [__proto__] and files it nowhere. *)
Lemma separate_fresh (method : option json) (p p' : parameters) (key : jsstring) (value : json) :
  separate method p (key, value) = Return p' ->
  ~ In key (Object_keys (classified p)) ->
  Permutation (classified p') ((key, value) :: classified p)
  \/ (key = js "__proto__" /\ classified p' = classified p).
Proof.
  intros H Hfresh. unfold classified, Object_keys in *.
  rewrite !map_app, !in_app_iff in Hfresh.
  apply separate_cases in H
    as [(_ & _ & E & -> & -> & _) | [(_ & _ & _ & -> & E & -> & _)
                                   | (_ & _ & _ & -> & -> & E & _)]].
  - destruct (assign_cases key value (pathParams p) (pathProto p)) as [(Ek & _ & E') | E'];
      rewrite E' in E; injection E as -> _; [now right|left].
    rewrite obj_set_fresh by (unfold Object_keys; tauto). reflexivity.
  - destruct (assign_cases key value (queryParams p) (queryProto p)) as [(Ek & _ & E') | E'];
      rewrite E' in E; injection E as -> _; [now right|left].
    rewrite obj_set_fresh by (unfold Object_keys; tauto). cbn [app]. symmetry. apply Permutation_middle.
  - destruct (assign_cases key value (bodyParams p) (bodyProto p)) as [(Ek & _ & E') | E'];
      rewrite E' in E; injection E as -> _; [now right|left].
    rewrite obj_set_fresh by (unfold Object_keys; tauto). cbn [app].
    rewrite app_assoc. rewrite <- Permutation_middle. now rewrite <- app_assoc.
Qed.





(** The loop hands each entry to one of the three objects, [__proto__]
    apart, and no key to two. *)
Lemma separate_all_perm (method : option json) (entries : object) :
  forall p p', separate_all method p entries = Return p' ->
  NoDup (Object_keys (classified p) ++ Object_keys entries) ->
  NoDup (Object_keys (classified p'))
  /\ (~ In (js "__proto__") (Object_keys entries) ->
      Permutation (classified p') (classified p ++ entries)).
Proof.
  induction entries as [|[key value] rest IH]; intros p p' H Hnd; cbn [separate_all] in H.
  - injection H as <-. rewrite !app_nil_r in *. now split.
  - destruct (separate method p (key, value)) as [p1|] eqn:E; [|discriminate].
    cbn [Object_keys map fst] in Hnd.
    assert (Hfresh : ~ In key (Object_keys (classified p))).
    { apply NoDup_remove_2 in Hnd. rewrite in_app_iff in Hnd. tauto. }
    destruct (separate_fresh _ _ _ _ _ E Hfresh) as [Hp1 | [Hk Hp1]].
    + destruct (IH p1 p' H) as [Hnd' Hperm].
      { eapply Permutation_NoDup; [|exact Hnd].
        unfold Object_keys at 1. rewrite (Permutation_map fst Hp1). cbn [map fst].
        symmetry. apply Permutation_middle. }
      split; [exact Hnd'|]. intros Hno.
      rewrite Hperm by (intros Hr; apply Hno; right; exact Hr).
      rewrite Hp1. cbn [app]. apply Permutation_middle.
    + destruct (IH p1 p' H) as [Hnd' _].
      { rewrite Hp1. now apply NoDup_remove_1 in Hnd. }
      split; [exact Hnd'|]. intros Hno. exfalso. apply Hno. now left.
Qed.







End ArgumentRouter.




Section Classification.
Context {platform : Platform}.

Lemma classify_nodup (url : jsstring) (method : option json) (args : object) (p : parameters) :
  NoDup (Object_keys args) ->
  classify url method args = Return p ->
  NoDup (Object_keys (pathParams p) ++ Object_keys (queryParams p)
         ++ Object_keys (bodyParams p))
  /\ (~ In (js "__proto__") (Object_keys args) -> Permutation (classified p) args).
Proof.
  intros Hnd H. unfold classify in H.
  apply separate_all_perm in H as [Hnd' Hperm]; [|exact Hnd].
  unfold classified, Object_keys in Hnd'. rewrite !map_app in Hnd'.
  split; [exact Hnd'|exact Hperm].
Qed.




(** C4 (the code at the failing input). A placeholder that occurs twice in
    the template is substituted once: [replace] with a string pattern
    rewrites the first occurrence only, and the resolved URL still has
    [{id}] in it. *)
Theorem C4_repeated_placeholder_survives :
  classify (js "https://x/{id}/copy/{id}") (Some (JStr (js "GET")))
           [(js "id", JStr (js "42"))]
  = Return {| requestUrl := js "https://x/42/copy/{id}";
              pathParams := [(js "id", JStr (js "42"))];
              queryParams := [];
              bodyParams := [];
              pathProto := ObjectPrototype;
              queryProto := ObjectPrototype;
              bodyProto := ObjectPrototype |}
  /\ includes (js "https://x/{id}/copy/{id}") (placeholder (js "id")) = true
  /\ includes (js "https://x/42/copy/{id}") (placeholder (js "id")) = true.
Proof. repeat split. Qed.


End Classification.

(* ================================================================== *)
(** ** The server *)

Ltac unfold_method :=
  unfold bind, lift, get_this, throw, ret, try_catch, fetch, set_manifest in *.

Ltac break_in H :=
  match type of H with
  | context [match ?x with _ => _ end] => destruct x eqn:?
  end.

Section Invocation.
Context {platform : Platform}.
Variable network : Request -> outcome Response.

(** [callTool] issues one request when one can be built, none otherwise. *)
Lemma callTool_run (tool : json) (args : object) (st : state) :
  callTool network tool args st
  = match callTool_request (this st) tool args with
    | Throw e => (Throw e, st)
    | Return request =>
        (match network request with
         | Throw e => Throw e
         | Return response => callTool_result response
         end,
         {| this := this st; sent := sent st ++ [request] |})
    end.
Proof.
  unfold callTool. unfold_method.
  destruct (callTool_request (this st) tool args) as [request|e]; [|reflexivity].
  destruct (network request); reflexivity.
Qed.

Lemma try_catch_rethrow {A} (m : M A) (st : state) :
  try_catch m (fun error => throw error) st = m st.
Proof. unfold try_catch, throw. now destruct (m st) as [[a|e] st']. Qed.

(** An invocation leaves the server object alone, and either issues no
    request, or issues the one request of [callTool] and ends as
    [callTool] makes of its reply. *)
Lemma tools_call_run (toolName : jsstring) (arguments : option object)
  (st st' : state) (o : outcome ToolResponse) :
  tools_call network toolName arguments st = (o, st') ->
  st' = st
  \/ exists request,
       st' = {| this := this st; sent := sent st ++ [request] |}
       /\ o = match network request with
              | Throw e => Throw e
              | Return response => callTool_result response
              end.
Proof.
  intros H. unfold tools_call, log, bind, lift, get_this in H.
  repeat (break_in H; cbn beta iota in H;
          try (unfold throw in H; injection H as <- <-; now left)).
  all: rewrite try_catch_rethrow, callTool_run in H.
  all: break_in H; injection H as <- <-; [right|now left].
  all: eexists; split; reflexivity.
Qed.

Lemma find_tool_absent (items : list json) (toolName : jsstring) :
  Forall (fun t => t <> JNull /\ get (Some t) (js "name") <> Return (Some (JStr toolName)))
         items ->
  find_tool items toolName = Return None.
Proof.
  induction 1 as [|t items [Hnull Hname] _ IH]; [reflexivity|].
  cbn [find_tool]. destruct (get (Some t) (js "name")) as [name|e] eqn:E.
  - destruct (is_string name toolName) eqn:En; [|exact IH].
    apply is_string_eq in En. congruence.
  - destruct t; cbn in E; congruence.
Qed.

(** C6. When the request of a tool call comes back with a non-success
    status (and a body that can be read), the invocation fails with an
    error whose message is ["API error (<status>): <body>"]: the status
    code in decimal and the text of the response body as it was received. *)
Theorem C6_remote_error_is_reported
  (toolName : jsstring) (arguments : option object) (st st' : state)
  (o : outcome ToolResponse) (request : Request) (response : Response) :
  tools_call network toolName arguments st = (o, st') ->
  sent st' = sent st ++ [request] ->
  network request = Return response ->
  ok response = false ->
  body_error response = None ->
  o = Throw (Error (js "API error (" ++ integer_to_string (status response) ++ js "): "
                      ++ utf8_decode (concat (chunks response)))).
Proof.
  intros Hrun Hsent Hnet Hok Hbody.
  destruct (tools_call_run _ _ _ _ _ Hrun) as [-> | (request' & -> & ->)].
  - exfalso. apply (f_equal (@List.length _)) in Hsent.
    rewrite length_app in Hsent. cbn in Hsent. lia.
  - cbn [sent] in Hsent. apply app_inv_head in Hsent. injection Hsent as ->.
    rewrite Hnet. unfold callTool_result, response_text. now rewrite Hok, Hbody.
Qed.

(** C7. When no tool of the manifest has the name asked for (names are
    compared for equality), the invocation fails with the error
    [Tool '<name>' not found], and it leaves the state as it found it: the
    cached manifest is the same, and nothing was sent. *)
Theorem C7_unknown_tool
  (toolName : jsstring) (arguments : option object) (st : state)
  (props : object) (items : list json) :
  manifest (this st) = Some (JObj props) ->
  lookup (js "tools") props = Some (JArr items) ->
  Forall (fun t => t <> JNull /\ get (Some t) (js "name") <> Return (Some (JStr toolName)))
         items ->
  tools_call network toolName arguments st
  = (Throw (Error (js "Tool '" ++ toolName ++ js "' not found")), st).
Proof.
  intros Hm Ht Hitems. unfold tools_call. unfold_method.
  rewrite Hm. cbn [get]. rewrite Ht. cbn [find].
  rewrite (find_tool_absent _ _ Hitems). reflexivity.
Qed.

End Invocation.

Section Startup.
Context {platform : Platform}.
Variable network : Request -> outcome Response.

(** C8 (as amended). [fetchManifest] asks for [<baseUrl>/mcp.json] and
    fails with ["Could not connect to <baseUrl>/mcp.json - <cause>"],
    caching nothing, when the endpoint cannot be reached, when it answers
    with a non-success status, and when the body is not valid JSON.
    Otherwise it returns the parsed manifest and caches it, whatever the
    manifest holds, also one without tools.  It is [start] that then fails
    with ["No tools found in MCP manifest"] when the manifest is null, has
    no tools, or has an empty sequence of tools; the manifest it rejects
    stays cached.  With tools in the manifest (and a name and a tool count
    that can be logged) [start] goes on. *)
Theorem C8_fetch_then_check (st : state) :
  let request := {| request_url := baseUrl (this st) ++ js "/mcp.json";
                    request_method := None;
                    request_headers := [];
                    request_body := None |} in
  let asked := {| this := this st; sent := sent st ++ [request] |} in
  let cached m := {| this := {| domain := domain (this st); apiKey := apiKey (this st);
                                baseUrl := baseUrl (this st); manifest := Some m |};
                     sent := sent st ++ [request] |} in
  let unavailable cause :=
    Error (js "Could not connect to " ++ baseUrl (this st) ++ js "/mcp.json - " ++ cause) in
  (forall e, network request = Throw e ->
     fetchManifest network st = (Throw (unavailable (message e)), asked)
     /\ start network st = (Throw (unavailable (message e)), asked))
  /\ (forall r, network request = Return r -> ok r = false ->
        let cause := js "Failed to fetch manifest: " ++ integer_to_string (status r)
                       ++ js " " ++ statusText r in
        fetchManifest network st = (Throw (unavailable cause), asked)
        /\ start network st = (Throw (unavailable cause), asked))
  /\ (forall r e, network request = Return r -> ok r = true -> response_json r = Throw e ->
        fetchManifest network st = (Throw (unavailable (message e)), asked)
        /\ start network st = (Throw (unavailable (message e)), asked))
  /\ (forall r m, network request = Return r -> ok r = true -> response_json r = Return m ->
        fetchManifest network st = (Return m, cached m)
        /\ (no_tools (Some m) = true ->
              start network st
              = (Throw (Error (js "No tools found in MCP manifest")), cached m))
        /\ (no_tools (Some m) = false -> forallb converts (connected (Some m)) = true ->
              start network st = (Return tt, cached m)))
  /\ (forall r, body_error r = None ->
        response_json r = JSON_parse (utf8_decode (concat (chunks r))))
  /\ no_tools (Some JNull) = true
  /\ (forall props,
        lookup (js "tools") props = None \/ lookup (js "tools") props = Some (JArr []) ->
        no_tools (Some (JObj props)) = true).
Proof.
  cbv zeta. repeat match goal with |- _ /\ _ => split end.
  - intros e He. unfold start, fetchManifest. unfold_method. now rewrite He.
  - intros r Hr Hok. unfold start, fetchManifest. unfold_method. now rewrite Hr, Hok.
  - intros r e Hr Hok He. unfold start, fetchManifest. unfold_method.
    now rewrite Hr, Hok, He.
  - intros r m Hr Hok Hm. unfold start, fetchManifest. unfold_method.
    rewrite Hr, Hok, Hm. cbn [negb this manifest]. split; [reflexivity|].
    split; [intros ->; reflexivity|]. unfold log, lift. intros -> ->. reflexivity.
  - intros r Hr. unfold response_json, response_text. now rewrite Hr.
  - reflexivity.
  - intros props [H | H]; unfold no_tools; cbn [ToBoolean negb orb get]; now rewrite H.
Qed.

(** C9. With the manifest
    [{"name":"demo","tools":[{"name":"get_user","inputSchema":{},
      "handler":{"method":"GET","url":"https://x/users/{id}"}}]}]
    cached, invoking [get_user] with [{id:"42"}] issues exactly one
    request: [GET https://x/users/42], with no query string and no body.
    In general the URL of the request is the resolved URL when the query
    mapping is empty and the resolved URL, [?] and the serialized query
    otherwise; and the request has a body, the JSON text of the body
    mapping, exactly when the method is [POST], [PUT] or [PATCH] and the
    body mapping is not empty. *)
Theorem C9_get_user (st : state) (m : json) :
  JSON_parse (Sample.text Sample.demo_manifest) = Return m ->
  manifest (this st) = Some m ->
  (exists o,
     tools_call network (js "get_user") (Some [(js "id", JStr (js "42"))]) st
     = (o, {| this := this st;
              sent := sent st ++
                [{| request_url := js "https://x/users/42";
                    request_method := Some (JStr (js "GET"));
                    request_headers :=
                      [(js "Authorization", js "Bearer " ++ apiKey (this st));
                       (js "Content-Type", js "application/json");
                       (js "User-Agent", js "shov-mcp/1.0.0");
                       (js "Accept", js "application/json, text/event-stream")];
                    request_body := None |}] |}))
  /\ forall self method p request,
       build_request self method p = Return request ->
       (queryParams p = [] -> request_url request = requestUrl p)
       /\ (queryParams p <> [] ->
             exists query, URLSearchParams_toString (queryProto p) (queryParams p)
                           = Return query
                           /\ request_url request = requestUrl p ++ js "?" ++ query)
       /\ (request_body request <> None <->
             bodyParams p <> []
             /\ (method = Some (JStr (js "POST")) \/ method = Some (JStr (js "PUT"))
                 \/ method = Some (JStr (js "PATCH"))))
       /\ (request_body request <> None ->
             request_body request = Some (JSON_stringify (JObj (bodyParams p)))).
Proof.
  intros Hparse Hm. split.
  - vm_compute in Hparse. injection Hparse as <-.
    unfold tools_call, bind, lift, get_this. rewrite Hm.
    cbn [get lookup]. cbn. rewrite try_catch_rethrow, callTool_run.
    eexists. reflexivity.
  - intros self method p request H. unfold build_request in H.
    assert (Hbody : forall b : bool,
               (if b then Some (JSON_stringify (JObj (bodyParams p))) else None) <> None
               <-> b = true)
      by (intros [|]; split; congruence).
    destruct (queryParams p) as [|kv q] eqn:Eq; cbn [Object_keys map] in H.
    + injection H as <-. cbn [request_url request_body].
      split; [reflexivity|]. split; [congruence|]. rewrite Hbody. split.
      * rewrite andb_true_iff, !orb_true_iff, !is_string_eq.
        destruct (bodyParams p); cbn [Object_keys map]; split; intros [? ?];
          split; try congruence; tauto.
      * destruct (_ && _); intros Hb; [reflexivity|discriminate].
    + destruct (URLSearchParams_toString (queryProto p) (kv :: q)) as [query|] eqn:Es;
        [|discriminate].
      injection H as <-. cbn [request_url request_body].
      split; [discriminate|]. split; [eauto|]. rewrite Hbody. split.
      * rewrite andb_true_iff, !orb_true_iff, !is_string_eq.
        destruct (bodyParams p); cbn [Object_keys map]; split; intros [? ?];
          split; try congruence; tauto.
      * destruct (_ && _); intros Hb; [reflexivity|discriminate].
Qed.

End Startup.

(* ================================================================== *)
(** ** More on the stream normalizer *)

Lemma split_pieces (sep : Z) (s : jsstring) :
  Forall (fun piece => ~ In sep piece) (split sep s).
Proof.
  induction s as [|c s IH]; cbn [split]; [repeat constructor; auto|].
  destruct (split sep s) as [|l ls] eqn:Es; [now apply split_not_nil in Es|].
  inversion IH as [|? ? Hl Hls]; subst.
  destruct (c =? sep) eqn:E.
  - repeat constructor; auto.
  - constructor; [|exact Hls]. apply Z.eqb_neq in E. cbn. intros [H|H]; [congruence|auto].
Qed.

Lemma split_no_separator (sep : Z) (s : jsstring) :
  ~ In sep s -> split sep s = [s].
Proof.
  induction s as [|c s IH]; intros H; [reflexivity|].
  cbn [split]. rewrite IH by (intros H'; apply H; now right).
  destruct (c =? sep) eqn:E; [|reflexivity].
  apply Z.eqb_eq in E. exfalso. apply H. now left.
Qed.

Lemma last_in_Forall {A} (P : A -> Prop) (l : list A) (d : A) :
  Forall P l -> l <> [] -> P (last l d).
Proof.
  intros H Hne. rewrite Forall_forall in H. apply H.
  rewrite (app_removelast_last d Hne) at 2. apply in_or_app. right. now left.
Qed.

(* ------------------------------------------------------------------ *)
(** *** A line feed comes from a line feed byte only *)

Lemma land_low_bits (b n k : Z) :
  0 <= n -> 2 ^ n * k < b < 2 ^ n * (k + 1) -> Z.land b (Z.ones n) <> 0.
Proof.
  intros Hn Hb. rewrite Z.land_ones by exact Hn.
  pose proof (Z.pow_pos_nonneg 2 n ltac:(lia) Hn) as Hp.
  pose proof (Z.div_mod b (2 ^ n) ltac:(lia)) as Hd.
  intros Hz. rewrite Hz, Z.add_0_r in Hd. rewrite Hd in Hb. destruct Hb as [H1 H2].
  apply Z.mul_lt_mono_pos_l in H1, H2; lia.
Qed.

Lemma utf8_lead_ok (b : Z) :
  b <> 10 ->
  pending_ok (fst (utf8_lead b)) /\ Forall (fun cp => cp <> 10) (snd (utf8_lead b)).
Proof.
  intros Hb. unfold utf8_lead.
  repeat match goal with
  | |- context [if ?c then _ else _] =>
      let E := fresh "E" in destruct c eqn:E; cbn [fst snd]
  end; try (split; [left; reflexivity | repeat constructor; auto; lia]).
  all: split; [|constructor].
  all: unfold pending_ok; cbn [bytes_needed code_point lower_boundary upper_boundary bytes_seen].
  all: repeat match goal with
       | H : _ && _ = true |- _ => apply andb_true_iff in H as [? ?]
       | H : (_ <=? _) = true |- _ => apply Z.leb_le in H
       | H : (_ <=? _) = false |- _ => apply Z.leb_gt in H
       | H : (_ =? _) = true |- _ => apply Z.eqb_eq in H
       | H : (_ =? _) = false |- _ => apply Z.eqb_neq in H
       end.
  all: first
    [ exfalso; lia
    | right; right; lia
    | right; left; change 31 with (Z.ones 5); apply (land_low_bits b 5 6); lia
    | right; left; change 15 with (Z.ones 4); apply (land_low_bits b 4 14); lia
    | right; left; change 7 with (Z.ones 3); apply (land_low_bits b 3 30); lia ].
Qed.

Lemma utf16_units_ok (cp : Z) : cp <> 10 -> ~ In 10 (utf16_units cp).
Proof.
  intros H. unfold utf16_units. destruct (cp <? 0x10000) eqn:E.
  - cbn. tauto.
  - apply Z.ltb_ge in E.
    pose proof (proj2 (Z.shiftr_nonneg (cp - 0x10000) 10) ltac:(lia)).
    pose proof (proj2 (Z.land_nonneg (cp - 0x10000) 0x3FF) ltac:(lia)).
    intros [Hu | [Hu | []]]; lia.
Qed.

Lemma serialize_ok (cps : list Z) :
  forall seen, Forall (fun cp => cp <> 10) cps -> ~ In 10 (snd (serialize seen cps)).
Proof.
  induction cps as [|cp cps IH]; intros seen H; cbn [serialize]; [cbn; tauto|].
  inversion H as [|? ? Hcp Hrest]; subst.
  specialize (IH true Hrest). destruct (serialize true cps) as [seen' out].
  cbn [snd] in *. destruct (negb seen && (cp =? 0xFEFF)); [exact IH|].
  rewrite in_app_iff. pose proof (utf16_units_ok cp Hcp). tauto.
Qed.

(** One byte keeps the decoder in a good state, and gives no line feed
    unless it is one. *)
Lemma utf8_step_ok (st : utf8_state) (b : Z) :
  pending_ok st ->
  pending_ok (fst (utf8_step st b))
  /\ (b <> 10 -> Forall (fun cp => cp <> 10) (snd (utf8_step st b))).
Proof.
  intros Hst. unfold utf8_step.
  assert (Hlead : pending_ok (fst (utf8_lead b))).
  { destruct (Z.eq_dec b 10) as [->|Hb]; [left; reflexivity|now apply utf8_lead_ok]. }
  destruct (bytes_needed st =? 0) eqn:En.
  { split; [exact Hlead|]. intros Hb. now apply utf8_lead_ok. }
  apply Z.eqb_neq in En.
  destruct (negb _) eqn:Ein.
  { destruct (utf8_lead b) as [st' out] eqn:El. cbn [fst snd] in *. split; [exact Hlead|].
    intros Hb. constructor; [discriminate|].
    pose proof (utf8_lead_ok b Hb) as [_ H]. now rewrite El in H. }
  apply negb_false_iff, andb_true_iff in Ein as [Hlo Hhi].
  apply Z.leb_le in Hlo, Hhi.
  assert (Hcp : Z.lor (Z.shiftl (code_point st) 6) (Z.land b 0x3F) <> 0
                /\ (code_point st <> 0 ->
                    Z.lor (Z.shiftl (code_point st) 6) (Z.land b 0x3F) <> 10)).
  { split.
    - rewrite Z.lor_eq_0_iff, Z.shiftl_eq_0_iff by lia. intros [Hc Hb].
      destruct Hst as [H | [H | (H1 & H2 & _)]]; [contradiction|contradiction|].
      revert Hb. change 0x3F with (Z.ones 6). apply (land_low_bits b 6 2); lia.
    - intros Hc H. apply (f_equal (fun z => Z.shiftr z 6)) in H.
      rewrite Z.shiftr_lor, Z.shiftr_shiftl_l in H by lia.
      change (Z.shiftr 10 6) with 0 in H. rewrite Z.lor_eq_0_iff in H.
      destruct H as [H _]. change (6 - 6) with 0 in H.
      rewrite Z.shiftl_0_r in H. contradiction. }
  destruct Hcp as [Hnz Hnl].
  destruct (bytes_seen st + 1 =? bytes_needed st) eqn:Es; cbn [fst snd].
  - split; [left; reflexivity|]. intros _. constructor; [|constructor].
    apply Hnl. apply Z.eqb_eq in Es.
    destruct Hst as [H | [H | (_ & _ & H)]]; [contradiction|exact H|contradiction].
  - split; [|constructor]. right; left. exact Hnz.
Qed.

Lemma byte_value_line_feed (b : Byte.byte) : b <> Byte.x0a -> byte_value b <> 10.
Proof. destruct b; intros H; try discriminate. contradiction. Qed.

Lemma decode_stream_ok (value : list Byte.byte) :
  forall d, pending_ok (decoder d) ->
  pending_ok (decoder (fst (decode_stream d value)))
  /\ (~ In Byte.x0a value -> ~ In 10 (snd (decode_stream d value))).
Proof.
  induction value as [|b value IH]; intros d Hd; cbn [decode_stream].
  - cbn. tauto.
  - unfold decode_byte.
    pose proof (utf8_step_ok (decoder d) (byte_value b) Hd) as [Hst Hout].
    destruct (utf8_step (decoder d) (byte_value b)) as [st cps]. cbn [fst snd] in *.
    pose proof (serialize_ok cps (BOM_seen d)) as Hser.
    destruct (serialize (BOM_seen d) cps) as [seen out]. cbn [snd] in Hser.
    specialize (IH {| decoder := st; BOM_seen := seen |} Hst).
    destruct (decode_stream _ value) as [d2 out2]. cbn [fst snd] in *.
    split; [tauto|]. intros Hnl. rewrite in_app_iff. intros [H|H].
    + apply Hser; [|exact H]. apply Hout, byte_value_line_feed.
      intros ->. apply Hnl. now left.
    + apply (proj2 IH); [|exact H]. intros H'. apply Hnl. now right.
Qed.

Section StreamProperties.
Context {platform : Platform}.

(** What a line adds does not depend on what was there before it. *)
Lemma sse_line_adds (evs : list json) (txt line : jsstring) :
  sse_line (evs, txt) line
  = (evs ++ fst (sse_line ([], []) line), txt ++ snd (sse_line ([], []) line)).
Proof.
  unfold sse_line.
  repeat match goal with
  | |- context [match ?x with _ => _ end] => destruct x eqn:?
  end; cbn [fst snd app]; rewrite ?app_nil_r, <- ?app_assoc; reflexivity.
Qed.

Lemma sse_lines_add (lines : list jsstring) :
  forall evs txt,
  fold_left sse_line lines (evs, txt)
  = (evs ++ fst (fold_left sse_line lines ([], [])),
     txt ++ snd (fold_left sse_line lines ([], []))).
Proof.
  induction lines as [|l lines IH]; intros evs txt; cbn [fold_left].
  - cbn. now rewrite !app_nil_r.
  - rewrite sse_line_adds. destruct (sse_line ([], []) l) as [e1 t1]. cbn [fst snd].
    rewrite IH, (IH e1 t1). cbn [fst snd]. now rewrite !app_assoc.
Qed.

(** Text is appended only together with an event. *)
Lemma sse_line_text_with_event (line : jsstring) :
  fst (sse_line ([], []) line) = [] -> snd (sse_line ([], []) line) = [].
Proof.
  unfold sse_line.
  repeat match goal with
  | |- context [match ?x with _ => _ end] => destruct x eqn:?
  end; cbn [fst snd app]; intros H; try reflexivity; discriminate.
Qed.

Lemma sse_lines_text_with_event (lines : list jsstring) :
  fst (fold_left sse_line lines ([], [])) = [] ->
  snd (fold_left sse_line lines ([], [])) = [].
Proof.
  induction lines as [|l lines IH] using rev_ind; [reflexivity|].
  rewrite fold_left_app. cbn [fold_left].
  destruct (fold_left sse_line lines ([], [])) as [evs txt]. cbn [fst snd] in IH.
  rewrite sse_line_adds. cbn [fst snd]. intros H.
  apply app_eq_nil in H as [-> H]. rewrite (IH eq_refl).
  now rewrite (sse_line_text_with_event l H).
Qed.

(** The loop as a whole: the events and the text are those of the
    complete lines of the decoded body, taken in order from nothing. *)
Lemma stream_lines (reads : list (list Byte.byte)) :
  let decoded := snd (decode_stream TextDecoder_new (concat reads)) in
  let s := fold_left sse_read reads sse_start in
  (events s, streamedText s) = fold_left sse_line (removelast (split 10 decoded)) ([], [])
  /\ buffer s = last (split 10 decoded) [].
Proof.
  cbv zeta. rewrite reads_concat. unfold sse_read, sse_start.
  cbn [text_decoder buffer events streamedText app].
  destruct (decode_stream TextDecoder_new (concat reads)) as [d decoded]. cbn [snd].
  rewrite (pop_not_nil (split 10 decoded) []) by apply split_not_nil.
  destruct (fold_left sse_line _ _) as [evs txt]. cbn. split; reflexivity.
Qed.

Lemma sse_read_ok (s : stream) (value : list Byte.byte) :
  stream_ok s -> stream_ok (sse_read s value).
Proof.
  intros [Hd Hb]. unfold sse_read, stream_ok.
  pose proof (decode_stream_ok value (text_decoder s) Hd) as [Hd' _].
  destruct (decode_stream (text_decoder s) value) as [d decoded]. cbn [fst] in Hd'.
  rewrite (pop_not_nil (split 10 (buffer s ++ decoded)) []) by apply split_not_nil.
  destruct (fold_left sse_line _ _) as [evs txt]. cbn [text_decoder buffer].
  split; [exact Hd'|].
  apply (last_in_Forall (fun piece => ~ In 10 piece)); [apply split_pieces|apply split_not_nil].
Qed.

Lemma reads_ok (reads : list (list Byte.byte)) :
  forall s, stream_ok s -> stream_ok (fold_left sse_read reads s).
Proof.
  induction reads as [|v reads IH]; intros s Hs; [exact Hs|].
  cbn [fold_left]. apply IH, sse_read_ok, Hs.
Qed.

Lemma sse_start_ok : stream_ok sse_start.
Proof. split; [left; reflexivity|cbn; tauto]. Qed.

(** A read without a line feed byte only grows the buffer. *)
Lemma sse_read_no_line_feed (s : stream) (value : list Byte.byte) :
  stream_ok s -> ~ In Byte.x0a value ->
  events (sse_read s value) = events s
  /\ streamedText (sse_read s value) = streamedText s.
Proof.
  intros [Hd Hb] Hv. unfold sse_read.
  pose proof (decode_stream_ok value (text_decoder s) Hd) as [_ Hout].
  specialize (Hout Hv).
  destruct (decode_stream (text_decoder s) value) as [d decoded]. cbn [snd] in Hout.
  rewrite split_no_separator by (rewrite in_app_iff; tauto).
  cbn. split; reflexivity.
Qed.

End StreamProperties.

Section StreamTheorems.
Context {platform : Platform}.

(** X1. For a body that is read to its end, [handleSSEStream] returns what
    the per-line step makes, from no events and no text, of the complete
    lines of the whole decoded body taken in order; how the body was cut
    into reads has no part in it. *)
Theorem stream_is_a_fold_over_lines
  (response : Response) (reads : list (list Byte.byte))
  (evs : list json) (txt : jsstring) :
  body response = Some reads ->
  body_error response = None ->
  fold_left sse_line
    (removelast (split 10 (snd (decode_stream TextDecoder_new (concat reads))))) ([], [])
  = (evs, txt) ->
  handleSSEStream response
  = Return (sse_result {| text_decoder := TextDecoder_new; buffer := [];
                          events := evs; streamedText := txt |}).
Proof.
  intros Hbody Herr Hfold. unfold handleSSEStream. rewrite Hbody, Herr.
  destruct (stream_lines reads) as [H _]. rewrite Hfold in H.
  injection H as He Ht. unfold sse_result. cbn [events streamedText].
  now rewrite He, Ht.
Qed.

(** X2. What follows the last line feed byte of the body is never
    processed: a final read without a line feed adds no event and no text,
    so a last [data:] line that is not terminated is lost. *)
Theorem unterminated_tail_is_dropped
  (reads : list (list Byte.byte)) (tail : list Byte.byte) :
  ~ In Byte.x0a tail ->
  let s := fold_left sse_read reads sse_start in
  events (sse_read s tail) = events s
  /\ streamedText (sse_read s tail) = streamedText s
  /\ forall r r' : Response,
       body r = Some (reads ++ [tail]) -> body r' = Some reads ->
       body_error r = body_error r' ->
       handleSSEStream r = handleSSEStream r'.
Proof.
  intros Htail s.
  destruct (sse_read_no_line_feed s tail (reads_ok reads _ sse_start_ok) Htail) as [He Ht].
  split; [exact He|]. split; [exact Ht|].
  intros r r' Hr Hr' Herr. unfold handleSSEStream.
  rewrite Hr, Hr', Herr, fold_left_app. cbn [fold_left]. fold s.
  unfold sse_result. now rewrite He, Ht.
Qed.

(** X3. A read never removes or reorders what was recorded: the events
    and the text after it are those before it with something appended, and
    text is appended only when an event is. *)
Theorem reads_only_add (s : stream) (value : list Byte.byte) :
  exists more appended,
    events (sse_read s value) = events s ++ more
    /\ streamedText (sse_read s value) = streamedText s ++ appended
    /\ (more = [] -> appended = []).
Proof.
  unfold sse_read. destruct (decode_stream (text_decoder s) value) as [d decoded].
  destruct (pop (split 10 (buffer s ++ decoded))) as [last_line lines].
  rewrite sse_lines_add.
  exists (fst (fold_left sse_line lines ([], []))), (snd (fold_left sse_line lines ([], []))).
  cbn [events streamedText]. repeat split. apply sse_lines_text_with_event.
Qed.

(** X4. The shapes of the result: its type is ['stream']; [eventCount],
    when present, is the number of [events]; [content] is present exactly
    when text was accumulated, and then there is at least one event;
    [message] is present exactly when there is no event, and then neither
    [content] nor [eventCount] is. *)
Theorem stream_result_shape (response : Response) (result : StreamResult) :
  handleSSEStream response = Return result ->
  result_type result = js "stream"
  /\ (forall n, result_eventCount result = Some n -> n = List.length (result_events result))
  /\ (forall c, result_content result = Some c ->
        c <> [] /\ result_events result <> []
        /\ result_eventCount result = Some (List.length (result_events result)))
  /\ (result_events result <> [] ->
        result_message result = None
        /\ result_eventCount result = Some (List.length (result_events result)))
  /\ (result_events result = [] ->
        result_content result = None /\ result_eventCount result = None
        /\ result_message result = Some (js "Stream completed with no data")).
Proof.
  unfold handleSSEStream. destruct (body response) as [reads|]; [|discriminate].
  destruct (body_error response); [discriminate|]. intros H. injection H as <-.
  destruct (stream_lines reads) as [Hlines _].
  pose proof (sse_lines_text_with_event
                (removelast (split 10 (snd (decode_stream TextDecoder_new (concat reads))))))
    as Hinv.
  rewrite <- Hlines in Hinv. cbn [fst snd] in Hinv.
  set (s := fold_left sse_read reads sse_start) in *.
  unfold sse_result.
  destruct (streamedText s) as [|c t] eqn:Et; destruct (events s) as [|e es] eqn:Ee;
    cbn [result_type result_content result_message result_events result_eventCount].
  3: specialize (Hinv eq_refl); discriminate.
  all: repeat split; intros; try discriminate; try congruence;
    repeat match goal with
    | H : Some _ = Some _ |- _ => injection H as <-
    end; try reflexivity; try discriminate; try congruence.
Qed.

(** X5. A body none of whose complete lines begins with [data: ]
    (comments, [event:] and [id:] fields, blank lines, [data:] without the
    space) gives the result of an empty stream. *)
Theorem no_data_lines_empty_result (response : Response) (reads : list (list Byte.byte)) :
  body response = Some reads ->
  body_error response = None ->
  Forall (fun line => startsWith line (js "data: ") = false)
         (removelast (split 10 (snd (decode_stream TextDecoder_new (concat reads))))) ->
  handleSSEStream response
  = Return {| result_type := js "stream";
              result_content := None;
              result_message := Some (js "Stream completed with no data");
              result_events := [];
              result_eventCount := None |}.
Proof.
  intros Hbody Herr Hlines. unfold handleSSEStream. rewrite Hbody, Herr.
  destruct (stream_lines reads) as [H _].
  assert (Hnone : forall lines acc,
             Forall (fun line => startsWith line (js "data: ") = false) lines ->
             fold_left sse_line lines acc = acc).
  { induction lines as [|l lines IH]; intros acc Hl; [reflexivity|].
    inversion Hl as [|? ? Hl1 Hl2]; subst. cbn [fold_left].
    rewrite <- (IH acc Hl2) at 2. f_equal. unfold sse_line. destruct acc. now rewrite Hl1. }
  rewrite (Hnone _ _ Hlines) in H. injection H as He Ht.
  unfold sse_result. now rewrite He, Ht.
Qed.

(** X6. A payload that is not JSON (and is not the [[DONE]] marker) is
    recorded as an event of type ['text'] holding the payload as it came,
    and the payload is appended to the text. *)
Theorem plain_text_payload (evs : list json) (txt data : jsstring) (e : exn) :
  JSON_parse data = Throw e ->
  data <> js "[DONE]" ->
  sse_line (evs, txt) (js "data: " ++ data)
  = (evs ++ [JObj [(js "type", JStr (js "text")); (js "content", JStr data)]], txt ++ data).
Proof.
  intros Hparse Hdone. unfold sse_line.
  replace (startsWith (js "data: " ++ data) (js "data: ")) with true by reflexivity.
  replace (slice 6 (js "data: " ++ data)) with data by reflexivity.
  apply str_eqb_neq in Hdone. now rewrite Hdone, Hparse.
Qed.

(** X7. A payload that parses to [null] is recorded twice: reading its
    [type] throws after [null] was pushed, so the handler for payloads
    that are not JSON runs as well, adds a ['text'] event and appends the
    payload. *)
Theorem null_payload_recorded_twice (evs : list json) (txt data : jsstring) :
  JSON_parse data = Return JNull ->
  sse_line (evs, txt) (js "data: " ++ data)
  = (evs ++ [JNull; JObj [(js "type", JStr (js "text")); (js "content", JStr data)]],
     txt ++ data).
Proof.
  intros Hparse. unfold sse_line.
  replace (startsWith (js "data: " ++ data) (js "data: ")) with true by reflexivity.
  replace (slice 6 (js "data: " ++ data)) with data by reflexivity.
  rewrite (done_is_not_json _ _ Hparse), Hparse. cbn [get].
  now rewrite <- app_assoc.
Qed.

(** X8. A payload that parses to anything but [null] and whose [type] is
    neither ['chunk'] nor ['delta'] (a progress or error event whose
    message can be logged, an event of another or of no type, or a value
    that is not an object) is recorded as one event and adds no text. *)
Theorem other_events_add_no_text (evs : list json) (txt data : jsstring) (v : json) :
  JSON_parse data = Return v ->
  v <> JNull ->
  own v (js "type") <> Some (JStr (js "chunk")) ->
  own v (js "type") <> Some (JStr (js "delta")) ->
  (own v (js "type") = Some (JStr (js "progress")) ->
   converts (or_else (own v (js "message")) (own v (js "status"))) = true) ->
  (own v (js "type") = Some (JStr (js "error")) ->
   converts (or_else (own v (js "error")) (own v (js "message"))) = true) ->
  sse_line (evs, txt) (js "data: " ++ data) = (evs ++ [v], txt).
Proof.
  intros Hparse Hnull Hchunk Hdelta Hprogress Herror. unfold sse_line.
  replace (startsWith (js "data: " ++ data) (js "data: ")) with true by reflexivity.
  replace (slice 6 (js "data: " ++ data)) with data by reflexivity.
  rewrite (done_is_not_json _ _ Hparse), Hparse.
  assert (Hget : forall k, get (Some v) k = Return (own v k))
    by (intros k; destruct v; try reflexivity; contradiction).
  rewrite !Hget.
  destruct (is_string (own v (js "type")) (js "chunk")) eqn:E1;
    [apply is_string_eq in E1; contradiction|].
  destruct (is_string (own v (js "type")) (js "delta")) eqn:E2;
    [apply is_string_eq in E2; contradiction|].
  cbn [orb].
  destruct (is_string (own v (js "type")) (js "progress")) eqn:E3.
  { apply is_string_eq in E3. now rewrite (Hprogress E3). }
  destruct (is_string (own v (js "type")) (js "error")) eqn:E4; [|reflexivity].
  apply is_string_eq in E4. now rewrite (Herror E4).
Qed.

End StreamTheorems.

(* ================================================================== *)
(** ** More on the argument router *)

Section RouterTheorems.
Context {platform : Platform}.

(** X9. A path parameter goes into the URL percent-encoded, in place of
    the first occurrence of its placeholder: what is inserted holds only
    unreserved characters and [%], so that no argument value can bring a
    slash, a question mark, an ampersand or a brace into the path. *)
Theorem path_value_is_percent_encoded
  (method : option json) (p p' : parameters) (key : jsstring) (value : json) (s : jsstring) :
  includes (requestUrl p) (placeholder key) = true ->
  ToString value = Return s ->
  Forall (fun c => 0 <= c < 65536) s ->
  separate method p (key, value) = Return p' ->
  exists before after encoded,
    requestUrl p = before ++ placeholder key ++ after
    /\ includes (before ++ removelast (placeholder key)) (placeholder key) = false
    /\ Encode s = Some encoded
    /\ Forall (fun c => uri_safe c = true) encoded
    /\ requestUrl p' = before ++ encoded ++ after.
Proof.
  intros Hinc Hs Hunits H.
  apply separate_cases in H as [(_ & (encoded & Henc & Hurl) & _) | [(E & _) | (E & _)]];
    try congruence.
  unfold encodeURIComponent in Henc. rewrite Hs in Henc.
  destruct (Encode s) as [r|] eqn:Er; [|discriminate]. injection Henc as ->.
  pose proof (Encode_safe _ s encoded (le_n _) Hunits Er) as Hsafe.
  destruct (includes_split_at_first _ _ Hinc) as (before & after & Hsplit).
  destruct (split_at_first_spec _ _ _ _ Hsplit) as [Hwhole Hfirst].
  exists before, after, encoded. split; [exact Hwhole|]. split; [now apply Hfirst|].
  split; [reflexivity|]. split; [exact Hsafe|].
  rewrite Hurl. unfold replace. rewrite Hsplit.
  now rewrite GetSubstitution_plain by now apply uri_safe_no_dollar.
Qed.

Lemma separate_all_idle (method : option json) (entries : object) :
  forall p p', separate_all method p entries = Return p' ->
  (is_string method (js "GET") || is_string method (js "DELETE") = true ->
   bodyParams p' = bodyParams p)
  /\ (is_string method (js "GET") || is_string method (js "DELETE") = false ->
      queryParams p' = queryParams p).
Proof.
  induction entries as [|[key value] rest IH]; intros p p' H; cbn [separate_all] in H.
  - injection H as <-. split; reflexivity.
  - destruct (separate method p (key, value)) as [p1|] eqn:E; [|discriminate].
    destruct (IH _ _ H) as [Hb Hq].
    apply separate_cases in E
      as [(_ & _ & _ & Eq & Eb & _) | [(_ & Em & _ & _ & _ & Eb & _)
                                      | (_ & Em & _ & _ & Eq & _)]];
      split; intros Hm; rewrite ?(Hb Hm), ?(Hq Hm); congruence.
Qed.

(** X10. Where the arguments can go.  With [GET] or [DELETE] nothing is
    put in the body mapping and the request has no body; with any other
    method nothing is put in the query mapping and the URL gets no query
    string; so with a method that is none of [GET], [DELETE], [POST],
    [PUT] and [PATCH] (say [HEAD], or [get] in lower case) the arguments
    that are not path parameters are left out of the request. *)
Theorem where_arguments_can_go
  (self : ShovMCPServer) (url : jsstring) (method : option json) (args : object)
  (p : parameters) (request : Request) :
  classify url method args = Return p ->
  build_request self method p = Return request ->
  (is_string method (js "GET") || is_string method (js "DELETE") = true ->
   bodyParams p = [] /\ request_body request = None)
  /\ (is_string method (js "GET") || is_string method (js "DELETE") = false ->
      queryParams p = [] /\ request_url request = requestUrl p)
  /\ (is_string method (js "GET") || is_string method (js "DELETE") = false ->
      is_string method (js "POST") || is_string method (js "PUT")
      || is_string method (js "PATCH") = false ->
      request_url request = requestUrl p /\ request_body request = None).
Proof.
  intros Hc Hb. unfold classify in Hc.
  destruct (separate_all_idle _ _ _ _ Hc) as [Hbody Hquery]. cbn in Hbody, Hquery.
  assert (Hrb : request_body request
                = if (is_string method (js "POST") || is_string method (js "PUT")
                      || is_string method (js "PATCH"))
                     && match Object_keys (bodyParams p) with [] => false | _ :: _ => true end
                  then Some (JSON_stringify (JObj (bodyParams p))) else None).
  { unfold build_request in Hb.
    match type of Hb with match ?x with _ => _ end = _ => destruct x end; [|discriminate].
    now injection Hb as <-. }
  assert (Hq : is_string method (js "GET") || is_string method (js "DELETE") = false ->
               queryParams p = [] /\ request_url request = requestUrl p).
  { intros Hm. split; [now apply Hquery|].
    unfold build_request in Hb. rewrite (Hquery Hm) in Hb.
    change (Object_keys []) with (@nil jsstring) in Hb. now injection Hb as <-. }
  split; [|split; [exact Hq|]].
  - intros Hm. split; [now apply Hbody|]. rewrite Hrb, (Hbody Hm).
    change (Object_keys []) with (@nil jsstring). now rewrite andb_false_r.
  - intros Hm Hpost. split; [now apply Hq|]. now rewrite Hrb, Hpost.
Qed.

Variable network : Request -> outcome Response.

(** X11. A path argument whose text has a lone surrogate has no URI
    encoding: the call throws a URIError and no request is sent. *)
Theorem malformed_path_value
  (tool : json) (handler method : option json) (url key : jsstring) (value : json)
  (rest : object) (s : jsstring) (st : state) :
  get (Some tool) (js "handler") = Return handler ->
  get handler (js "url") = Return (Some (JStr url)) ->
  get handler (js "method") = Return method ->
  includes url (placeholder key) = true ->
  ToString value = Return s ->
  Encode s = None ->
  callTool network tool ((key, value) :: rest) st
  = (Throw (URIError (fault_message MalformedURI)), st).
Proof.
  intros Hh Hu Hm Hinc Hs He. rewrite callTool_run. unfold callTool_request.
  rewrite Hh, Hu, Hm. unfold classify. cbn [separate_all separate unclassified requestUrl].
  rewrite Hinc. unfold encodeURIComponent. rewrite Hs, He.
  now destruct (assign key value _).
Qed.

End RouterTheorems.

(* ================================================================== *)
(** ** More on the server *)

Section ServerTheorems.
Context {platform : Platform}.
Variable network : Request -> outcome Response.

Lemma get_own (t : json) (k : jsstring) :
  t <> JNull -> get (Some t) k = Return (own t k).
Proof. destruct t; cbn; congruence. Qed.

Lemma find_tool_found (items : list json) (toolName : jsstring) (tool : json) :
  find_tool items toolName = Return (Some tool) ->
  In tool items /\ own tool (js "name") = Some (JStr toolName).
Proof.
  induction items as [|t items IH]; cbn [find_tool]; [discriminate|].
  destruct (get (Some t) (js "name")) as [name|e] eqn:E; [|discriminate].
  destruct (is_string name toolName) eqn:En.
  - intros H. injection H as <-. split; [now left|].
    apply is_string_eq in En. subst name.
    destruct t; cbn in E; try discriminate. now injection E.
  - intros H. destruct (IH H). split; [now right|assumption].
Qed.

Lemma find_tool_skips (pre rest : list json) (toolName : jsstring) :
  Forall (fun t => t <> JNull /\ own t (js "name") <> Some (JStr toolName)) pre ->
  find_tool (pre ++ rest) toolName = find_tool rest toolName.
Proof.
  induction 1 as [|t pre [Hnull Hname] _ IH]; [reflexivity|].
  cbn [app find_tool]. rewrite (get_own _ _ Hnull).
  destruct (is_string (own t (js "name")) toolName) eqn:En; [|exact IH].
  apply is_string_eq in En. contradiction.
Qed.

(** What an invocation does to the state, with the tool it found. *)
Lemma tools_call_sends (toolName : jsstring) (arguments : option object)
  (st st' : state) (o : outcome ToolResponse) :
  tools_call network toolName arguments st = (o, st') ->
  st' = st
  \/ exists tools tool request,
       get (manifest (this st)) (js "tools") = Return tools
       /\ find tools toolName = Return (Some tool)
       /\ callTool_request (this st) tool (match arguments with Some a => a | None => [] end)
          = Return request
       /\ st' = {| this := this st; sent := sent st ++ [request] |}.
Proof.
  intros H. unfold tools_call, log, bind, lift, get_this in H.
  repeat (break_in H; cbn beta iota in H;
          try (unfold throw in H; injection H as <- <-; now left)).
  all: rewrite try_catch_rethrow, callTool_run in H.
  all: break_in H; injection H as <- <-; [right|now left].
  all: do 3 eexists; repeat split; eassumption.
Qed.

(** X12. An invocation never changes the server object, and it issues no
    request or one. *)
Theorem invocation_footprint (toolName : jsstring) (arguments : option object) (st : state) :
  this (snd (tools_call network toolName arguments st)) = this st
  /\ (sent (snd (tools_call network toolName arguments st)) = sent st
      \/ exists request,
           sent (snd (tools_call network toolName arguments st)) = sent st ++ [request]).
Proof.
  destruct (tools_call network toolName arguments st) as [o st'] eqn:E.
  apply tools_call_run in E as [-> | (request & -> & _)]; cbn [snd this sent].
  - split; [reflexivity|now left].
  - split; [reflexivity|right; now exists request].
Qed.

(** X13. The request an invocation issues is the one built for a tool of
    the manifest that has the name asked for: it goes with the method of
    that tool's handler, whatever that is, and carries the server's API
    key as bearer token, with the content type, user agent and accepted
    types that are fixed in the code. *)
Theorem invocation_request
  (toolName : jsstring) (arguments : option object) (st st' : state)
  (o : outcome ToolResponse) (request : Request) :
  tools_call network toolName arguments st = (o, st') ->
  sent st' = sent st ++ [request] ->
  exists items tool handler,
    get (manifest (this st)) (js "tools") = Return (Some (JArr items))
    /\ In tool items
    /\ own tool (js "name") = Some (JStr toolName)
    /\ get (Some tool) (js "handler") = Return handler
    /\ get handler (js "method") = Return (request_method request)
    /\ request_headers request
       = [(js "Authorization", js "Bearer " ++ apiKey (this st));
          (js "Content-Type", js "application/json");
          (js "User-Agent", js "shov-mcp/1.0.0");
          (js "Accept", js "application/json, text/event-stream")].
Proof.
  intros Hrun Hsent.
  apply tools_call_sends in Hrun as [-> | (tools & tool & request' & Ht & Hf & Hr & ->)].
  - exfalso. apply (f_equal (@List.length _)) in Hsent.
    rewrite length_app in Hsent. cbn in Hsent. lia.
  - cbn [sent] in Hsent. apply app_inv_head in Hsent. injection Hsent as ->.
    destruct tools as [[| | | | items |]|]; cbn [find] in Hf; try discriminate.
    apply find_tool_found in Hf as [Hin Hname].
    unfold callTool_request in Hr.
    destruct (get (Some tool) (js "handler")) as [handler|] eqn:Eh; [|discriminate].
    destruct (get handler (js "url")) as [[[| | | url | |]|]|] eqn:Eu;
      destruct (get handler (js "method")) as [method|] eqn:Em; try discriminate.
    destruct (classify url method _) as [p|]; [|discriminate].
    unfold build_request in Hr.
    match type of Hr with match ?x with _ => _ end = _ => destruct x end; [|discriminate].
    injection Hr as <-. exists items, tool, handler. cbn. now repeat split.
Qed.

(** X14. The tools are searched in the order of the manifest and the
    search stops at the first that has the name: of two tools of one name
    the second is never called, and a [null] entry makes the lookup of
    every tool that is not before it fail with a TypeError. *)
Theorem lookup_stops_at_first (pre post : list json) (t : json) (toolName : jsstring) :
  Forall (fun t => t <> JNull /\ own t (js "name") <> Some (JStr toolName)) pre ->
  (own t (js "name") = Some (JStr toolName) ->
   find (Some (JArr (pre ++ t :: post))) toolName = Return (Some t))
  /\ (t = JNull ->
      find (Some (JArr (pre ++ t :: post))) toolName
      = Throw (TypeError (fault_message (NullProperty (js "name"))))).
Proof.
  intros Hpre. cbn [find]. rewrite (find_tool_skips _ _ _ Hpre). cbn [find_tool]. split.
  - intros Hname. assert (Hnull : t <> JNull) by (intros ->; discriminate).
    rewrite (get_own _ _ Hnull), Hname. cbn [is_string]. now rewrite str_eqb_refl.
  - intros ->. reflexivity.
Qed.

Lemma no_tools_false (m : json) :
  no_tools (Some m) = false ->
  exists tools, own m (js "tools") = Some tools
                /\ ToBoolean (Some tools) = true /\ length_is_zero tools = false.
Proof.
  unfold no_tools. intros H. apply orb_false_iff in H as [Hm H].
  apply negb_false_iff in Hm.
  destruct m as [| b | n | s | items | props]; cbn [ToBoolean] in Hm; try discriminate;
    cbn [get] in H; try (cbn in H; discriminate).
  destruct (lookup (js "tools") props) as [tools|] eqn:E; [|cbn in H; discriminate].
  apply orb_false_iff in H as [H1 H2]. apply negb_false_iff in H1.
  exists tools. cbn [own]. now repeat split.
Qed.

(** X15. [start] checks that the manifest has tools, not what they are.
    When [tools] is not an array (a non-empty string, or an object
    without a zero [length]) the check passes, and then every invocation
    and every listing fails with a TypeError, leaving the state as it
    is. *)
Theorem tools_that_are_no_array
  (st : state) (props : object) (tools : json) (toolName : jsstring)
  (arguments : option object) :
  manifest (this st) = Some (JObj props) ->
  lookup (js "tools") props = Some tools ->
  ToBoolean (Some tools) = true ->
  length_is_zero tools = false ->
  (forall items, tools <> JArr items) ->
  no_tools (manifest (this st)) = false
  /\ tools_call network toolName arguments st
     = (Throw (TypeError (fault_message (NotAFunction (js "find")))), st)
  /\ tools_list st
     = (Throw (TypeError (fault_message (NotAFunction (js "map")))), st).
Proof.
  intros Hm Ht Htrue Hlen Harr. rewrite Hm. split; [|split].
  - unfold no_tools. cbn [ToBoolean negb orb get]. now rewrite Ht, Htrue, Hlen.
  - unfold tools_call. unfold_method. rewrite Hm. cbn [get]. rewrite Ht.
    destruct tools; cbn in Htrue |- *; try discriminate; try reflexivity.
    now destruct (Harr items).
  - unfold tools_list. unfold_method. rewrite Hm. cbn [get]. rewrite Ht.
    destruct tools; cbn in Htrue |- *; try discriminate; try reflexivity.
    now destruct (Harr items).
Qed.

(** [start] in one piece. *)
Lemma start_run (st : state) :
  start network st
  = let request := {| request_url := baseUrl (this st) ++ js "/mcp.json";
                      request_method := None;
                      request_headers := [];
                      request_body := None |} in
    let asked := {| this := this st; sent := sent st ++ [request] |} in
    let unavailable cause :=
      Error (js "Could not connect to " ++ baseUrl (this st) ++ js "/mcp.json - " ++ cause) in
    match network request with
    | Throw e => (Throw (unavailable (message e)), asked)
    | Return r =>
        if negb (ok r) then
          (Throw (unavailable (js "Failed to fetch manifest: "
                                 ++ integer_to_string (status r) ++ js " " ++ statusText r)),
           asked)
        else
          match response_json r with
          | Throw e => (Throw (unavailable (message e)), asked)
          | Return m =>
              (if no_tools (Some m) then Throw (Error (js "No tools found in MCP manifest"))
               else if forallb converts (connected (Some m)) then Return tt
                    else Throw (TypeError (fault_message NotPrimitive)),
               {| this := {| domain := domain (this st); apiKey := apiKey (this st);
                             baseUrl := baseUrl (this st); manifest := Some m |};
                  sent := sent st ++ [request] |})
          end
    end.
Proof.
  cbv zeta. unfold start, fetchManifest, log. unfold_method.
  destruct (network _) as [r|e]; [|reflexivity].
  destruct (ok r); cbn [negb]; [|reflexivity].
  destruct (response_json r) as [m|e]; [|reflexivity].
  cbn [this manifest]. destruct (no_tools (Some m)); [reflexivity|].
  now destruct (forallb converts (connected (Some m))).
Qed.

(** X16. [start] issues one request whatever happens: a plain [GET] of
    [<baseUrl>/mcp.json], without the API key.  It never changes the
    domain, the key or the base URL. *)
Theorem start_asks_once (st : state) :
  sent (snd (start network st))
  = sent st ++ [{| request_url := baseUrl (this st) ++ js "/mcp.json";
                   request_method := None;
                   request_headers := [];
                   request_body := None |}]
  /\ domain (this (snd (start network st))) = domain (this st)
  /\ apiKey (this (snd (start network st))) = apiKey (this st)
  /\ baseUrl (this (snd (start network st))) = baseUrl (this st).
Proof.
  rewrite start_run. cbv zeta.
  destruct (network _) as [r|e]; [|now repeat split].
  destruct (negb (ok r)); [now repeat split|].
  destruct (response_json r) as [m|e]; now repeat split.
Qed.

(** X17. When [start] returns, the manifest endpoint answered with a
    success status and a JSON body, that body is the cached manifest, and
    it has a [tools] property that is truthy and whose [length] is not
    zero; so no later invocation fails for want of a manifest. *)
Theorem start_postcondition (st st' : state) :
  start network st = (Return tt, st') ->
  exists response m tools,
    network {| request_url := baseUrl (this st) ++ js "/mcp.json";
               request_method := None;
               request_headers := [];
               request_body := None |} = Return response
    /\ ok response = true
    /\ response_json response = Return m
    /\ manifest (this st') = Some m
    /\ get (manifest (this st')) (js "tools") = Return (Some tools)
    /\ ToBoolean (Some tools) = true
    /\ length_is_zero tools = false.
Proof.
  rewrite start_run. cbv zeta. intros H.
  destruct (network _) as [r|e]; [|discriminate].
  destruct (ok r) eqn:Hok; cbn [negb] in H; [|discriminate].
  destruct (response_json r) as [m|e] eqn:Hjson; [|discriminate].
  destruct (no_tools (Some m)) eqn:Hno; [discriminate|].
  injection H as _ <-. cbn [this manifest].
  destruct (no_tools_false _ Hno) as (tools & Hown & Htrue & Hlen).
  exists r, m, tools. repeat split; try assumption; try reflexivity.
  destruct m; cbn in Hown; try discriminate. exact (f_equal Return Hown).
Qed.

Lemma describe_returns (items : list json) (ds : list ToolDescriptor) :
  describe items = Return ds ->
  Forall (fun t => t <> JNull) items
  /\ ds = map (fun t => {| descriptor_name := own t (js "name");
                           descriptor_description := own t (js "description");
                           descriptor_inputSchema := own t (js "inputSchema") |}) items.
Proof.
  revert ds. induction items as [|t items IH]; intros ds H; cbn [describe] in H.
  - injection H as <-. split; [constructor|reflexivity].
  - assert (Hnull : t <> JNull) by (intros ->; cbn in H; discriminate).
    rewrite !(get_own _ _ Hnull) in H.
    destruct (describe items) as [ds'|]; [|discriminate].
    injection H as <-. destruct (IH _ eq_refl) as [Hall ->].
    split; [now constructor|reflexivity].
Qed.

Lemma find_tool_some (items : list json) (toolName : jsstring) (t : json) :
  Forall (fun t => t <> JNull) items ->
  In t items -> own t (js "name") = Some (JStr toolName) ->
  exists tool, find_tool items toolName = Return (Some tool).
Proof.
  induction 1 as [|t' items Hnull _ IH]; intros Hin Hname; [contradiction|].
  cbn [find_tool]. rewrite (get_own _ _ Hnull).
  destruct (is_string (own t' (js "name")) toolName) eqn:E; [now exists t'|].
  destruct Hin as [-> | Hin]; [|now apply IH].
  apply is_string_eq in Hname. congruence.
Qed.

(** X18. The listing gives the tools of the manifest in their order, each
    with its [name], [description] and [inputSchema] as the manifest has
    them (absent where it has none), and changes nothing.  Every name it
    lists can be invoked: the lookup of an invocation finds a tool of
    that name. *)
Theorem listed_tools (st st' : state) (ds : list ToolDescriptor) :
  tools_list st = (Return ds, st') ->
  st' = st
  /\ exists items,
       get (manifest (this st)) (js "tools") = Return (Some (JArr items))
       /\ ds = map (fun t => {| descriptor_name := own t (js "name");
                                descriptor_description := own t (js "description");
                                descriptor_inputSchema := own t (js "inputSchema") |}) items
       /\ forall d toolName,
            In d ds -> descriptor_name d = Some (JStr toolName) ->
            exists tool, find (Some (JArr items)) toolName = Return (Some tool)
                         /\ In tool items
                         /\ own tool (js "name") = Some (JStr toolName).
Proof.
  unfold tools_list. unfold_method. intros H.
  destruct (get (manifest (this st)) (js "tools")) as [tools|] eqn:Et; [|discriminate].
  injection H as H <-. split; [reflexivity|].
  destruct tools as [[| | | | items |]|]; try discriminate.
  apply describe_returns in H as [Hall ->].
  exists items. split; [reflexivity|]. split; [reflexivity|].
  intros d toolName Hin Hname. apply in_map_iff in Hin as (t & <- & Hin).
  cbn [descriptor_name] in Hname.
  destruct (find_tool_some _ _ _ Hall Hin Hname) as [tool Hfind].
  exists tool. cbn [find]. split; [exact Hfind|]. now apply find_tool_found.
Qed.

(** X19. What is made of a reply with a success status whose body is
    read to its end.  A content type that mentions [text/event-stream]
    gives a stream result, whatever else it mentions and whatever the
    body holds; otherwise one that mentions [application/json] gives the
    parsed body, and the invocation fails, after the request was sent,
    exactly when the body is not JSON; any other content type, or none,
    gives the body as text. *)
Theorem successful_reply
  (toolName : jsstring) (arguments : option object) (st st' : state)
  (o : outcome ToolResponse) (request : Request) (response : Response)
  (reads : list (list Byte.byte)) :
  tools_call network toolName arguments st = (o, st') ->
  sent st' = sent st ++ [request] ->
  network request = Return response ->
  ok response = true ->
  body response = Some reads ->
  body_error response = None ->
  o = if declares (content_type response) (js "text/event-stream")
      then Return (Stream (sse_result (fold_left sse_read reads sse_start)))
      else if declares (content_type response) (js "application/json")
           then match JSON_parse (utf8_decode (concat reads)) with
                | Return data => Return (Json data)
                | Throw e => Throw e
                end
           else Return (Text (utf8_decode (concat reads))).
Proof.
  intros Hrun Hsent Hnet Hok Hbody Herr.
  destruct (tools_call_run _ _ _ _ _ _ Hrun) as [-> | (request' & -> & ->)].
  - exfalso. apply (f_equal (@List.length _)) in Hsent.
    rewrite length_app in Hsent. cbn in Hsent. lia.
  - cbn [sent] in Hsent. apply app_inv_head in Hsent. injection Hsent as ->.
    rewrite Hnet. unfold callTool_result, handleSSEStream, response_json, response_text, chunks.
    rewrite Hok, Hbody, Herr. cbn [negb].
    destruct (declares _ (js "text/event-stream")); [reflexivity|].
    destruct (declares _ (js "application/json")); [|reflexivity].
    now destruct (JSON_parse _).
Qed.

End ServerTheorems.
(* ================================================================== *)
(** ** The command line *)

Lemma existsb_str_eqb (args : list jsstring) (x : jsstring) :
  existsb (fun a => str_eqb a x) args = true <-> In x args.
Proof.
  rewrite existsb_exists. split.
  - intros (a & Hin & E). apply str_eqb_eq in E. now subst.
  - intros Hin. exists x. split; [exact Hin|apply str_eqb_refl].
Qed.

Lemma indexOf_first (pre post : list jsstring) (x : jsstring) :
  ~ In x pre -> indexOf (pre ++ x :: post) x = Some (List.length pre).
Proof.
  induction pre as [|a pre IH]; intros Hin; cbn [app indexOf List.length].
  - now rewrite str_eqb_refl.
  - destruct (str_eqb a x) eqn:E.
    + apply str_eqb_eq in E. subst. exfalso. apply Hin. now left.
    + rewrite IH; [reflexivity|]. intros H. apply Hin. now right.
Qed.

Section CommandLine.
Context {platform : Platform}.
Variable network : Request -> outcome Response.

(** X20. The exit codes.  [main] exits with 0 exactly when [--help] or
    [-h] is among the arguments, wherever it stands (also where the value
    of [--api-key] is expected), and then it prints the usage and nothing
    else; the only other exit code is 1. *)
Theorem exit_codes (args : list jsstring) (SHOV_API_KEY : option jsstring) :
  (snd (main network args SHOV_API_KEY) = Exited 0
   <-> In (js "--help") args \/ In (js "-h") args)
  /\ (In (js "--help") args \/ In (js "-h") args ->
      fst (main network args SHOV_API_KEY) = [usage])
  /\ (forall code, snd (main network args SHOV_API_KEY) = Exited code ->
        code = 0 \/ code = 1).
Proof.
  unfold main.
  destruct (existsb (fun a => str_eqb a (js "--help")) args
            || existsb (fun a => str_eqb a (js "-h")) args) eqn:E.
  - apply orb_true_iff in E. rewrite !existsb_str_eqb in E. cbn [fst snd].
    split; [tauto|]. split; [reflexivity|]. intros code H. injection H as <-. now left.
  - assert (Hno : ~ (In (js "--help") args \/ In (js "-h") args)).
    { apply orb_false_iff in E as [E1 E2]. intros [H | H]; apply existsb_str_eqb in H;
        congruence. }
    cbv zeta.
    assert (Hone : forall (out : list jsstring * ending),
               (exists o, out = (o, Exited 1)) \/ (exists o st, out = (o, Serving st)) ->
               (snd out = Exited 0 <-> In (js "--help") args \/ In (js "-h") args)
               /\ (In (js "--help") args \/ In (js "-h") args -> fst out = [usage])
               /\ (forall code, snd out = Exited code -> code = 0 \/ code = 1)).
    { intros out [(o & ->) | (o & st & ->)]; cbn [fst snd].
      - split; [split; [discriminate|tauto]|]. split; [tauto|].
        intros code H. injection H as <-. now right.
      - split; [split; [discriminate|tauto]|]. split; [tauto|]. discriminate. }
    apply Hone.
    destruct (nth_error args 0) as [[|d domain']|];
      destruct (match indexOf args (js "--api-key") with
                | Some i => nth_error args (i + 1)
                | None => SHOV_API_KEY
                end) as [[|k apiKey']|];
      try (left; eexists; reflexivity).
    destruct (start network _) as [[[]|e] st]; [right|left]; repeat eexists.
Qed.

(** X21. A flag [--api-key] that stands last, with no value after it,
    hides the environment: the key is reported as missing also when
    [SHOV_API_KEY] is set, and nothing is started. *)
Theorem flag_without_value
  (domain : jsstring) (rest : list jsstring) (SHOV_API_KEY : option jsstring) :
  domain <> [] ->
  ~ In (js "--help") (domain :: rest) ->
  ~ In (js "-h") (domain :: rest) ->
  ~ In (js "--api-key") (domain :: rest) ->
  main network (domain :: rest ++ [js "--api-key"]) SHOV_API_KEY
  = ([js "Error: API key is required (use --api-key or set SHOV_API_KEY env var)" ++ [10];
      usage], Exited 1).
Proof.
  intros Hd Hhelp Hh Hflag. unfold main.
  change (domain :: rest ++ [js "--api-key"]) with ((domain :: rest) ++ [js "--api-key"]).
  set (args := domain :: rest) in *.
  replace (existsb (fun a => str_eqb a (js "--help")) (args ++ [js "--api-key"])) with false.
  2:{ symmetry. rewrite existsb_app. apply orb_false_iff. split; [|reflexivity].
      destruct (existsb _ args) eqn:E; [|reflexivity].
      apply existsb_str_eqb in E. contradiction. }
  replace (existsb (fun a => str_eqb a (js "-h")) (args ++ [js "--api-key"])) with false.
  2:{ symmetry. rewrite existsb_app. apply orb_false_iff. split; [|reflexivity].
      destruct (existsb _ args) eqn:E; [|reflexivity].
      apply existsb_str_eqb in E. contradiction. }
  cbn [orb]. cbv zeta. rewrite (indexOf_first _ [] _ Hflag).
  replace (nth_error (args ++ [js "--api-key"]) (List.length args + 1)) with (@None jsstring).
  2:{ symmetry. apply nth_error_None. rewrite length_app. cbn. lia. }
  subst args. cbn [app nth_error]. destruct domain; [contradiction|reflexivity].
Qed.

(** X22. When [main] leaves a server running, the domain is the first
    argument, whatever it looks like; the key is the argument after the
    first [--api-key], or the value of [SHOV_API_KEY] when there is no
    such flag (the flag wins over the environment); neither is empty;
    the base URL is the domain, with [https://] before it unless it
    begins with [http]; one request was made, for the manifest, and the
    manifest cached has tools.  The only thing printed is the warning for
    a key that does not begin with [pk_], which does not stop the
    start. *)
Theorem server_left_running (args : list jsstring) (SHOV_API_KEY : option jsstring)
  (out : list jsstring) (st : state) :
  main network args SHOV_API_KEY = (out, Serving st) ->
  exists d k m,
    nth_error args 0 = Some d /\ d <> [] /\ k <> []
    /\ match indexOf args (js "--api-key") with
       | Some i => nth_error args (i + 1) = Some k
       | None => SHOV_API_KEY = Some k
       end
    /\ this st = {| domain := d; apiKey := k;
                    baseUrl := if startsWith d (js "http") then d else js "https://" ++ d;
                    manifest := Some m |}
    /\ no_tools (Some m) = false
    /\ sent st = [{| request_url := (if startsWith d (js "http") then d else js "https://" ++ d)
                                      ++ js "/mcp.json";
                     request_method := None;
                     request_headers := [];
                     request_body := None |}]
    /\ out = if startsWith k (js "pk_") then []
             else [js "Warning: API key should start with " ++ [34] ++ js "pk_" ++ [34]
                     ++ js " (project key)"].
Proof.
  unfold main. intros H.
  destruct (_ || _); [discriminate|]. cbv zeta in H.
  destruct (nth_error args 0) as [[|c d]|] eqn:Ed;
    destruct (match indexOf args (js "--api-key") with
              | Some i => nth_error args (i + 1)
              | None => SHOV_API_KEY
              end) as [[|c' k]|] eqn:Ek; try discriminate.
  rewrite start_run in H. cbv zeta in H. cbn [this sent constructor baseUrl domain apiKey] in H.
  destruct (network _) as [r|e]; [|discriminate].
  destruct (negb (ok r)); [discriminate|].
  destruct (response_json r) as [m|e]; [|discriminate].
  destruct (no_tools (Some m)) eqn:Hno; [discriminate|].
  destruct (forallb converts (connected (Some m))); [|discriminate].
  injection H as <- <-. exists (c :: d), (c' :: k), m.
  split; [reflexivity|]. split; [discriminate|]. split; [discriminate|].
  split; [destruct (indexOf args (js "--api-key")); exact Ek|].
  now repeat split.
Qed.

(** X24. A start that fails is reported by [main], after the warning if
    there is one, as a line [Error: <message>] between two line feeds,
    with exit code 1: for a manifest endpoint that cannot be reached the
    message is [Could not connect to <baseUrl>/mcp.json - <cause>], and
    for a manifest without tools it is [No tools found in MCP manifest]. *)
Theorem start_failure_is_reported
  (args : list jsstring) (SHOV_API_KEY : option jsstring) (d k : jsstring) :
  ~ In (js "--help") args ->
  ~ In (js "-h") args ->
  nth_error args 0 = Some d ->
  d <> [] ->
  match indexOf args (js "--api-key") with
  | Some i => nth_error args (i + 1)
  | None => SHOV_API_KEY
  end = Some k ->
  k <> [] ->
  let base := if startsWith d (js "http") then d else js "https://" ++ d in
  let request := {| request_url := base ++ js "/mcp.json";
                    request_method := None;
                    request_headers := [];
                    request_body := None |} in
  let warning := if startsWith k (js "pk_") then []
                 else [js "Warning: API key should start with " ++ [34] ++ js "pk_" ++ [34]
                         ++ js " (project key)"] in
  (forall e, network request = Throw e ->
     main network args SHOV_API_KEY
     = (warning ++ [[10] ++ js "Error: "
                      ++ (js "Could not connect to " ++ base ++ js "/mcp.json - "
                            ++ message e) ++ [10]], Exited 1))
  /\ (forall r m, network request = Return r -> ok r = true ->
        response_json r = Return m -> no_tools (Some m) = true ->
        main network args SHOV_API_KEY
        = (warning ++ [[10] ++ js "Error: " ++ js "No tools found in MCP manifest" ++ [10]],
           Exited 1)).
Proof.
  intros Hhelp Hh Hd Hdne Hk Hkne. cbv zeta.
  assert (Hflags : existsb (fun a => str_eqb a (js "--help")) args
                   || existsb (fun a => str_eqb a (js "-h")) args = false).
  { apply orb_false_iff. split.
    - destruct (existsb _ args) eqn:E; [|reflexivity]. apply existsb_str_eqb in E. contradiction.
    - destruct (existsb _ args) eqn:E; [|reflexivity]. apply existsb_str_eqb in E. contradiction. }
  unfold main. rewrite Hflags. cbv zeta. rewrite Hd, Hk.
  destruct d as [|c d]; [contradiction|]. destruct k as [|c' k]; [contradiction|].
  rewrite start_run. cbv zeta. cbn [this sent constructor baseUrl domain apiKey].
  split.
  - intros e He. rewrite He. cbn [message]. reflexivity.
  - intros r m Hr Hok Hm Hno. rewrite Hr, Hok, Hm, Hno. reflexivity.
Qed.

End CommandLine.
(* ================================================================== *)
(** ** The query string *)

Lemma scalar_values_range (n : nat) :
  forall s, (List.length s <= n)%nat ->
  Forall (fun c => 0 <= c < 65536) s ->
  Forall (fun cp => 0 <= cp < 0x110000) (scalar_values s).
Proof.
  induction n as [|n IH]; intros s Hn Hs.
  - destruct s; [constructor|cbn in Hn; lia].
  - destruct s as [|c t]; [constructor|].
    cbn [List.length] in Hn. inversion Hs as [|? ? Hc Ht]; subst.
    cbn [scalar_values]. destruct (is_lead_surrogate c) eqn:Elead.
    + destruct t as [|d t']; [constructor; [lia|constructor]|].
      destruct (is_trail_surrogate d) eqn:Etrail.
      * constructor; [now apply surrogate_pair_range|].
        inversion Ht; subst. apply IH; [cbn [List.length] in Hn; lia|assumption].
      * constructor; [lia|]. apply IH; [lia|assumption].
    + destruct (is_trail_surrogate c); (constructor; [lia|apply IH; [lia|assumption]]).
Qed.

Lemma hex_digit_alnum (d : Z) : 0 <= d < 16 -> is_alnum (hex_digit true d) = true.
Proof.
  intros H.
  assert (Hd : d = 0 \/ d = 1 \/ d = 2 \/ d = 3 \/ d = 4 \/ d = 5 \/ d = 6 \/ d = 7 \/ d = 8
               \/ d = 9 \/ d = 10 \/ d = 11 \/ d = 12 \/ d = 13 \/ d = 14 \/ d = 15) by lia.
  repeat destruct Hd as [-> | Hd]; try reflexivity. subst; reflexivity.
Qed.

Lemma form_urlencode_safe (s : jsstring) :
  Forall (fun c => 0 <= c < 65536) s ->
  Forall (fun c => form_safe c = true) (form_urlencode s).
Proof.
  intros Hs. unfold form_urlencode. apply Forall_flat_map.
  assert (Hoctets : Forall (fun o => 0 <= o < 256) (flat_map utf8_octets (scalar_values s))).
  { apply Forall_flat_map.
    eapply Forall_impl; [|exact (scalar_values_range _ s (le_n _) Hs)].
    intros cp Hcp. now apply utf8_octets_range. }
  eapply Forall_impl; [|exact Hoctets]. intros o Ho. cbv beta in Ho |- *.
  destruct (is_alnum o || existsb (Z.eqb o) [42; 45; 46; 95]) eqn:E.
  - constructor; [|constructor]. unfold form_safe.
    apply orb_true_iff in E as [-> | E]; [reflexivity|].
    cbn [existsb] in E |- *. rewrite !orb_true_iff in E. rewrite !orb_true_iff.
    intuition.
  - destruct (o =? 32); [now repeat constructor|].
    cbn [percent_octets flat_map app]. unfold form_safe.
    constructor; [reflexivity|].
    constructor; [now rewrite hex_digit_alnum by (apply (shiftr_bound o 4 16); lia)|].
    constructor; [|constructor].
    rewrite hex_digit_alnum; [reflexivity|].
    change 15 with (Z.ones 4). apply (land_bound o 4). lia.
Qed.

Lemma form_safe_count (x : Z) (s : jsstring) :
  form_safe x = false ->
  Forall (fun c => form_safe c = true) s -> count_occ Z.eq_dec s x = 0%nat.
Proof.
  intros Hx Hs. apply count_occ_not_In. intros Hin.
  rewrite Forall_forall in Hs. specialize (Hs x Hin). congruence.
Qed.

Lemma list_sum_cons (a : nat) (l : list nat) : list_sum (a :: l) = (a + list_sum l)%nat.
Proof. reflexivity. Qed.

Lemma count_join (sep x : Z) (ps : list jsstring) :
  count_occ Z.eq_dec (join [sep] ps) x
  = (list_sum (map (fun p => count_occ Z.eq_dec p x) ps)
     + (if Z.eq_dec sep x then pred (List.length ps) else 0))%nat.
Proof.
  induction ps as [|p [|q rest] IH].
  - cbn. now destruct (Z.eq_dec sep x).
  - cbn [join map List.length pred]. rewrite list_sum_cons. cbn [list_sum fold_right]. destruct (Z.eq_dec sep x); lia.
  - change (join [sep] (p :: q :: rest)) with (p ++ [sep] ++ join [sep] (q :: rest)).
    rewrite !count_occ_app, IH. cbn [count_occ map List.length pred]. rewrite !list_sum_cons.
    destruct (Z.eq_dec sep x) as [e|e]; destruct (Z.eq_dec sep x); try contradiction; lia.
Qed.

Lemma to_usv_range (n : nat) :
  forall s, (List.length s <= n)%nat ->
  Forall (fun c => 0 <= c < 65536) s -> Forall (fun c => 0 <= c < 65536) (to_usv s).
Proof.
  induction n as [|n IH]; intros s Hn Hs.
  - destruct s; [constructor|cbn in Hn; lia].
  - destruct s as [|c t]; [constructor|].
    cbn [List.length] in Hn. inversion Hs as [|? ? Hc Ht]; subst.
    cbn [to_usv]. destruct (is_lead_surrogate c).
    + destruct t as [|d t']; [constructor; [lia|constructor]|].
      inversion Ht as [|? ? Hd Ht']; subst. cbn [List.length] in Hn.
      destruct (is_trail_surrogate d).
      * constructor; [exact Hc|]. constructor; [exact Hd|]. apply IH; [lia|exact Ht'].
      * constructor; [lia|]. apply IH; [cbn [List.length]; lia|exact Ht].
    + destruct (is_trail_surrogate c); (constructor; [lia|apply IH; [lia|exact Ht]]).
Qed.

Lemma entries_set_new (name value : jsstring) (entries : list (jsstring * jsstring)) :
  ~ In name (map fst entries) -> entries_set name value entries = entries ++ [(name, value)].
Proof.
  induction entries as [|[name' value'] entries IH]; intros H; [reflexivity|].
  cbn [entries_set app]. cbn [map fst] in H.
  destruct (str_eqb name' name) eqn:E.
  - apply str_eqb_eq in E. exfalso. apply H. now left.
  - rewrite IH; [reflexivity|]. intros Hin. apply H. now right.
Qed.

Section QueryString.
Context {platform : Platform}.

(** Without a key [__proto__] the three objects inherit what they did. *)
Lemma separate_all_protos (method : option json) (entries : object) :
  ~ In (js "__proto__") (Object_keys entries) ->
  forall p p', separate_all method p entries = Return p' ->
  pathProto p' = pathProto p /\ queryProto p' = queryProto p /\ bodyProto p' = bodyProto p.
Proof.
  induction entries as [|[key value] rest IH]; intros Hno p p' H; cbn [separate_all] in H.
  - now injection H as <-.
  - destruct (separate method p (key, value)) as [p1|] eqn:E; [|discriminate].
    assert (Hk : key <> js "__proto__") by (intros ->; apply Hno; now left).
    destruct (IH (fun Hr => Hno (or_intror Hr)) _ _ H) as (-> & -> & ->).
    apply separate_cases in E
      as [(_ & _ & E & _ & _ & -> & ->) | [(_ & _ & _ & _ & E & _ & -> & ->)
                                         | (_ & _ & _ & _ & _ & E & -> & ->)]];
      rewrite (assign_other _ _ _ _ Hk) in E; now injection E as _ ->.
Qed.

(** The record of an object whose keys stay distinct as strings of scalar
    values has one entry for each property. *)
Lemma record_entries_distinct (Q : jsstring * jsstring -> Prop) (own : object) :
  (forall k v s, In (k, v) own -> ToString v = Return s -> Q (to_usv k, to_usv s)) ->
  forall entries r,
  NoDup (map fst entries ++ map to_usv (Object_keys own)) ->
  Forall Q entries ->
  record_entries own entries = Return r ->
  List.length r = (List.length entries + List.length own)%nat /\ Forall Q r.
Proof.
  induction own as [|[k v] own IH]; intros HQ entries r Hnd Hall H;
    cbn [record_entries] in H.
  - injection H as <-. split; [cbn; lia|exact Hall].
  - destruct (ToString v) as [s|] eqn:Es; [|discriminate].
    cbn [Object_keys map fst] in Hnd.
    rewrite entries_set_new in H.
    2:{ apply NoDup_remove_2 in Hnd. intros Hin. apply Hnd, in_or_app. now left. }
    apply IH in H as [Hlen Hr].
    + split; [|exact Hr]. rewrite Hlen, length_app. cbn [List.length]. lia.
    + intros k' v' s' Hin. apply HQ. now right.
    + rewrite map_app. cbn [map fst]. rewrite <- app_assoc. exact Hnd.
    + apply Forall_app. split; [exact Hall|]. constructor; [|constructor].
      apply (HQ k v s); [now left|exact Es].
Qed.

Lemma URLSearchParams_serialize_shape (entries : list (jsstring * jsstring)) :
  Forall (fun nv => Forall (fun c => 0 <= c < 65536) (fst nv)
                    /\ Forall (fun c => 0 <= c < 65536) (snd nv)) entries ->
  Forall (fun c => form_safe c = true \/ c = 61 \/ c = 38) (URLSearchParams_serialize entries)
  /\ count_occ Z.eq_dec (URLSearchParams_serialize entries) 61 = List.length entries
  /\ count_occ Z.eq_dec (URLSearchParams_serialize entries) 38 = pred (List.length entries).
Proof.
  intros Hall. unfold URLSearchParams_serialize.
  set (pair := fun nv : jsstring * jsstring =>
                 form_urlencode (fst nv) ++ 61 :: form_urlencode (snd nv)).
  assert (Hparts : Forall (fun p => Forall (fun c => form_safe c = true \/ c = 61) p
                                    /\ count_occ Z.eq_dec p 61 = 1%nat
                                    /\ count_occ Z.eq_dec p 38 = 0%nat) (map pair entries)).
  { induction Hall as [|[name value] entries [Hn Hv] _ IH]; [constructor|].
    cbn [fst snd] in Hn, Hv. cbn [map]. constructor; [|exact IH]. unfold pair. cbn [fst snd].
    pose proof (form_urlencode_safe _ Hn) as Sn.
    pose proof (form_urlencode_safe _ Hv) as Sv.
    split; [|split].
    - apply Forall_app. split; [|constructor; [now right|]];
        (eapply Forall_impl; [|eassumption]); intros c Hc; now left.
    - rewrite count_occ_app. cbn [count_occ].
      rewrite !(form_safe_count 61) by (assumption || reflexivity).
      now destruct (Z.eq_dec 61 61).
    - rewrite count_occ_app. cbn [count_occ].
      rewrite !(form_safe_count 38) by (assumption || reflexivity).
      now destruct (Z.eq_dec 61 38). }
  rewrite <- (length_map pair entries). clear Hall.
  generalize dependent (map pair entries). intros ps Hparts. split; [|split].
  - induction Hparts as [|p [|p' rest] (Hp & _) Hrest IH]; [constructor| |].
    + cbn [join]. eapply Forall_impl; [|exact Hp]. intros c Hc. cbv beta in *. tauto.
    + change (join [38] (p :: p' :: rest)) with (p ++ [38] ++ join [38] (p' :: rest)).
      apply Forall_app. split.
      * eapply Forall_impl; [|exact Hp]. intros c Hc. cbv beta in *. tauto.
      * constructor; [tauto|exact IH].
  - rewrite count_join. destruct (Z.eq_dec 38 61) as [|_]; [discriminate|].
    rewrite Nat.add_0_r. induction Hparts as [|p ps (_ & H61 & _) _ IH]; [reflexivity|].
    cbn [map List.length]. rewrite list_sum_cons. lia.
  - rewrite count_join. destruct (Z.eq_dec 38 38) as [_|]; [|contradiction].
    replace (list_sum _) with 0%nat; [reflexivity|].
    induction Hparts as [|p ps (_ & _ & H38) _ IH]; [reflexivity|].
    cbn [map]. rewrite list_sum_cons. lia.
Qed.

(** X23. For an argument map without a key [__proto__] whose keys are
    distinct as strings of scalar values (as they are when no key has a
    lone surrogate), the query string that follows [?] in the URL of the
    request is written with letters, digits, [* - . _ + %] and the two
    separators only, and it has one [=] for each query parameter and one
    [&] between two of them: whatever a name or a value holds ([&], [=],
    [#], [?], a space, ...) it cannot add a parameter, end the query or
    change another parameter. *)
Theorem query_parameters_cannot_be_forged
  (self : ShovMCPServer) (url : jsstring) (method : option json) (args : object)
  (p : parameters) (request : Request) :
  NoDup (map to_usv (Object_keys args)) ->
  ~ In (js "__proto__") (Object_keys args) ->
  Forall (fun kv => Forall (fun c => 0 <= c < 65536) (fst kv)
                    /\ forall t, ToString (snd kv) = Return t ->
                                 Forall (fun c => 0 <= c < 65536) t) args ->
  classify url method args = Return p ->
  queryParams p <> [] ->
  build_request self method p = Return request ->
  exists query,
    request_url request = requestUrl p ++ js "?" ++ query
    /\ Forall (fun c => form_safe c = true \/ c = 61 \/ c = 38) query
    /\ count_occ Z.eq_dec query 61 = List.length (queryParams p)
    /\ count_occ Z.eq_dec query 38 = pred (List.length (queryParams p)).
Proof.
  intros Husv Hproto Hargs Hc Hne H.
  pose proof (NoDup_map_inv _ _ Husv) as Hnd.
  destruct (classify_nodup _ _ _ _ Hnd Hc) as [_ Hperm]. specialize (Hperm Hproto).
  destruct (separate_all_protos _ _ Hproto _ _ Hc) as (_ & Hqproto & _).
  cbn [unclassified queryProto] in Hqproto.
  assert (Hquery : Forall (fun kv => Forall (fun c => 0 <= c < 65536) (fst kv)
                                     /\ forall t, ToString (snd kv) = Return t ->
                                                  Forall (fun c => 0 <= c < 65536) t)
                          (queryParams p)).
  { apply (Permutation_Forall (Permutation_sym Hperm)) in Hargs. unfold classified in Hargs.
    apply Forall_app in Hargs as [_ Hargs]. now apply Forall_app in Hargs as [Hargs _]. }
  assert (Hdistinct : NoDup (map to_usv (Object_keys (queryParams p)))).
  { apply (Permutation_map fst), (Permutation_map to_usv) in Hperm.
    apply (Permutation_NoDup (Permutation_sym Hperm)) in Husv.
    unfold classified in Husv. rewrite !map_app in Husv.
    apply NoDup_app_remove_l in Husv. now apply NoDup_app_remove_r in Husv. }
  unfold build_request in H.
  destruct (queryParams p) as [|kv q] eqn:Eq; [contradiction|].
  cbn [Object_keys map] in H.
  destruct (URLSearchParams_toString (queryProto p) (kv :: q)) as [query|] eqn:Es;
    [|discriminate].
  injection H as <-. exists query. split; [reflexivity|].
  unfold URLSearchParams_toString, URLSearchParams_new in Es. rewrite Hqproto in Es.
  destruct (record_entries (kv :: q) []) as [entries|] eqn:Er; [|discriminate].
  injection Es as <-.
  destruct (record_entries_distinct
              (fun nv => Forall (fun c => 0 <= c < 65536) (fst nv)
                         /\ Forall (fun c => 0 <= c < 65536) (snd nv))
              (kv :: q)) with (entries := @nil (jsstring * jsstring)) (r := entries)
    as [Hlen Hall]; try assumption; [|constructor|].
  - intros k v s Hin Hs. rewrite Forall_forall in Hquery.
    destruct (Hquery _ Hin) as [Hk Hv]. cbn [fst snd] in *.
    split; apply (to_usv_range _ _ (le_n _)); [exact Hk|now apply Hv].
  - cbn [Nat.add List.length] in Hlen. change (S (List.length q)) with (List.length (kv :: q)) in Hlen.
    rewrite <- Hlen.
    now apply URLSearchParams_serialize_shape.
Qed.

End QueryString.

(* ================================================================== *)
(** ** What is written as JSON reads back *)

(** Induction on a JSON value, with the property at hand for the items of
    an array and for the values of an object. *)
Lemma json_induction (P : json -> Prop) :
  P JNull -> (forall b, P (JBool b)) -> (forall n, P (JNum n)) -> (forall s, P (JStr s)) ->
  (forall items, Forall P items -> P (JArr items)) ->
  (forall props, Forall (fun kv => P (snd kv)) props -> P (JObj props)) ->
  forall v, P v.
Proof.
  intros Hnull Hbool Hnum Hstr Harr Hobj. fix IH 1. intros [| b | n | s | items | props].
  - exact Hnull.
  - apply Hbool.
  - apply Hnum.
  - apply Hstr.
  - apply Harr. revert items. fix IHitems 1. intros [|x rest]; constructor.
    + apply IH.
    + apply IHitems.
  - apply Hobj. revert props. fix IHprops 1. intros [|[k x] rest]; constructor.
    + apply IH.
    + apply IHprops.
Qed.

Lemma hex_value_hex_digit (d : Z) : 0 <= d < 16 -> hex_value (hex_digit false d) = Some d.
Proof.
  intros H.
  assert (Hd : d = 0 \/ d = 1 \/ d = 2 \/ d = 3 \/ d = 4 \/ d = 5 \/ d = 6 \/ d = 7 \/ d = 8
               \/ d = 9 \/ d = 10 \/ d = 11 \/ d = 12 \/ d = 13 \/ d = 14 \/ d = 15) by lia.
  repeat destruct Hd as [-> | Hd]; try reflexivity. subst; reflexivity.
Qed.

Lemma hex4_escape (c : Z) :
  0 <= c < 65536 ->
  hex4 (hex_digit false (Z.land (Z.shiftr c 12) 15)) (hex_digit false (Z.land (Z.shiftr c 8) 15))
       (hex_digit false (Z.land (Z.shiftr c 4) 15)) (hex_digit false (Z.land (Z.shiftr c 0) 15))
  = Some c.
Proof.
  intros Hc. unfold hex4. change 15 with (Z.ones 4).
  rewrite !hex_value_hex_digit by (apply land_bound; lia).
  f_equal. rewrite !Z.land_ones, !Z.shiftr_div_pow2 by lia.
  change (2 ^ 12) with 4096. change (2 ^ 8) with 256. change (2 ^ 4) with 16.
  change (2 ^ 0) with 1. rewrite Z.div_1_r.
  Z.to_euclidean_division_equations. lia.
Qed.

(** A string literal is read back as the string it was written from. *)
Lemma string_body_quote (n : nat) :
  forall s rest, (List.length s <= n)%nat ->
  Forall (fun c => 0 <= c < 65536) s ->
  string_body (quote_chars s ++ 34 :: rest) = Some (s, rest).
Proof.
  induction n as [|n IH]; intros s rest Hn Hs.
  - destruct s; [|cbn in Hn; lia]. cbn. reflexivity.
  - destruct s as [|c t]; [reflexivity|].
    cbn [List.length] in Hn. inversion Hs as [|? ? Hc Ht]; subst.
    assert (Hescape : forall tail,
               (c <? 32) = true \/ is_lead_surrogate c = true \/ is_trail_surrogate c = true ->
               string_body tail = Some (t, rest) ->
               string_body (([92; 117] ++ map (fun k => hex_digit false (Z.land (Z.shiftr c k) 15))
                                              [12; 8; 4; 0]) ++ tail)
               = Some (c :: t, rest)).
    { intros tail _ Htail. cbn [map app string_body].
      change (92 =? 34) with false. change (92 =? 92) with true. change (117 =? 117) with true.
      cbv iota. rewrite (hex4_escape c Hc), Htail. reflexivity. }
    assert (Hplain : forall u tail,
               (u =? 34) = false -> (u =? 92) = false -> (u <? 32) = false ->
               forall body, string_body tail = Some (body, rest) ->
               string_body (u :: tail) = Some (u :: body, rest)).
    { intros u tail H34 H92 H32 body Htail. cbn [string_body].
      now rewrite H34, H92, H32, Htail. }
    assert (IHt : string_body (quote_chars t ++ 34 :: rest) = Some (t, rest))
      by (apply IH; [lia|assumption]).
    cbn [quote_chars].
    destruct ((c =? 34) || (c =? 92)) eqn:Equote.
    { cbn [app string_body]. change (92 =? 34) with false. change (92 =? 92) with true.
      cbv iota. apply orb_true_iff in Equote as [E | E]; apply Z.eqb_eq in E; subst c;
        cbn; now rewrite IHt. }
    apply orb_false_iff in Equote as [E34 E92].
    destruct (c =? 8) eqn:E8; [apply Z.eqb_eq in E8; subst c; cbn; now rewrite IHt|].
    destruct (c =? 12) eqn:E12; [apply Z.eqb_eq in E12; subst c; cbn; now rewrite IHt|].
    destruct (c =? 10) eqn:E10; [apply Z.eqb_eq in E10; subst c; cbn; now rewrite IHt|].
    destruct (c =? 13) eqn:E13; [apply Z.eqb_eq in E13; subst c; cbn; now rewrite IHt|].
    destruct (c =? 9) eqn:E9; [apply Z.eqb_eq in E9; subst c; cbn; now rewrite IHt|].
    destruct (c <? 32) eqn:E32; [apply Hescape; [now left|exact IHt]|].
    destruct (is_lead_surrogate c) eqn:Elead.
    + destruct t as [|d t'].
      * rewrite <- (app_nil_r (_ ++ map _ _)) at 1. rewrite <- app_assoc.
        apply Hescape; [tauto|reflexivity].
      * destruct (is_trail_surrogate d) eqn:Etrail; [|apply Hescape; [tauto|exact IHt]].
        inversion Ht as [|? ? Hd Ht']; subst.
        assert (Hd32 : 0xDC00 <= d <= 0xDFFF)
          by (unfold is_trail_surrogate in Etrail; lia).
        cbn [app]. apply Hplain; [lia..|].
        apply Hplain; [lia..|]. apply IH; [cbn [List.length] in Hn; lia|assumption].
    + destruct (is_trail_surrogate c) eqn:Etrail; [apply Hescape; [tauto|exact IHt]|].
      cbn [app]. apply Hplain; assumption.
Qed.

Lemma digits_app (s rest : jsstring) :
  delimited rest ->
  digits (s ++ rest) = (fst (digits s), snd (digits s) ++ rest).
Proof.
  intros Hrest. induction s as [|c t IH]; cbn [app digits].
  - destruct rest as [|c r]; [reflexivity|]. cbn [digits delimited] in *.
    replace (is_digit c) with false by (destruct Hrest as [-> | [-> | [-> | ->]]]; reflexivity).
    reflexivity.
  - destruct (is_digit c); [|reflexivity].
    rewrite IH. now destruct (digits t).
Qed.

Lemma integer_part_app (s rest a r : jsstring) :
  delimited rest ->
  integer_part s = Some (a, r) -> integer_part (s ++ rest) = Some (a, r ++ rest).
Proof.
  intros Hrest. destruct s as [|d t]; [discriminate|]. cbn [app integer_part].
  destruct (negb (is_digit d)); [discriminate|].
  destruct (d =? 48); [intros H; now injection H as <- <-|].
  rewrite (digits_app _ _ Hrest). destruct (digits t) as [ds r'].
  intros H. now injection H as <- <-.
Qed.

Lemma fraction_part_app (s rest a r : jsstring) :
  delimited rest ->
  fraction_part s = Some (a, r) -> fraction_part (s ++ rest) = Some (a, r ++ rest).
Proof.
  intros Hrest. destruct s as [|c t].
  - intros H. injection H as <- <-. destruct rest as [|c r]; [reflexivity|].
    cbn [app fraction_part delimited] in *.
    replace (c =? 46) with false by (destruct Hrest as [-> | [-> | [-> | ->]]]; reflexivity).
    reflexivity.
  - cbn [app fraction_part]. destruct (c =? 46); [|intros H; now injection H as <- <-].
    rewrite (digits_app _ _ Hrest). destruct (digits t) as [[|d ds] r']; [discriminate|].
    intros H. now injection H as <- <-.
Qed.

Lemma exponent_part_app (s rest a r : jsstring) :
  delimited rest ->
  exponent_part s = Some (a, r) -> exponent_part (s ++ rest) = Some (a, r ++ rest).
Proof.
  intros Hrest. destruct s as [|c t].
  - intros H. injection H as <- <-. destruct rest as [|c r]; [reflexivity|].
    cbn [app exponent_part delimited] in *.
    replace ((c =? 101) || (c =? 69)) with false
      by (destruct Hrest as [-> | [-> | [-> | ->]]]; reflexivity).
    reflexivity.
  - cbn [app exponent_part]. destruct ((c =? 101) || (c =? 69));
      [|intros H; now injection H as <- <-].
    destruct t as [|g t'].
    + cbn [digits]. discriminate.
    + cbn [app]. destruct ((g =? 43) || (g =? 45)).
      * rewrite (digits_app _ _ Hrest). destruct (digits t') as [[|d ds] r']; [discriminate|].
        intros H. now injection H as <- <-.
      * change (g :: t' ++ rest) with ((g :: t') ++ rest).
        rewrite (digits_app _ _ Hrest). destruct (digits (g :: t')) as [[|d ds] r'];
          [discriminate|].
        intros H. now injection H as <- <-.
Qed.

Lemma number_literal_app (s rest lit r : jsstring) :
  delimited rest ->
  number_literal s = Some (lit, r) -> number_literal (s ++ rest) = Some (lit, r ++ rest).
Proof.
  intros Hrest. unfold number_literal.
  assert (Hsign : minus_sign (s ++ rest) = (fst (minus_sign s), snd (minus_sign s) ++ rest)
                  \/ s = []).
  { destruct s as [|c t]; [now right|left]. cbn [app minus_sign]. now destruct (c =? 45). }
  destruct Hsign as [Hsign | ->]; [|discriminate].
  rewrite Hsign. destruct (minus_sign s) as [sign s1]. cbn [fst snd].
  destruct (integer_part s1) as [[int s2]|] eqn:Ei; [|discriminate].
  rewrite (integer_part_app _ _ _ _ Hrest Ei).
  destruct (fraction_part s2) as [[frac s3]|] eqn:Ef; [|discriminate].
  rewrite (fraction_part_app _ _ _ _ Hrest Ef).
  destruct (exponent_part s3) as [[exp s4]|] eqn:Ee; [|discriminate].
  rewrite (exponent_part_app _ _ _ _ Hrest Ee).
  intros H. now injection H as <- <-.
Qed.

(** A number literal begins with a digit or a minus sign. *)
Lemma number_literal_head (s lit r : jsstring) :
  number_literal s = Some (lit, r) ->
  exists c t, s = c :: t /\ (c = 45 \/ is_digit c = true).
Proof.
  unfold number_literal. destruct s as [|c t]; [discriminate|].
  intros H. exists c, t. split; [reflexivity|]. cbn [minus_sign] in H.
  destruct (c =? 45) eqn:E; [left; now apply Z.eqb_eq|right].
  cbn [integer_part] in H. now destruct (is_digit c).
Qed.

(** More fuel does not change what the parser returns. *)
Lemma parse_more_fuel (f : nat) :
  forall g, (f <= g)%nat ->
  (forall s, parse_value f s <> OutOfFuel -> parse_value g s = parse_value f s)
  /\ (forall s acc, parse_elements f s acc <> OutOfFuel ->
        parse_elements g s acc = parse_elements f s acc)
  /\ (forall s acc, parse_members f s acc <> OutOfFuel ->
        parse_members g s acc = parse_members f s acc).
Proof.
  induction f as [|f IH]; intros g Hg.
  - repeat split; intros; cbn in *; congruence.
  - destruct g as [|g]; [lia|]. destruct (IH g ltac:(lia)) as (IHv & IHe & IHm).
    repeat split.
    + intros s H. cbn [parse_value] in H |- *.
      destruct (skip_ws s) as [|c t]; [reflexivity|].
      destruct (c =? 123).
      { destruct (skip_ws t) as [|c' t']; [reflexivity|].
        destruct (c' =? 125); [reflexivity|]. now apply IHm. }
      destruct (c =? 91).
      { destruct (skip_ws t) as [|c' t']; [reflexivity|].
        destruct (c' =? 93); [reflexivity|]. now apply IHe. }
      reflexivity.
    + intros s acc H. cbn [parse_elements] in H |- *.
      destruct (parse_value f s) as [v rest| |] eqn:E; [| |congruence].
      * rewrite (IHv s) by congruence. rewrite E.
        destruct (skip_ws rest) as [|c t]; [reflexivity|].
        destruct (c =? 44); [now apply IHe|reflexivity].
      * rewrite (IHv s) by congruence. now rewrite E.
    + intros s acc H. cbn [parse_members] in H |- *.
      destruct s as [|q t]; [reflexivity|].
      destruct (q =? 34); [|reflexivity].
      destruct (string_body t) as [[key rest]|]; [|reflexivity].
      destruct (skip_ws rest) as [|c t1]; [reflexivity|].
      destruct (c =? 58); [|reflexivity].
      destruct (parse_value f t1) as [v rest'| |] eqn:E; [| |congruence].
      * rewrite (IHv t1) by congruence. rewrite E.
        destruct (skip_ws rest') as [|c' t2]; [reflexivity|].
        destruct (c' =? 44); [now apply IHm|reflexivity].
      * rewrite (IHv t1) by congruence. now rewrite E.
Qed.

Section ReadsBack.
Context {platform : Platform}.

Lemma stringify_head (v : json) :
  plain v ->
  exists c t, JSON_stringify v = c :: t
              /\ is_ws c = false /\ c <> 93 /\ c <> 125.
Proof.
  intros Hv. destruct Hv as [| b | n (Hlit & Hfin & Hstr) | s _ | items _ | props _ _].
  - exists 110, (js "ull"). now repeat split.
  - destruct b; [exists 116, (js "rue")|exists 102, (js "alse")]; now repeat split.
  - cbn [JSON_stringify]. rewrite Hfin, Hstr.
    destruct (number_literal_head _ _ _ Hlit) as (c & t & -> & Hc).
    exists c, t. split; [reflexivity|].
    assert (Hr : c = 45 \/ 48 <= c <= 57)
      by (destruct Hc as [-> | Hc]; [now left|right; unfold is_digit in Hc; lia]).
    unfold is_ws. repeat split; lia.
  - exists 34, (quote_chars s ++ [34]). now repeat split.
  - eexists 91, _. now repeat split.
  - eexists 123, _. now repeat split.
Qed.

Lemma reads_literal (v : json) (text : jsstring) :
  JSON_stringify v = text ->
  (forall rest, parse_value 1 (text ++ rest) = Parsed v rest) ->
  reads v.
Proof.
  intros Ht H rest _. exists 1%nat. intros f Hf. rewrite Ht.
  rewrite (proj1 (parse_more_fuel 1 f Hf)); [apply H|]. rewrite H. discriminate.
Qed.

Lemma reads_number (n : jsstring) : plain_number n -> reads (JNum n).
Proof.
  intros (Hlit & Hfin & Hstr) rest Hrest. exists 1%nat. intros f Hf.
  destruct f as [|f]; [lia|]. cbn [JSON_stringify]. rewrite Hfin, Hstr.
  pose proof (number_literal_app _ _ _ _ Hrest Hlit) as Happ.
  destruct (number_literal_head _ _ _ Hlit) as (c & t & -> & Hc).
  assert (Hr : c = 45 \/ 48 <= c <= 57)
    by (destruct Hc as [-> | Hc]; [now left|right; unfold is_digit in Hc; lia]).
  cbn [parse_value app skip_ws].
  replace (is_ws c) with false
    by (symmetry; unfold is_ws; repeat (apply orb_false_iff; split); apply Z.eqb_neq; lia).
  replace (c =? 123) with false by (symmetry; apply Z.eqb_neq; lia).
  replace (c =? 91) with false by (symmetry; apply Z.eqb_neq; lia).
  replace (c =? 34) with false by (symmetry; apply Z.eqb_neq; lia).
  cbn [startsWith js list_ascii_of_string map]. 
  assert (Hstart : forall p, In p [js "true"; js "false"; js "null"] ->
                             startsWith (c :: t ++ rest) p = false).
  { intros p [<- | [<- | [<- | []]]]; cbn [startsWith];
      apply andb_false_iff; left; apply Z.eqb_neq; cbn; lia. }
  rewrite !Hstart by (cbn; tauto).
  change (c :: t ++ rest) with ((c :: t) ++ rest). now rewrite Happ.
Qed.

Lemma reads_string (s : jsstring) :
  Forall (fun c => 0 <= c < 65536) s -> reads (JStr s).
Proof.
  intros Hs rest _. exists 1%nat. intros f Hf. destruct f as [|f]; [lia|].
  cbn [JSON_stringify]. unfold QuoteJSONString.
  change ((34 :: quote_chars s ++ [34]) ++ rest) with (34 :: (quote_chars s ++ [34]) ++ rest).
  rewrite <- app_assoc. cbn [app].
  change (parse_value (S f) (34 :: quote_chars s ++ 34 :: rest))
    with (match string_body (quote_chars s ++ 34 :: rest) with
          | Some (str, rest') => Parsed (JStr str) rest'
          | None => Malformed
          end).
  now rewrite (string_body_quote _ s rest (le_n _) Hs).
Qed.

Lemma skip_ws_head (c : Z) (t : jsstring) : is_ws c = false -> skip_ws (c :: t) = c :: t.
Proof. intros H. cbn [skip_ws]. now rewrite H. Qed.

Lemma parse_elements_join (items : list json) :
  Forall reads items -> items <> [] ->
  forall acc rest,
  exists f0, forall f, (f0 <= f)%nat ->
    parse_elements f (join [44] (map JSON_stringify items) ++ 93 :: rest) acc
    = Parsed (JArr (rev acc ++ items)) rest.
Proof.
  induction 1 as [|x items Hx Hitems IH]; intros Hne acc rest; [contradiction|].
  destruct items as [|y more].
  - destruct (Hx (93 :: rest)) as [f0 Hf0]; [cbn; tauto|].
    exists (S f0). intros f Hf. destruct f as [|f]; [lia|].
    cbn [map join parse_elements]. rewrite Hf0 by lia.
    cbn [skip_ws]. change (is_ws 93) with false. cbv iota.
    change (93 =? 44) with false. change (93 =? 93) with true. cbv iota.
    cbn [rev]. reflexivity.
  - destruct (Hx (44 :: join [44] (map JSON_stringify (y :: more)) ++ 93 :: rest))
      as [f0 Hf0]; [cbn; tauto|].
    destruct (IH ltac:(discriminate) (x :: acc) rest) as [f1 Hf1].
    exists (S (Nat.max f0 f1)). intros f Hf. destruct f as [|f]; [lia|].
    change (join [44] (map JSON_stringify (x :: y :: more)))
      with (JSON_stringify x ++ [44] ++ join [44] (map JSON_stringify (y :: more))).
    rewrite <- !app_assoc. cbn [app parse_elements]. rewrite Hf0 by lia.
    cbn [skip_ws]. change (is_ws 44) with false. cbv iota.
    change (44 =? 44) with true. cbv iota.
    rewrite Hf1 by lia. cbn [rev]. now rewrite <- app_assoc.
Qed.

Lemma parse_members_join (props : object) :
  Forall (fun kv => Forall (fun c => 0 <= c < 65536) (fst kv) /\ reads (snd kv)) props ->
  props <> [] ->
  forall acc rest,
  exists f0, forall f, (f0 <= f)%nat ->
    parse_members f
      (join [44] (map (fun kv => QuoteJSONString (fst kv) ++ 58 :: JSON_stringify (snd kv))
                      props) ++ 125 :: rest) acc
    = Parsed (JObj (fold_left (fun acc kv => obj_set (fst kv) (snd kv) acc) props acc)) rest.
Proof.
  induction 1 as [|[k x] props [Hk Hx] Hprops IH]; intros Hne acc rest; [contradiction|].
  cbn [fst snd] in Hk, Hx.
  assert (Hmember : forall tail,
             (QuoteJSONString k ++ 58 :: JSON_stringify x) ++ tail
             = 34 :: quote_chars k ++ 34 :: 58 :: JSON_stringify x ++ tail).
  { intros tail. unfold QuoteJSONString. cbn [app]. rewrite <- !app_assoc. reflexivity. }
  assert (Hstep : forall f tail,
             parse_members (S f) (34 :: quote_chars k ++ 34 :: 58 :: tail) acc
             = match parse_value f tail with
               | Parsed v rest' =>
                   match skip_ws rest' with
                   | c' :: t2 =>
                       if c' =? 44 then parse_members f (skip_ws t2) (obj_set k v acc)
                       else if c' =? 125 then Parsed (JObj (obj_set k v acc)) t2
                       else Malformed
                   | [] => Malformed
                   end
               | Malformed => Malformed
               | OutOfFuel => OutOfFuel
               end).
  { intros f tail. cbn [parse_members]. change (34 =? 34) with true. cbv iota.
    rewrite (string_body_quote _ k (58 :: tail) (le_n _) Hk).
    cbn [skip_ws]. change (is_ws 58) with false. cbv iota.
    change (58 =? 58) with true. reflexivity. }
  destruct props as [|[k' y] more].
  - destruct (Hx (125 :: rest)) as [f0 Hf0]; [cbn; tauto|].
    exists (S f0). intros f Hf. destruct f as [|f]; [lia|].
    cbn [map join fst snd]. rewrite Hmember, Hstep, Hf0 by lia.
    cbn [skip_ws]. change (is_ws 125) with false. cbv iota.
    change (125 =? 44) with false. change (125 =? 125) with true. reflexivity.
  - set (others := join [44] (map (fun kv => QuoteJSONString (fst kv)
                                               ++ 58 :: JSON_stringify (snd kv))
                                  ((k', y) :: more))) in *.
    destruct (Hx (44 :: others ++ 125 :: rest)) as [f0 Hf0]; [cbn; tauto|].
    destruct (IH ltac:(discriminate) (obj_set k x acc) rest) as [f1 Hf1].
    exists (S (Nat.max f0 f1)). intros f Hf. destruct f as [|f]; [lia|].
    change (join [44] (map (fun kv => QuoteJSONString (fst kv)
                                        ++ 58 :: JSON_stringify (snd kv))
                           ((k, x) :: (k', y) :: more)))
      with ((QuoteJSONString k ++ 58 :: JSON_stringify x) ++ [44] ++ others).
    rewrite <- app_assoc, Hmember. cbn [app]. rewrite Hstep, Hf0 by lia.
    cbn [skip_ws]. change (is_ws 44) with false. cbv iota.
    change (44 =? 44) with true. cbv iota.
    assert (Hothers : exists t, others ++ 125 :: rest = 34 :: t).
    { subst others. destruct more; cbn [map join fst]; unfold QuoteJSONString;
        cbn [app]; eauto. }
    destruct Hothers as [t Ht]. rewrite Ht, (skip_ws_head 34 t eq_refl), <- Ht.
    rewrite Hf1 by lia. reflexivity.
Qed.

Lemma stringify_array (items : list json) :
  JSON_stringify (JArr items) = 91 :: join [44] (map JSON_stringify items) ++ [93].
Proof. reflexivity. Qed.

Lemma stringify_object (props : object) :
  JSON_stringify (JObj props)
  = 123 :: join [44] (map (fun kv => QuoteJSONString (fst kv)
                                       ++ 58 :: JSON_stringify (snd kv)) props) ++ [125].
Proof. reflexivity. Qed.

Lemma bracket_app (opening closing : Z) (inner rest : jsstring) :
  (opening :: inner ++ [closing]) ++ rest = opening :: (inner ++ closing :: rest).
Proof. cbn [app]. now rewrite <- app_assoc. Qed.

Lemma plain_reads (v : json) : plain v -> reads v.
Proof.
  induction v as [| b | n | s | items IH | props IH] using json_induction; intros Hv.
  - apply (reads_literal _ (js "null")); reflexivity.
  - destruct b; [apply (reads_literal _ (js "true"))|apply (reads_literal _ (js "false"))];
      reflexivity.
  - inversion Hv; subst. now apply reads_number.
  - inversion Hv; subst. now apply reads_string.
  - inversion Hv as [| | | | ? Hitems |]; subst.
    assert (Hreads : Forall reads items).
    { clear Hv. induction IH as [|x items Hx _ IHitems]; [constructor|].
      inversion Hitems; subst. constructor; auto. }
    intros rest Hrest. destruct items as [|x more].
    + exists 1%nat. intros f Hf. destruct f as [|f]; [lia|]. reflexivity.
    + destruct (parse_elements_join _ Hreads ltac:(discriminate) [] rest) as [f0 Hf0].
      exists (S f0). intros f Hf. destruct f as [|f]; [lia|].
      inversion Hitems as [|? ? Hx _]; subst.
      destruct (stringify_head _ Hx) as (c & t & Hhead & Hws & H93 & _).
      rewrite stringify_array, bracket_app.
      assert (Hfirst : exists t', join [44] (map JSON_stringify (x :: more)) ++ 93 :: rest
                                  = c :: t').
      { destruct more; cbn [map join]; rewrite Hhead; cbn [app]; eauto. }
      destruct Hfirst as [t' Ht'].
      cbn [parse_value skip_ws]. change (is_ws 91) with false. cbv iota.
      change (91 =? 123) with false. change (91 =? 91) with true. cbv iota.
      rewrite Ht', (skip_ws_head c t' Hws).
      replace (c =? 93) with false by (symmetry; now apply Z.eqb_neq).
      rewrite <- Ht'. apply Hf0. lia.
  - inversion Hv as [| | | | | ? Horder Hprops]; subst.
    assert (Hreads : Forall (fun kv => Forall (fun c => 0 <= c < 65536) (fst kv)
                                       /\ reads (snd kv)) props).
    { clear Hv Horder. induction IH as [|kv props Hkv _ IHprops]; [constructor|].
      inversion Hprops as [|? ? [Hk Hx] Hrest]; subst. constructor; auto. }
    intros rest Hrest. destruct props as [|[k x] more].
    + exists 1%nat. intros f Hf. destruct f as [|f]; [lia|]. reflexivity.
    + destruct (parse_members_join _ Hreads ltac:(discriminate) [] rest) as [f0 Hf0].
      exists (S f0). intros f Hf. destruct f as [|f]; [lia|].
      rewrite stringify_object, bracket_app.
      set (members := join [44] (map (fun kv => QuoteJSONString (fst kv)
                                                  ++ 58 :: JSON_stringify (snd kv))
                                     ((k, x) :: more))) in *.
      assert (Hfirst : exists t, members ++ 125 :: rest = 34 :: t).
      { subst members. destruct more; cbn [map join fst]; unfold QuoteJSONString;
          cbn [app]; eauto. }
      destruct Hfirst as [t Ht].
      cbn [parse_value skip_ws]. change (is_ws 123) with false. cbv iota.
      change (123 =? 123) with true. cbv iota.
      rewrite Ht, (skip_ws_head 34 t eq_refl). change (34 =? 125) with false. cbv iota.
      rewrite <- Ht, Hf0 by lia. unfold in_order in Horder. now rewrite Horder.
Qed.

(** What [JSON.stringify] writes of a plain value, [JSON.parse] reads
    back as that value. *)
Lemma JSON_parse_stringify (v : json) :
  plain v -> JSON_parse (JSON_stringify v) = Return v.
Proof.
  intros Hv. destruct (plain_reads v Hv [] I) as [f0 Hf0].
  rewrite app_nil_r in Hf0. unfold JSON_parse.
  set (text := JSON_stringify v) in *. set (F := (2 * List.length text + 2)%nat).
  assert (H : parse_value F text = Parsed v []).
  { rewrite <- (Hf0 (Nat.max F f0)) by lia. symmetry.
    apply (proj1 (parse_more_fuel F (Nat.max F f0) ltac:(lia))).
    apply JSON_parse_total. }
  now rewrite H.
Qed.

End ReadsBack.

Lemma comes_before_asym (k k' : jsstring) :
  comes_before k k' = true -> comes_before k' k = false.
Proof.
  unfold comes_before. destruct (array_index k), (array_index k'); try discriminate;
    try reflexivity. intros H. apply Z.ltb_lt in H. apply Z.ltb_ge. lia.
Qed.

Lemma comes_before_later (k k' y : jsstring) :
  comes_before k k' = true -> comes_before y k' = false -> comes_before y k = false.
Proof.
  unfold comes_before.
  destruct (array_index k), (array_index k'), (array_index y); try discriminate;
    try reflexivity.
  intros H1 H2. apply Z.ltb_lt in H1. apply Z.ltb_ge in H2. apply Z.ltb_ge. lia.
Qed.

Lemma obj_insert_last (k : jsstring) (v : json) (o : object) :
  Forall (fun k' => comes_before k k' = false) (Object_keys o) ->
  obj_insert k v o = o ++ [(k, v)].
Proof.
  induction o as [|[k' v'] o IH]; intros H; [reflexivity|].
  cbn [Object_keys map fst] in H. inversion H as [|? ? Hk Hrest]; subst.
  cbn [obj_insert app]. rewrite Hk. f_equal. now apply IH.
Qed.

Lemma ordered_before (l1 l2 : list jsstring) (k : jsstring) :
  ordered (l1 ++ k :: l2) -> Forall (fun k' => comes_before k k' = false) l1.
Proof.
  induction l1 as [|k1 l1 IH]; intros H; [constructor|].
  cbn [app ordered] in H. destruct H as [Hall Hrest]. constructor; [|now apply IH].
  rewrite Forall_forall in Hall. apply Hall. apply in_or_app. right. now left.
Qed.

(** Defining in turn the properties of an object that is in order, after
    those before them, appends them. *)
Lemma define_in_order (o acc : object) :
  NoDup (Object_keys (acc ++ o)) -> ordered (Object_keys (acc ++ o)) ->
  fold_left (fun acc kv => obj_set (fst kv) (snd kv) acc) o acc = acc ++ o.
Proof.
  revert acc. induction o as [|[k v] o IH]; intros acc Hnd Hord; cbn [fold_left fst snd].
  - now rewrite app_nil_r.
  - assert (Hset : obj_set k v acc = acc ++ [(k, v)]).
    { unfold obj_set. unfold Object_keys in Hnd, Hord. rewrite map_app in Hnd, Hord.
      cbn [map fst] in Hnd, Hord.
      replace (has_own k acc) with false.
      2:{ symmetry. apply has_own_false. apply NoDup_remove_2 in Hnd.
          intros Hin. apply Hnd, in_or_app. now left. }
      apply obj_insert_last. now apply ordered_before in Hord. }
    rewrite Hset. rewrite IH; rewrite <- app_assoc; [reflexivity|assumption..].
Qed.

Lemma obj_insert_keys_perm (k : jsstring) (v : json) (o : object) :
  Permutation (Object_keys (obj_insert k v o)) (k :: Object_keys o).
Proof. exact (Permutation_map fst (obj_insert_perm k v o)). Qed.

Lemma obj_insert_ordered (k : jsstring) (v : json) (o : object) :
  ordered (Object_keys o) -> ordered (Object_keys (obj_insert k v o)).
Proof.
  induction o as [|[k' v'] o IH]; intros H; [cbn; split; [constructor|exact I]|].
  cbn [Object_keys map fst ordered] in H. destruct H as [Hall Hrest].
  cbn [obj_insert]. destruct (comes_before k k') eqn:E.
  - change (ordered (k :: k' :: Object_keys o)). cbn [ordered].
    split; [|split; assumption]. constructor; [now apply comes_before_asym|].
    eapply Forall_impl; [|exact Hall]. intros y Hy. now apply (comes_before_later k k').
  - change (ordered (k' :: Object_keys (obj_insert k v o))). cbn [ordered].
    split; [|now apply IH].
    apply (Permutation_Forall (Permutation_sym (obj_insert_keys_perm k v o))).
    now constructor.
Qed.

Lemma obj_set_ordered (k : jsstring) (v : json) (o : object) :
  NoDup (Object_keys o) -> ordered (Object_keys o) ->
  NoDup (Object_keys (obj_set k v o)) /\ ordered (Object_keys (obj_set k v o)).
Proof.
  intros Hnd Hord. unfold obj_set. destruct (has_own k o) eqn:E.
  - now rewrite obj_update_keys.
  - apply has_own_false in E. split; [|now apply obj_insert_ordered].
    apply (Permutation_NoDup (Permutation_sym (obj_insert_keys_perm k v o))).
    now constructor.
Qed.

Lemma obj_update_Forall (P : jsstring * json -> Prop) (k : jsstring) (v : json) (o : object) :
  (forall k', P (k', v)) \/ P (k, v) -> Forall P o -> Forall P (obj_update k v o).
Proof.
  intros Hv. induction 1 as [|[k' v'] o Hkv Ho IH]; [constructor|].
  cbn [obj_update]. destruct (str_eqb k' k) eqn:E.
  - apply str_eqb_eq in E. subst. constructor; [|exact Ho]. destruct Hv; auto.
  - constructor; assumption.
Qed.

Lemma obj_set_Forall (P : jsstring * json -> Prop) (k : jsstring) (v : json) (o : object) :
  P (k, v) -> Forall P o -> Forall P (obj_set k v o).
Proof.
  intros Hv Ho. unfold obj_set. destruct (has_own k o).
  - apply obj_update_Forall; auto.
  - apply (Permutation_Forall (Permutation_sym (obj_insert_perm k v o))). now constructor.
Qed.

Section BodyTheorems.
Context {platform : Platform}.

(** The body mapping of a classification is in property order and holds
    arguments only. *)
Lemma body_mapping_in_order (P : jsstring * json -> Prop) (method : option json)
  (entries : object) :
  Forall P entries ->
  forall p p', separate_all method p entries = Return p' ->
  NoDup (Object_keys (bodyParams p)) /\ ordered (Object_keys (bodyParams p))
  /\ Forall P (bodyParams p) ->
  NoDup (Object_keys (bodyParams p')) /\ ordered (Object_keys (bodyParams p'))
  /\ Forall P (bodyParams p').
Proof.
  induction 1 as [|[key value] rest Hkv _ IH]; intros p p' H Hp; cbn [separate_all] in H.
  - now injection H as <-.
  - destruct (separate method p (key, value)) as [p1|] eqn:E; [|discriminate].
    apply (IH _ _ H). destruct Hp as (Hnd & Hord & Hall).
    apply separate_cases in E
      as [(_ & _ & _ & _ & Eb & _) | [(_ & _ & _ & _ & _ & Eb & _)
                                    | (_ & _ & _ & _ & _ & Eb & _)]];
      [rewrite Eb; now repeat split..|].
    destruct (assign_cases key value (bodyParams p) (bodyProto p)) as [(_ & _ & Ea) | Ea];
      rewrite Ea in Eb; injection Eb as -> _; [now repeat split|].
    destruct (obj_set_ordered key value _ Hnd Hord). split; [assumption|].
    split; [assumption|]. now apply obj_set_Forall.
Qed.

(** X25. The body of a request reads back as the body mapping: for
    arguments made of strings of code units, numbers written as the
    engine prints them and objects in property order, at every depth,
    parsing the text that is sent gives the object that holds exactly the
    body parameters, each under its key with its value. *)
Theorem body_reads_back
  (self : ShovMCPServer) (url : jsstring) (method : option json) (args : object)
  (p : parameters) (request : Request) (body : jsstring) :
  Forall (fun kv => Forall (fun c => 0 <= c < 65536) (fst kv) /\ plain (snd kv)) args ->
  classify url method args = Return p ->
  build_request self method p = Return request ->
  request_body request = Some body ->
  JSON_parse body = Return (JObj (bodyParams p)).
Proof.
  intros Hargs Hc Hb Hbody. unfold classify in Hc.
  destruct (body_mapping_in_order _ method args Hargs _ _ Hc) as (Hnd & Hord & Hall).
  { cbn. repeat split; constructor. }
  assert (Hsent : body = JSON_stringify (JObj (bodyParams p))).
  { unfold build_request in Hb.
    match type of Hb with match ?x with _ => _ end = _ => destruct x end; [|discriminate].
    injection Hb as <-. cbn [request_body] in Hbody.
    destruct (_ && _); [|discriminate]. now injection Hbody as <-. }
  subst body. apply JSON_parse_stringify. constructor; [|exact Hall].
  unfold in_order. now apply (define_in_order (bodyParams p) []).
Qed.

End BodyTheorems.

(* ================================================================== *)
(** ** The text of a tool result reads back *)

Lemma skip_ws_idempotent (s : jsstring) : skip_ws (skip_ws s) = skip_ws s.
Proof.
  induction s as [|c t IH]; [reflexivity|]. cbn [skip_ws].
  destruct (is_ws c) eqn:E; [exact IH|]. cbn [skip_ws]. now rewrite E.
Qed.

Lemma skip_ws_app (ws s : jsstring) :
  Forall (fun c => is_ws c = true) ws -> skip_ws (ws ++ s) = skip_ws s.
Proof.
  induction 1 as [|c ws Hc _ IH]; [reflexivity|]. cbn [app skip_ws]. now rewrite Hc.
Qed.

Lemma parse_value_ws (f : nat) (ws s : jsstring) :
  Forall (fun c => is_ws c = true) ws -> parse_value f (ws ++ s) = parse_value f s.
Proof.
  intros Hws. destruct f as [|f]; [reflexivity|]. cbn [parse_value].
  now rewrite (skip_ws_app _ _ Hws).
Qed.

Lemma parse_elements_ws (f : nat) (ws s : jsstring) (acc : list json) :
  Forall (fun c => is_ws c = true) ws -> parse_elements f (ws ++ s) acc = parse_elements f s acc.
Proof.
  intros Hws. destruct f as [|f]; [reflexivity|]. cbn [parse_elements].
  now rewrite (parse_value_ws _ _ _ Hws).
Qed.

(** A line feed and an indentation are white space. *)
Lemma indentation_ws (indent : jsstring) :
  Forall (fun c => c = 32) indent -> Forall (fun c => is_ws c = true) (10 :: indent).
Proof.
  intros H. constructor; [reflexivity|].
  eapply Forall_impl; [|exact H]. now intros c ->.
Qed.

Lemma gap_spaces (indent : jsstring) :
  Forall (fun c => c = 32) indent -> Forall (fun c => c = 32) (indent ++ gap).
Proof. intros H. apply Forall_app. split; [exact H|now repeat constructor]. Qed.

Section ResultReadsBack.
Context {platform : Platform}.

(** With enough fuel, the indented text of [v] is read as [v], at every
    indentation and up to what follows it. *)
Definition reads_indented (v : json) : Prop :=
  forall indent, Forall (fun c => c = 32) indent ->
  forall rest, delimited rest ->
  exists f0, forall f, (f0 <= f)%nat ->
    parse_value f (JSON_stringify_indented indent v ++ rest) = Parsed v rest.

Lemma indented_head (indent : jsstring) (v : json) :
  plain v ->
  exists c t, JSON_stringify_indented indent v = c :: t
              /\ is_ws c = false /\ c <> 93 /\ c <> 125.
Proof.
  intros Hv.
  destruct v as [| b | n | s | [|x items] | [|kv props]];
    try (destruct (stringify_head _ Hv) as (c & t & Hhead & Hc); exists c, t;
         split; [exact Hhead|exact Hc]).
  - eexists 91, _. now repeat split.
  - eexists 123, _. now repeat split.
Qed.

Lemma parse_elements_indented (indent : jsstring) (items : list json) :
  Forall (fun c => c = 32) indent ->
  Forall reads_indented items -> items <> [] ->
  forall acc rest,
  exists f0, forall f, (f0 <= f)%nat ->
    parse_elements f
      (join ([44; 10] ++ indent ++ gap)
            (map (JSON_stringify_indented (indent ++ gap)) items)
         ++ 10 :: indent ++ 93 :: rest) acc
    = Parsed (JArr (rev acc ++ items)) rest.
Proof.
  intros Hind. pose proof (gap_spaces _ Hind) as Hind'.
  induction 1 as [|x items Hx Hitems IH]; intros Hne acc rest; [contradiction|].
  destruct items as [|y more].
  - destruct (Hx _ Hind' (10 :: indent ++ 93 :: rest)) as [f0 Hf0]; [cbn; tauto|].
    exists (S f0). intros f Hf. destruct f as [|f]; [lia|].
    cbn [map join parse_elements]. rewrite Hf0 by lia.
    change (10 :: indent ++ 93 :: rest) with ((10 :: indent) ++ 93 :: rest).
    rewrite (skip_ws_app _ _ (indentation_ws _ Hind)).
    cbn [skip_ws]. change (is_ws 93) with false. cbv iota.
    change (93 =? 44) with false. change (93 =? 93) with true. cbv iota.
    cbn [rev]. reflexivity.
  - set (others := join ([44; 10] ++ indent ++ gap)
                        (map (JSON_stringify_indented (indent ++ gap)) (y :: more))) in *.
    destruct (Hx _ Hind' (44 :: (10 :: indent ++ gap)
                             ++ others ++ 10 :: indent ++ 93 :: rest))
      as [f0 Hf0]; [cbn; tauto|].
    destruct (IH ltac:(discriminate) (x :: acc) rest) as [f1 Hf1].
    exists (S (Nat.max f0 f1)). intros f Hf. destruct f as [|f]; [lia|].
    change (join ([44; 10] ++ indent ++ gap)
                 (map (JSON_stringify_indented (indent ++ gap)) (x :: y :: more)))
      with (JSON_stringify_indented (indent ++ gap) x
              ++ (44 :: 10 :: indent ++ gap) ++ others).
    rewrite <- !app_assoc. cbn [app parse_elements].
    change (44 :: 10 :: (indent ++ gap) ++ others ++ 10 :: indent ++ 93 :: rest)
      with (44 :: (10 :: indent ++ gap) ++ others ++ 10 :: indent ++ 93 :: rest).
    rewrite Hf0 by lia.
    cbn [skip_ws]. change (is_ws 44) with false. cbv iota.
    change (44 =? 44) with true. cbv iota.
    rewrite (parse_elements_ws _ _ _ _ (indentation_ws _ Hind')).
    rewrite Hf1 by lia. cbn [rev]. now rewrite <- app_assoc.
Qed.

Lemma parse_members_indented (indent : jsstring) (props : object) :
  Forall (fun c => c = 32) indent ->
  Forall (fun kv => Forall (fun c => 0 <= c < 65536) (fst kv) /\ reads_indented (snd kv))
         props ->
  props <> [] ->
  forall acc rest,
  exists f0, forall f, (f0 <= f)%nat ->
    parse_members f
      (join ([44; 10] ++ indent ++ gap)
            (map (fun kv => QuoteJSONString (fst kv) ++ [58; 32]
                              ++ JSON_stringify_indented (indent ++ gap) (snd kv)) props)
         ++ 10 :: indent ++ 125 :: rest) acc
    = Parsed (JObj (fold_left (fun acc kv => obj_set (fst kv) (snd kv) acc) props acc)) rest.
Proof.
  intros Hind. pose proof (gap_spaces _ Hind) as Hind'.
  induction 1 as [|[k x] props [Hk Hx] Hprops IH]; intros Hne acc rest; [contradiction|].
  cbn [fst snd] in Hk, Hx.
  assert (Hmember : forall tail,
             (QuoteJSONString k ++ [58; 32] ++ JSON_stringify_indented (indent ++ gap) x)
               ++ tail
             = 34 :: quote_chars k
                 ++ 34 :: 58 :: [32] ++ JSON_stringify_indented (indent ++ gap) x ++ tail).
  { intros tail. unfold QuoteJSONString. cbn [app]. rewrite <- !app_assoc. reflexivity. }
  assert (Hstep : forall f tail,
             parse_members (S f) (34 :: quote_chars k ++ 34 :: 58 :: [32] ++ tail) acc
             = match parse_value f tail with
               | Parsed v rest' =>
                   match skip_ws rest' with
                   | c' :: t2 =>
                       if c' =? 44 then parse_members f (skip_ws t2) (obj_set k v acc)
                       else if c' =? 125 then Parsed (JObj (obj_set k v acc)) t2
                       else Malformed
                   | [] => Malformed
                   end
               | Malformed => Malformed
               | OutOfFuel => OutOfFuel
               end).
  { intros f tail. cbn [parse_members]. change (34 =? 34) with true. cbv iota.
    rewrite (string_body_quote _ k (58 :: [32] ++ tail) (le_n _) Hk).
    cbn [skip_ws]. change (is_ws 58) with false. cbv iota.
    change (58 =? 58) with true. cbv iota.
    now rewrite (parse_value_ws f [32] tail) by now repeat constructor. }
  assert (Hclose : skip_ws (10 :: indent ++ 125 :: rest) = 125 :: rest).
  { change (10 :: indent ++ 125 :: rest) with ((10 :: indent) ++ 125 :: rest).
    now rewrite (skip_ws_app _ _ (indentation_ws _ Hind)). }
  destruct props as [|[k' y] more].
  - destruct (Hx _ Hind' (10 :: indent ++ 125 :: rest)) as [f0 Hf0]; [cbn; tauto|].
    exists (S f0). intros f Hf. destruct f as [|f]; [lia|].
    cbn [map join fst snd]. rewrite Hmember, Hstep, Hf0 by lia.
    rewrite Hclose. change (125 =? 44) with false. change (125 =? 125) with true.
    reflexivity.
  - set (others := join ([44; 10] ++ indent ++ gap)
                        (map (fun kv => QuoteJSONString (fst kv) ++ [58; 32]
                                          ++ JSON_stringify_indented (indent ++ gap) (snd kv))
                             ((k', y) :: more))) in *.
    destruct (Hx _ Hind' (44 :: (10 :: indent ++ gap)
                             ++ others ++ 10 :: indent ++ 125 :: rest))
      as [f0 Hf0]; [cbn; tauto|].
    destruct (IH ltac:(discriminate) (obj_set k x acc) rest) as [f1 Hf1].
    exists (S (Nat.max f0 f1)). intros f Hf. destruct f as [|f]; [lia|].
    change (join ([44; 10] ++ indent ++ gap)
                 (map (fun kv => QuoteJSONString (fst kv) ++ [58; 32]
                                   ++ JSON_stringify_indented (indent ++ gap) (snd kv))
                      ((k, x) :: (k', y) :: more)))
      with ((QuoteJSONString k ++ [58; 32] ++ JSON_stringify_indented (indent ++ gap) x)
              ++ (44 :: 10 :: indent ++ gap) ++ others).
    rewrite <- app_assoc, Hmember.
    replace (((44 :: 10 :: indent ++ gap) ++ others) ++ 10 :: indent ++ 125 :: rest)
      with (44 :: (10 :: indent ++ gap) ++ others ++ 10 :: indent ++ 125 :: rest)
      by (repeat (progress cbn [app] || rewrite <- app_assoc); reflexivity).
    rewrite Hstep, Hf0 by lia.
    cbn [skip_ws]. change (is_ws 44) with false. cbv iota.
    change (44 =? 44) with true. cbv iota.
    rewrite (skip_ws_app _ _ (indentation_ws _ Hind')).
    assert (Hothers : exists t, others ++ 10 :: indent ++ 125 :: rest = 34 :: t).
    { subst others. destruct more; cbn [map join fst]; unfold QuoteJSONString;
        cbn [app]; eauto. }
    destruct Hothers as [t Ht]. rewrite Ht, (skip_ws_head 34 t eq_refl), <- Ht.
    rewrite Hf1 by lia. reflexivity.
Qed.

Lemma indented_array (indent : jsstring) (x : json) (more : list json) :
  JSON_stringify_indented indent (JArr (x :: more))
  = 91 :: (10 :: indent ++ gap)
      ++ join ([44; 10] ++ indent ++ gap)
              (map (JSON_stringify_indented (indent ++ gap)) (x :: more))
      ++ 10 :: indent ++ [93].
Proof. reflexivity. Qed.

Lemma indented_object (indent : jsstring) (kv : jsstring * json) (more : object) :
  JSON_stringify_indented indent (JObj (kv :: more))
  = 123 :: (10 :: indent ++ gap)
      ++ join ([44; 10] ++ indent ++ gap)
              (map (fun kv => QuoteJSONString (fst kv) ++ [58; 32]
                                ++ JSON_stringify_indented (indent ++ gap) (snd kv))
                   (kv :: more))
      ++ 10 :: indent ++ [125].
Proof. reflexivity. Qed.

Lemma plain_reads_indented (v : json) : plain v -> reads_indented v.
Proof.
  induction v as [| b | n | s | items IH | props IH] using json_induction; intros Hv.
  - intros indent _. exact (plain_reads _ Hv).
  - intros indent _. exact (plain_reads _ Hv).
  - intros indent _. exact (plain_reads _ Hv).
  - intros indent _. exact (plain_reads _ Hv).
  - inversion Hv as [| | | | ? Hitems |]; subst.
    assert (Hreads : Forall reads_indented items).
    { clear Hv. induction IH as [|x items Hx _ IHitems]; [constructor|].
      inversion Hitems; subst. constructor; auto. }
    intros indent Hind rest Hrest. pose proof (gap_spaces _ Hind) as Hind'.
    destruct items as [|x more].
    + exists 1%nat. intros f Hf. destruct f as [|f]; [lia|]. reflexivity.
    + destruct (parse_elements_indented indent _ Hind Hreads ltac:(discriminate) [] rest)
        as [f0 Hf0].
      exists (S f0). intros f Hf. destruct f as [|f]; [lia|].
      inversion Hitems as [|? ? Hx _]; subst.
      destruct (indented_head (indent ++ gap) _ Hx) as (c & t & Hhead & Hws & H93 & _).
      rewrite indented_array.
      set (elements := join ([44; 10] ++ indent ++ gap)
                            (map (JSON_stringify_indented (indent ++ gap)) (x :: more))) in *.
      replace ((91 :: (10 :: indent ++ gap) ++ elements ++ 10 :: indent ++ [93]) ++ rest)
        with (91 :: (10 :: indent ++ gap) ++ elements ++ 10 :: indent ++ 93 :: rest)
        by (repeat (progress cbn [app] || rewrite <- app_assoc); reflexivity).
      assert (Hfirst : exists t', elements ++ 10 :: indent ++ 93 :: rest = c :: t').
      { subst elements. destruct more; cbn [map join]; rewrite Hhead; cbn [app]; eauto. }
      destruct Hfirst as [t' Ht'].
      cbn [parse_value skip_ws]. change (is_ws 91) with false. cbv iota.
      change (91 =? 123) with false. change (91 =? 91) with true. cbv iota.
      rewrite (skip_ws_app _ _ (indentation_ws _ Hind')), Ht', (skip_ws_head c t' Hws).
      replace (c =? 93) with false by (symmetry; now apply Z.eqb_neq).
      rewrite (parse_elements_ws _ _ _ _ (indentation_ws _ Hind')).
      rewrite <- Ht'. apply Hf0. lia.
  - inversion Hv as [| | | | | ? Horder Hprops]; subst.
    assert (Hreads : Forall (fun kv => Forall (fun c => 0 <= c < 65536) (fst kv)
                                       /\ reads_indented (snd kv)) props).
    { clear Hv Horder. induction IH as [|kv props Hkv _ IHprops]; [constructor|].
      inversion Hprops as [|? ? [Hk Hx] Hrest]; subst. constructor; auto. }
    intros indent Hind rest Hrest. pose proof (gap_spaces _ Hind) as Hind'.
    destruct props as [|[k x] more].
    + exists 1%nat. intros f Hf. destruct f as [|f]; [lia|]. reflexivity.
    + destruct (parse_members_indented indent _ Hind Hreads ltac:(discriminate) [] rest)
        as [f0 Hf0].
      exists (S f0). intros f Hf. destruct f as [|f]; [lia|].
      rewrite indented_object.
      set (members := join ([44; 10] ++ indent ++ gap)
                           (map (fun kv => QuoteJSONString (fst kv) ++ [58; 32]
                                             ++ JSON_stringify_indented (indent ++ gap)
                                                  (snd kv))
                                ((k, x) :: more))) in *.
      replace ((123 :: (10 :: indent ++ gap) ++ members ++ 10 :: indent ++ [125]) ++ rest)
        with (123 :: (10 :: indent ++ gap) ++ members ++ 10 :: indent ++ 125 :: rest)
        by (repeat (progress cbn [app] || rewrite <- app_assoc); reflexivity).
      assert (Hfirst : exists t, members ++ 10 :: indent ++ 125 :: rest = 34 :: t).
      { subst members. destruct more; cbn [map join fst]; unfold QuoteJSONString;
          cbn [app]; eauto. }
      destruct Hfirst as [t Ht].
      cbn [parse_value skip_ws]. change (is_ws 123) with false. cbv iota.
      change (123 =? 123) with true. cbv iota.
      rewrite (skip_ws_app _ _ (indentation_ws _ Hind')), Ht, (skip_ws_head 34 t eq_refl).
      change (34 =? 125) with false. cbv iota.
      rewrite <- Ht, Hf0 by lia. unfold in_order in Horder. now rewrite Horder.
Qed.

(** X26. The text of a tool result reads back as the response: when the
    response, as a value, is made of strings of code units, numbers
    written as the engine prints them and objects in property order,
    [JSON.parse] of the [text] that the [tools/call] handler returns
    gives the response. *)
Theorem result_text_reads_back (response : ToolResponse) :
  plain (response_value response) ->
  exists text,
    tool_result response
    = JObj [(js "content",
             JArr [JObj [(js "type", JStr (js "text")); (js "text", JStr text)]])]
    /\ JSON_parse text = Return (response_value response).
Proof.
  intros Hv. eexists. split; [reflexivity|].
  destruct (plain_reads_indented _ Hv [] ltac:(constructor) [] I) as [f0 Hf0].
  rewrite app_nil_r in Hf0. unfold JSON_parse.
  set (text := JSON_stringify_indented [] (response_value response)) in *.
  set (F := (2 * List.length text + 2)%nat).
  assert (H : parse_value F text = Parsed (response_value response) []).
  { rewrite <- (Hf0 (Nat.max F f0)) by lia. symmetry.
    apply (proj1 (parse_more_fuel F (Nat.max F f0) ltac:(lia))).
    apply JSON_parse_total. }
  now rewrite H.
Qed.

End ResultReadsBack.

(* ================================================================== *)
(** ** The statements at concrete inputs *)

Import Sample.

(** *** The platform functions on known inputs *)

Example replace_first_only :
  replace (js "a-b-c") (js "-") (js "+") = js "a+b-c".
Proof. reflexivity. Qed.

Example replace_dollar_patterns :
  replace (js "abc") (js "b") (js "[$&|$`|$'|$$|$1]") = js "a[b|a|c|$|$1]c".
Proof. reflexivity. Qed.

Example split_keeps_the_last_fragment :
  split 10 (text "one" ++ [10] ++ text "two" ++ [10] ++ text "thr")
  = [js "one"; js "two"; js "thr"]
  /\ split 10 (text "one" ++ [10]) = [js "one"; []]
  /\ split 10 [] = [[]].
Proof. repeat split. Qed.

(** U+00E9, U+20AC and U+1F600, the last one cut between two reads. *)
Example decode_across_reads :
  let (d, first) :=
    decode_stream TextDecoder_new
      [Byte.xc3; Byte.xa9; Byte.xe2; Byte.x82; Byte.xac; Byte.xf0; Byte.x9f] in
  first = [233; 8364]
  /\ snd (decode_stream d [Byte.x98; Byte.x80]) = [55357; 56832].
Proof. split; reflexivity. Qed.

(** A byte order mark is dropped, a stray continuation byte replaced. *)
Example decode_mark_and_stray_byte :
  utf8_decode [Byte.xef; Byte.xbb; Byte.xbf; Byte.x41; Byte.x80; Byte.x42; Byte.xc3]
  = [65; 65533; 66; 65533].
Proof. reflexivity. Qed.

Example encodeURIComponent_reserved :
  encodeURIComponent (JStr (js "a b/{x}$-_.!~*'()"))
  = Return (js "a%20b%2F%7Bx%7D%24-_.!~*'()")
  /\ encodeURIComponent (JStr [233; 8364; 55357; 56832])
     = Return (js "%C3%A9%E2%82%AC%F0%9F%98%80")
  /\ encodeURIComponent (JStr [55357]) = Throw (URIError (js "URI malformed"))
  /\ encodeURIComponent (JArr [JStr (js "a"); JNull; JBool true]) = Return (js "a%2C%2Ctrue").
Proof. repeat split. Qed.

Example URLSearchParams_of_an_object :
  URLSearchParams_toString ObjectPrototype
    [(js "q", JStr (js "a b&c=d~*")); (js "on", JBool true)]
  = Return (js "q=a+b%26c%3Dd%7E*&on=true").
Proof. reflexivity. Qed.

(** Two keys that are one string of scalar values are one parameter, with
    the later value. *)
Example URLSearchParams_merges_lone_surrogates :
  URLSearchParams_toString ObjectPrototype
    [([55357], JStr (js "1")); (js "q", JStr (js "2")); ([56832], JStr (js "3"))]
  = Return (js "%EF%BF%BD=3&q=2").
Proof. reflexivity. Qed.

(** An object that inherits from an array is read as a sequence of pairs. *)
Example URLSearchParams_of_an_array_heir :
  URLSearchParams_toString
    (ValuePrototype (JArr [JArr [JStr (js "admin"); JStr (js "1")]]))
    [(js "q", JStr (js "2"))]
  = Return (js "admin=1")
  /\ URLSearchParams_toString (ValuePrototype (JArr [JArr [JStr (js "admin")]]))
       [(js "q", JStr (js "2"))]
     = Throw (TypeError (fault_message NotAPair)).
Proof. split; reflexivity. Qed.

(** The assignment [o[key] = value] on an object created by [{}]. *)
Example assign_runs_the_setter :
  assign (js "id") (JStr (js "5")) ([], ObjectPrototype)
  = ([(js "id", JStr (js "5"))], ObjectPrototype)
  /\ assign (js "__proto__") (JStr (js "5")) ([], ObjectPrototype) = ([], ObjectPrototype)
  /\ assign (js "__proto__") (JArr []) ([], ObjectPrototype) = ([], ValuePrototype (JArr []))
  /\ assign (js "__proto__") JNull ([], ObjectPrototype) = ([], NullPrototype)
  /\ assign (js "__proto__") (JStr (js "5")) ([], NullPrototype)
     = ([(js "__proto__", JStr (js "5"))], NullPrototype).
Proof. repeat split. Qed.

Example JSON_parse_values :
  JSON_parse (text " {'a' : [1, -2.5e3, true, null, 'x\u0041\n'], 'b' : {} } ")
  = Return (JObj [(js "a", JArr [JNum (js "1"); JNum (js "-2.5e3"); JBool true; JNull;
                                 JStr [120; 65; 10]]);
                  (js "b", JObj [])])
  /\ JSON_parse (text "{'b':1,'2':2,'1':3,'b':4}")
     = Return (JObj [(js "1", JNum (js "3")); (js "2", JNum (js "2"));
                     (js "b", JNum (js "4"))])
  /\ JSON_parse (js "[DONE]") = Throw (SyntaxError (js "Unexpected token in JSON"))
  /\ JSON_parse (js "[1,]") = Throw (SyntaxError (js "Unexpected token in JSON"))
  /\ JSON_parse (js "01") = Throw (SyntaxError (js "Unexpected token in JSON")).
Proof. repeat split. Qed.

Example JSON_stringify_of_an_object :
  JSON_stringify (JObj [(js "a", JArr [JNull; JBool true; JStr (text "q'" ++ [10; 55357])]);
                        (js "b", JObj [])])
  = text "{'a':[null,true,'q\'\n\ud83d'],'b':{}}".
Proof. reflexivity. Qed.

Example JSON_stringify_indented_of_an_object :
  JSON_stringify_indented []
    (JObj [(js "a", JArr [JNum (js "1"); JObj []; JArr []]);
           (js "b", JObj [(js "c", JNull)])])
  = text "{
  'a': [
    1,
    {},
    []
  ],
  'b': {
    'c': null
  }
}".
Proof. reflexivity. Qed.

Example integer_to_string_403 : integer_to_string 403 = js "403".
Proof. reflexivity. Qed.

(** *** The claims *)

(** C1 at an input: the streaming scenario, delivered in reads that cut the first line
    inside a token and glue the end of the second line to the third. *)
Lemma C1_hi_there_witness :
  let response :=
    {| ok := true; status := 200; statusText := js "OK";
       content_type := Some (js "text/event-stream");
       body := Some
               [bytes "data: {'ty";
                bytes "pe':'delta','content':'Hi'}" ++ [Byte.x0a]
                  ++ bytes "data: {'type':'delta','cont";
                bytes "ent':' there'}" ++ [Byte.x0a] ++ line "data: [DONE]"];
       body_error := None |} in
  handleSSEStream response
  = Return {| result_type := js "stream";
              result_content := Some (js "Hi there");
              result_message := None;
              result_events := [delta (js "Hi"); delta (js " there")];
              result_eventCount := Some 2%nat |}.
Proof.
  cbv zeta.
  match goal with
  | |- handleSSEStream ?r = _ => refine (proj1 (C1_hi_there r _ eq_refl _ _))
  end; reflexivity.
Defined.





(** C6 at an input: the remote side answers the call with 403 and the
    body [not allowed]. *)
Lemma C6_remote_error_is_reported_witness :
  let call := tools_call demo_network (js "get_user") (Some [(js "id", JStr (js "42"))])
                         started in
  ok (reply 403 (Some (js "text/plain")) "not allowed") = false
  /\ status (reply 403 (Some (js "text/plain")) "not allowed") = 403
  /\ fst call = Throw (Error (js "API error (403): not allowed")).
Proof.
  cbv zeta. split; [reflexivity|]. split; [reflexivity|].
  etransitivity.
  - eapply (C6_remote_error_is_reported demo_network)
      with (response := reply 403 (Some (js "text/plain")) "not allowed").
    + apply surjective_pairing.
    + vm_compute. reflexivity.
    + reflexivity.
    + reflexivity.
    + reflexivity.
  - reflexivity.
Defined.

(** C7 at an input: no tool of [demo_manifest] is called [nope]. *)
Lemma C7_unknown_tool_witness :
  tools_call demo_network (js "nope") None started
  = (Throw (Error (js "Tool 'nope' not found")), started).
Proof.
  eapply (C7_unknown_tool demo_network (js "nope") None started).
  - reflexivity.
  - reflexivity.
  - repeat constructor; cbn; discriminate.
Defined.

(** C8 as first stated fails: a manifest without tools is fetched,
    returned and cached. *)
Lemma C8_counterexample :
  let empty := JObj [(js "name", JStr (js "demo")); (js "tools", JArr [])] in
  fetchManifest empty_network fresh
  = (Return empty,
     {| this := {| domain := js "x"; apiKey := js "pk_demo"; baseUrl := js "https://x";
                   manifest := Some empty |};
        sent := [{| request_url := js "https://x/mcp.json"; request_method := None;
                    request_headers := []; request_body := None |}] |}).
Proof. reflexivity. Qed.

(** C8 (as amended) at an input: [start] on that manifest; the failure
    comes from the check in [start], and the manifest is in the cache. *)
Lemma C8_fetch_then_check_witness :
  let empty := JObj [(js "name", JStr (js "demo")); (js "tools", JArr [])] in
  response_json (reply 200 (Some (js "application/json")) "{'name':'demo','tools':[]}")
  = Return empty
  /\ fst (start empty_network fresh) = Throw (Error (js "No tools found in MCP manifest"))
  /\ manifest (this (snd (start empty_network fresh))) = Some empty.
Proof.
  cbv zeta. split; [reflexivity|].
  destruct (C8_fetch_then_check empty_network fresh) as (_ & _ & _ & Hok & _).
  destruct (Hok _ _ eq_refl eq_refl eq_refl) as (_ & Hstart & _).
  rewrite (Hstart eq_refl). split; reflexivity.
Defined.

(** C9 at an input: [get_user] with [{id:"42"}], after [start]. *)
Lemma C9_get_user_witness :
  sent (snd (tools_call demo_network (js "get_user") (Some [(js "id", JStr (js "42"))])
                        started))
  = [{| request_url := js "https://x/mcp.json"; request_method := None;
        request_headers := []; request_body := None |};
     {| request_url := js "https://x/users/42";
        request_method := Some (JStr (js "GET"));
        request_headers :=
          [(js "Authorization", js "Bearer pk_demo");
           (js "Content-Type", js "application/json");
           (js "User-Agent", js "shov-mcp/1.0.0");
           (js "Accept", js "application/json, text/event-stream")];
        request_body := None |}].
Proof.
  destruct (proj1 (C9_get_user demo_network started _ eq_refl eq_refl)) as [o Ho].
  rewrite Ho. reflexivity.
Defined.



(** *** Further properties *)

(** X1 at an input: one line that is not JSON, cut inside its payload. *)
Lemma stream_is_a_fold_over_lines_witness :
  handleSSEStream (streamed [bytes "data: he"; line "llo"])
  = Return {| result_type := js "stream";
              result_content := Some (js "hello");
              result_message := None;
              result_events := [JObj [(js "type", JStr (js "text"));
                                      (js "content", JStr (js "hello"))]];
              result_eventCount := Some 1%nat |}.
Proof.
  exact (stream_is_a_fold_over_lines
           (streamed [bytes "data: he"; line "llo"]) _
           [JObj [(js "type", JStr (js "text")); (js "content", JStr (js "hello"))]]
           (js "hello") eq_refl eq_refl eq_refl).
Defined.

(** X2 at an input: a second [data:] line without its line feed. *)
Lemma unterminated_tail_is_dropped_witness :
  handleSSEStream (streamed [line "data: a"; bytes "data: b"])
  = handleSSEStream (streamed [line "data: a"]).
Proof.
  refine (proj2 (proj2 (unterminated_tail_is_dropped [line "data: a"] (bytes "data: b") _))
            (streamed [line "data: a"; bytes "data: b"]) (streamed [line "data: a"])
            eq_refl eq_refl eq_refl).
  intros H. vm_compute in H. intuition discriminate.
Defined.

(** X4 at an input: the result of the streaming scenario. *)
Lemma stream_result_shape_witness :
  let result := {| result_type := js "stream";
                   result_content := Some (js "Hi there");
                   result_message := None;
                   result_events := [delta (js "Hi"); delta (js " there")];
                   result_eventCount := Some 2%nat |} in
  handleSSEStream (streamed [hi_there]) = Return result
  /\ result_type result = js "stream"
  /\ (result_events result <> [] ->
      result_message result = None
      /\ result_eventCount result = Some (List.length (result_events result))).
Proof.
  cbv zeta. split; [reflexivity|].
  destruct (stream_result_shape (streamed [hi_there]) _ eq_refl) as (Ht & _ & _ & He & _).
  split; [exact Ht|exact He].
Defined.

(** X5 at an input: a comment, an [event:] field, and [data:] without the
    space. *)
Lemma no_data_lines_empty_result_witness :
  handleSSEStream (streamed [line ": keep-alive" ++ line "event: tick"; line "data:1"])
  = Return {| result_type := js "stream";
              result_content := None;
              result_message := Some (js "Stream completed with no data");
              result_events := [];
              result_eventCount := None |}.
Proof.
  apply (no_data_lines_empty_result
           (streamed [line ": keep-alive" ++ line "event: tick"; line "data:1"]) _
           eq_refl eq_refl).
  vm_compute. repeat constructor.
Defined.

(** X6 at an input: the payload [hello]. *)
Lemma plain_text_payload_witness :
  sse_line ([], []) (js "data: hello")
  = ([JObj [(js "type", JStr (js "text")); (js "content", JStr (js "hello"))]], js "hello").
Proof.
  refine (plain_text_payload [] [] (js "hello") (SyntaxError (js "Unexpected token in JSON"))
            eq_refl _).
  discriminate.
Defined.

(** X7 at an input: the payload [null]. *)
Lemma null_payload_recorded_twice_witness :
  sse_line ([], []) (js "data: null")
  = ([JNull; JObj [(js "type", JStr (js "text")); (js "content", JStr (js "null"))]],
     js "null").
Proof. exact (null_payload_recorded_twice [] [] (js "null") eq_refl). Defined.

(** X8 at an input: a progress event. *)
Lemma other_events_add_no_text_witness :
  let v := JObj [(js "type", JStr (js "progress")); (js "message", JStr (js "half"))] in
  JSON_parse (text "{'type':'progress','message':'half'}") = Return v
  /\ sse_line ([], js "so far") (text "data: {'type':'progress','message':'half'}")
     = ([v], js "so far").
Proof.
  cbv zeta. split; [reflexivity|].
  refine (other_events_add_no_text [] (js "so far")
            (text "{'type':'progress','message':'half'}") _ eq_refl _ _ _ _ _);
    try discriminate; reflexivity.
Defined.

(** X9 at an input: the value [a/b] for [{id}]. *)
Lemma path_value_is_percent_encoded_witness :
  let p := {| requestUrl := js "https://x/users/{id}/posts";
              pathParams := []; queryParams := []; bodyParams := [];
              pathProto := ObjectPrototype; queryProto := ObjectPrototype;
              bodyProto := ObjectPrototype |} in
  let p' := {| requestUrl := js "https://x/users/a%2Fb/posts";
               pathParams := [(js "id", JStr (js "a/b"))];
               queryParams := []; bodyParams := [];
               pathProto := ObjectPrototype; queryProto := ObjectPrototype;
               bodyProto := ObjectPrototype |} in
  separate (Some (JStr (js "GET"))) p (js "id", JStr (js "a/b")) = Return p'
  /\ exists before after encoded,
       requestUrl p = before ++ placeholder (js "id") ++ after
       /\ includes (before ++ removelast (placeholder (js "id"))) (placeholder (js "id")) = false
       /\ Encode (js "a/b") = Some encoded
       /\ Forall (fun c => uri_safe c = true) encoded
       /\ requestUrl p' = before ++ encoded ++ after.
Proof.
  cbv zeta. split; [reflexivity|].
  eapply (path_value_is_percent_encoded (Some (JStr (js "GET"))) _ _ (js "id")
            (JStr (js "a/b")) (js "a/b")).
  - reflexivity.
  - reflexivity.
  - repeat constructor; lia.
  - reflexivity.
Defined.

(** X10 at an input: a [HEAD] with one argument, which is left out. *)
Lemma where_arguments_can_go_witness :
  let p := {| requestUrl := js "https://x/items";
              pathParams := []; queryParams := [];
              bodyParams := [(js "q", JStr (js "1"))];
              pathProto := ObjectPrototype; queryProto := ObjectPrototype;
              bodyProto := ObjectPrototype |} in
  classify (js "https://x/items") (Some (JStr (js "HEAD"))) [(js "q", JStr (js "1"))]
  = Return p
  /\ exists request,
       build_request (this fresh) (Some (JStr (js "HEAD"))) p = Return request
       /\ request_url request = js "https://x/items"
       /\ request_body request = None.
Proof.
  cbv zeta. split; [reflexivity|]. eexists. split; [reflexivity|].
  apply (proj2 (proj2 (where_arguments_can_go
                         (this fresh) (js "https://x/items") (Some (JStr (js "HEAD")))
                         [(js "q", JStr (js "1"))] _ _ eq_refl eq_refl)));
    reflexivity.
Defined.

(** X11 at an input: [get_user] with a lone lead surrogate for [id]. *)
Lemma malformed_path_value_witness :
  let tool := JObj [(js "name", JStr (js "get_user"));
                    (js "handler", JObj [(js "method", JStr (js "GET"));
                                         (js "url", JStr (js "https://x/users/{id}"))])] in
  callTool demo_network tool [(js "id", JStr [55357])] started
  = (Throw (URIError (js "URI malformed")), started).
Proof.
  intros tool.
  exact (malformed_path_value demo_network tool
           (Some (JObj [(js "method", JStr (js "GET"));
                        (js "url", JStr (js "https://x/users/{id}"))]))
           (Some (JStr (js "GET"))) (js "https://x/users/{id}") (js "id")
           (JStr [55357]) [] [55357] started
           eq_refl eq_refl eq_refl eq_refl eq_refl eq_refl).
Defined.

(** X13 at an input: the request of [get_user] for the user [42]. *)
Lemma invocation_request_witness :
  exists items tool handler,
    get (manifest (this started)) (js "tools") = Return (Some (JArr items))
    /\ In tool items
    /\ own tool (js "name") = Some (JStr (js "get_user"))
    /\ get (Some tool) (js "handler") = Return handler
    /\ get handler (js "method") = Return (request_method get_user_42)
    /\ request_headers get_user_42
       = [(js "Authorization", js "Bearer " ++ apiKey (this started));
          (js "Content-Type", js "application/json");
          (js "User-Agent", js "shov-mcp/1.0.0");
          (js "Accept", js "application/json, text/event-stream")].
Proof.
  eapply (invocation_request demo_network (js "get_user")
            (Some [(js "id", JStr (js "42"))]) started).
  - apply surjective_pairing.
  - vm_compute. reflexivity.
Defined.

(** X14 at an input: two tools called [b]; the first one is found. *)
Lemma lookup_stops_at_first_witness :
  let a := JObj [(js "name", JStr (js "a"))] in
  let b1 := JObj [(js "name", JStr (js "b")); (js "description", JStr (js "first"))] in
  let b2 := JObj [(js "name", JStr (js "b")); (js "description", JStr (js "second"))] in
  find (Some (JArr [a; b1; b2])) (js "b") = Return (Some b1).
Proof.
  intros a b1 b2.
  refine (proj1 (lookup_stops_at_first [a] [b2] b1 (js "b") _) eq_refl).
  constructor; [split; discriminate|constructor].
Defined.

(** X15 at an input: a manifest whose [tools] is the string [none]. *)
Lemma tools_that_are_no_array_witness :
  let props := [(js "name", JStr (js "demo")); (js "tools", JStr (js "none"))] in
  let st := {| this := {| domain := js "x"; apiKey := js "pk_demo";
                          baseUrl := js "https://x"; manifest := Some (JObj props) |};
               sent := [] |} in
  no_tools (manifest (this st)) = false
  /\ tools_call demo_network (js "get_user") None st
     = (Throw (TypeError (js "find is not a function")), st)
  /\ tools_list st = (Throw (TypeError (js "map is not a function")), st).
Proof.
  intros props st.
  refine (tools_that_are_no_array demo_network st props (JStr (js "none")) (js "get_user") None
            eq_refl eq_refl eq_refl eq_refl _).
  intros items. discriminate.
Defined.

(** X17 at an input: [start] on [demo_manifest]. *)
Lemma start_postcondition_witness :
  exists response m tools,
    demo_network {| request_url := baseUrl (this fresh) ++ js "/mcp.json";
                    request_method := None;
                    request_headers := [];
                    request_body := None |} = Return response
    /\ ok response = true
    /\ response_json response = Return m
    /\ manifest (this started) = Some m
    /\ get (manifest (this started)) (js "tools") = Return (Some tools)
    /\ ToBoolean (Some tools) = true
    /\ length_is_zero tools = false.
Proof.
  apply (start_postcondition demo_network fresh started).
  vm_compute. reflexivity.
Defined.

(** X18 at an input: the listing of [demo_manifest]. *)
Lemma listed_tools_witness :
  let ds := [{| descriptor_name := Some (JStr (js "get_user"));
                descriptor_description := None;
                descriptor_inputSchema := Some (JObj []) |}] in
  tools_list started = (Return ds, started)
  /\ exists items tool,
       get (manifest (this started)) (js "tools") = Return (Some (JArr items))
       /\ find (Some (JArr items)) (js "get_user") = Return (Some tool)
       /\ own tool (js "name") = Some (JStr (js "get_user")).
Proof.
  cbv zeta. split; [reflexivity|].
  destruct (listed_tools started started _ eq_refl) as (_ & items & Hitems & _ & Hfind).
  destruct (Hfind _ (js "get_user") (or_introl eq_refl) eq_refl) as (tool & Ht & _ & Hn).
  exists items, tool. split; [exact Hitems|]. split; [exact Ht|exact Hn].
Defined.

(** X19 at an input: a JSON reply to [get_user]. *)
Lemma successful_reply_witness :
  fst (tools_call json_network (js "get_user") (Some [(js "id", JStr (js "42"))]) started)
  = Return (Json (JObj [(js "id", JNum (js "42"))])).
Proof.
  etransitivity.
  - eapply (successful_reply json_network) with (request := get_user_42).
    + apply surjective_pairing.
    + vm_compute. reflexivity.
    + reflexivity.
    + reflexivity.
    + reflexivity.
    + reflexivity.
  - reflexivity.
Defined.

(** X21 at an input: [shov-mcp x --api-key] with the variable set. *)
Lemma flag_without_value_witness :
  main demo_network [js "x"; js "--api-key"] (Some (js "pk_demo"))
  = ([js "Error: API key is required (use --api-key or set SHOV_API_KEY env var)" ++ [10];
      usage], Exited 1).
Proof.
  apply (flag_without_value demo_network (js "x") [] (Some (js "pk_demo")));
    [discriminate | intros [H | []]; discriminate H ..].
Defined.

(** X22 at an input: [shov-mcp x --api-key sk_demo] with another key in
    the variable. *)
Lemma server_left_running_witness :
  let args := [js "x"; js "--api-key"; js "sk_demo"] in
  exists st d k m,
    main demo_network args (Some (js "pk_other")) 
    = ([js "Warning: API key should start with " ++ [34] ++ js "pk_" ++ [34]
          ++ js " (project key)"], Serving st)
    /\ d = js "x" /\ k = js "sk_demo"
    /\ this st = {| domain := d; apiKey := k; baseUrl := js "https://x";
                    manifest := Some m |}
    /\ no_tools (Some m) = false.
Proof.
  cbv zeta.
  destruct (main demo_network [js "x"; js "--api-key"; js "sk_demo"] (Some (js "pk_other")))
    as [out [code|st]] eqn:E; [vm_compute in E; discriminate|].
  destruct (server_left_running demo_network _ _ _ _ E)
    as (d & k & m & Hd & _ & _ & Hk & Hthis & Hno & _ & Hout).
  injection Hd as <-. cbn in Hk. injection Hk as <-.
  exists st, (js "x"), (js "sk_demo"), m. rewrite Hout.
  split; [reflexivity|]. split; [reflexivity|]. split; [reflexivity|].
  split; [exact Hthis|exact Hno].
Defined.

(** X23 at an input: a value that holds both separators. *)
Lemma query_parameters_cannot_be_forged_witness :
  let args := [(js "q", JStr (js "a&b=c")); (js "lang", JStr (js "en"))] in
  exists p request query,
    classify (js "https://x/search") (Some (JStr (js "GET"))) args = Return p
    /\ build_request (this fresh) (Some (JStr (js "GET"))) p = Return request
    /\ request_url request = js "https://x/search?q=a%26b%3Dc&lang=en"
    /\ request_url request = requestUrl p ++ js "?" ++ query
    /\ count_occ Z.eq_dec query 61 = 2%nat
    /\ count_occ Z.eq_dec query 38 = 1%nat.
Proof.
  intros args.
  assert (Hnd : NoDup (map to_usv (Object_keys args))).
  { repeat constructor; cbn; intuition discriminate. }
  assert (Hno : ~ In (js "__proto__") (Object_keys args)).
  { cbn. intuition discriminate. }
  assert (Hargs : Forall (fun kv => Forall (fun c => 0 <= c < 65536) (fst kv)
                                    /\ forall t, ToString (snd kv) = Return t ->
                                                 Forall (fun c => 0 <= c < 65536) t)
                         args).
  { repeat constructor; cbn [fst snd]; try (repeat constructor; lia);
      intros t H; injection H as <-; repeat constructor; lia. }
  destruct (classify (js "https://x/search") (Some (JStr (js "GET"))) args)
    as [p|e] eqn:Hp; [|vm_compute in Hp; discriminate].
  destruct (build_request (this fresh) (Some (JStr (js "GET"))) p)
    as [request|e] eqn:Hr; [|vm_compute in Hp; injection Hp as <-; vm_compute in Hr; discriminate].
  assert (Hne : queryParams p <> []).
  { vm_compute in Hp. injection Hp as <-. discriminate. }
  destruct (query_parameters_cannot_be_forged
              (this fresh) (js "https://x/search") (Some (JStr (js "GET"))) args p request
              Hnd Hno Hargs Hp Hne Hr)
    as (query & Hurl & _ & H61 & H38).
  exists p, request, query. split; [reflexivity|]. split; [exact Hr|].
  pose proof Hp as Ep. vm_compute in Ep. injection Ep as Ep.
  rewrite <- Ep in Hr, H61, H38. split; [|split; [exact Hurl|split; assumption]].
  vm_compute in Hr. injection Hr as <-. reflexivity.
Defined.

(** X24 at an input: [shov-mcp x --api-key pk_demo] without a network. *)
Lemma start_failure_is_reported_witness :
  main offline_network [js "x"; js "--api-key"; js "pk_demo"] None
  = ([[10] ++ js "Error: Could not connect to https://x/mcp.json - fetch failed" ++ [10]],
     Exited 1).
Proof.
  refine (proj1 (start_failure_is_reported offline_network
                   [js "x"; js "--api-key"; js "pk_demo"] None (js "x") (js "pk_demo")
                   _ _ eq_refl _ eq_refl _) (TypeError (js "fetch failed")) eq_refl);
    try discriminate; intros [H | [H | [H | []]]]; discriminate H.
Defined.

(** X25 at an input: a [POST] with a path parameter and three body
    fields. *)
Lemma body_reads_back_witness :
  let args := [(js "id", JStr (js "42")); (js "name", JStr (js "Ann"));
               (js "tags", JArr [JStr (js "a"); JBool true; JNull]);
               (js "age", JNum (js "30"))] in
  let fields := [(js "name", JStr (js "Ann"));
                 (js "tags", JArr [JStr (js "a"); JBool true; JNull]);
                 (js "age", JNum (js "30"))] in
  exists p request,
    classify (js "https://x/users/{id}") (Some (JStr (js "POST"))) args = Return p
    /\ build_request (this fresh) (Some (JStr (js "POST"))) p = Return request
    /\ request_body request = Some (text "{'name':'Ann','tags':['a',true,null],'age':30}")
    /\ JSON_parse (text "{'name':'Ann','tags':['a',true,null],'age':30}")
       = Return (JObj fields).
Proof.
  intros args fields. eexists. eexists.
  split; [reflexivity|]. split; [reflexivity|]. split; [reflexivity|].
  refine (body_reads_back (this fresh) (js "https://x/users/{id}") (Some (JStr (js "POST")))
            args _ _ _ _ eq_refl eq_refl eq_refl).
  subst args. repeat (constructor || lia).
Defined.

(** X26 at an input: the result of the streaming scenario. *)
Lemma result_text_reads_back_witness :
  let result := {| result_type := js "stream";
                   result_content := Some (js "Hi there");
                   result_message := None;
                   result_events := [delta (js "Hi"); delta (js " there")];
                   result_eventCount := Some 2%nat |} in
  exists text,
    tool_result (Stream result)
    = JObj [(js "content",
             JArr [JObj [(js "type", JStr (js "text")); (js "text", JStr text)]])]
    /\ JSON_parse text
       = Return (JObj [(js "type", JStr (js "stream"));
                       (js "content", JStr (js "Hi there"));
                       (js "events", JArr [delta (js "Hi"); delta (js " there")]);
                       (js "eventCount", JNum (js "2"))]).
Proof.
  intros result. apply (result_text_reads_back (Stream result)).
  cbn. repeat (constructor || lia).
Defined.
